(** * Sienci ATCi keepout plugin (sienci-atci-plugin.c): model and properties

    The plugin intercepts grblHAL's travel-limit hooks and rejects or clamps
    moves that would enter a rectangular keepout zone.  The C code computes on
    [float]; the embedding below is written once over an arithmetic interface
    and instantiated with IEEE-754 binary32, which is what the firmware executes. *)

From Stdlib Require Import ZArith Lia Bool String Ascii List.
From Stdlib Require Import Floats.SpecFloat.
Import ListNotations.

Set Implicit Arguments.

(** ** Arithmetic interface: the operations the C code applies to [float] *)

Class Arith := {
  num : Type;
  of_int : Z -> num;              (* integer-valued literals: 0.0f, 1.0f, 10.0f ... *)
  half : num;                     (* the literal 0.5f *)
  fadd : num -> num -> num;
  fsub : num -> num -> num;
  fmul : num -> num -> num;
  fdiv : num -> num -> num;
  fneg : num -> num;
  feq : num -> num -> bool;       (* C's == *)
  flt : num -> num -> bool;       (* C's <  *)
  fle : num -> num -> bool;       (* C's <= *)
  fisnan : num -> bool
}.

Declare Scope flt_scope.
Delimit Scope flt_scope with flt.
Infix "+" := fadd : flt_scope.
Infix "-" := fsub : flt_scope.
Infix "*" := fmul : flt_scope.
Infix "/" := fdiv : flt_scope.
Notation "- x" := (fneg x) : flt_scope.
Infix "==" := feq (at level 70, no associativity) : flt_scope.
Notation "x != y" := (negb (feq x y)) (at level 70, no associativity) : flt_scope.
Infix "<" := flt : flt_scope.
Infix "<=" := fle : flt_scope.
Notation "x > y" := (flt y x) : flt_scope.
Notation "x >= y" := (fle y x) : flt_scope.

(** *** IEEE-754 single precision, from the standard library's specification *)

Module Binary32.
Definition prec : Z := 24.
Definition emax : Z := 128.
Definition float32 : Type := spec_float.

Definition of_Z (z : Z) : float32 := binary_normalize prec emax z 0 false.
Definition of_pow2 (m e : Z) : float32 := binary_normalize prec emax m e false.
Definition is_nan (x : float32) : bool :=
  match x with S754_nan => true | _ => false end.
End Binary32.

Definition binary32 : Arith := {|
  num := Binary32.float32;
  of_int := Binary32.of_Z;
  half := Binary32.of_pow2 1 (-1);
  fadd := SFadd Binary32.prec Binary32.emax;
  fsub := SFsub Binary32.prec Binary32.emax;
  fmul := SFmul Binary32.prec Binary32.emax;
  fdiv := SFdiv Binary32.prec Binary32.emax;
  fneg := SFopp;
  feq := SFeqb;
  flt := SFltb;
  fle := SFleb;
  fisnan := Binary32.is_nan
|}.

(** ** What the plugin takes from grblHAL's headers (not part of the plugin) *)

Class Host := {
  N_AXIS : nat;                   (* number of axes of the build *)
  axes_signals_t : Type;
  work_envelope_t : Type;
  tool_data_t : Type;
  report_tracking_flags_t : Type;
  STATE_CHECK_MODE : Z
}.

Definition X_AXIS : nat := 0.
Definition Y_AXIS : nat := 1.

Inductive message_type_t := Message_Info | Message_Warning.

Inductive status_code_t :=
| Status_OK
| Status_Unhandled
| Status_GcodeValueOutOfRange
| Status_Other (code : Z).

Inductive user_mcode_type_t :=
| UserMCode_Unsupported
| UserMCode_Normal
| UserMCode_NoValueWords.

(** Exact message strings *)
Definition MSG_INSIDE_ZONE : string :=
  "ATCI: You are currently inside the keepout zone. Disable keepout before Jogging to safety".
Definition MSG_BLOCKED_AT_WALL : string := "ATCI: Jog move blocked at keepout boundary.".
Definition MSG_CROSSING : string := "ATCI: Move crosses keepout zone".
Definition MSG_TARGET_IN_ZONE : string := "ATCI: Target inside region".
Definition MSG_USAGE : string :=
  "Use M960 P1 to enable Sienci ATC Keepout, M960 P0 to disable.".

Inductive keepout_source_t :=
| SOURCE_STARTUP
| SOURCE_RACK
| SOURCE_COMMAND
| SOURCE_MACRO.

Definition source_eqb (a b : keepout_source_t) : bool :=
  match a, b with
  | SOURCE_STARTUP, SOURCE_STARTUP
  | SOURCE_RACK, SOURCE_RACK
  | SOURCE_COMMAND, SOURCE_COMMAND
  | SOURCE_MACRO, SOURCE_MACRO => true
  | _, _ => false
  end.

(** ** The plugin's data *)

Section Plugin.
Context {A : Arith} {H : Host}.
Local Open Scope flt_scope.

Definition fzero : num := of_int 0.
Definition fone : num := of_int 1.

(** TOLERANCE BUFFER: the tool is "trapped" only if deeper than this inside the zone. *)
Definition KEEPOUT_TOLERANCE : num := half.

(** [config_flags_t]: a byte; bit 0 plugin_enabled, bit 1 monitor_rack_presence,
    bit 2 monitor_tc_macro, five unused bits. *)
Record atci_config_t := {
  cfg_x_min : num;
  cfg_y_min : num;
  cfg_x_max : num;
  cfg_y_max : num;
  flags_value : Z
}.

Definition plugin_enabled (c : atci_config_t) : bool := Z.testbit (flags_value c) 0.
Definition monitor_rack_presence (c : atci_config_t) : bool := Z.testbit (flags_value c) 1.
Definition monitor_tc_macro (c : atci_config_t) : bool := Z.testbit (flags_value c) 2.

(** Runtime-only state (NOT persisted) *)
Record atci_rt_t := {
  rt_x_min : num;
  rt_y_min : num;
  rt_x_max : num;
  rt_y_max : num;
  enabled : bool;
  source : keepout_source_t;
  last_pin_state : bool
}.

(** The file's static variables (function-pointer backups are in [hooks]). *)
Record statics := {
  config : atci_config_t;
  atci : atci_rt_t;
  tc_macro_running : bool;
  drawbar_state : bool;
  tool_sensor_state : bool;
  pressure_sensor_state : bool;
  inside_keepout_zone : bool
}.

(** The fields of [parser_block_t] the plugin reads or writes. *)
Record parser_block_t := {
  user_mcode : Z;
  words_p : bool;
  values_p : num
}.

(** Calls into the host that the plugin makes, in program order. *)
Inductive effect :=
| Report_message (msg : string) (ty : message_type_t)
| Task_add_delayed (delay_ms : nat)
| Memcpy_to_nvs (c : atci_config_t)
| Stream_write (s : string).

(** Previously registered handlers, saved by [atci_init]; [None] is a NULL pointer.
    None of them can reach the plugin's statics.  A handler that returns nothing is
    represented by the host calls it makes; [prev_check_travel_limits] by the value
    it returns; [prev_apply_travel_limits], which receives two mutable arrays, by
    their contents after the call. *)
Record hooks := {
  prev_check_travel_limits :
    option (list num -> axes_signals_t -> bool -> work_envelope_t -> bool);
  prev_apply_travel_limits :
    option (list num -> list num -> work_envelope_t -> list num * list num);
  user_mcode_check : option (Z -> user_mcode_type_t);
  user_mcode_validate : option (parser_block_t -> status_code_t * parser_block_t);
  user_mcode_execute : option (Z -> parser_block_t -> list effect);
  on_realtime_report : option (report_tracking_flags_t -> list effect);
  prev_on_tool_selected : option (tool_data_t -> list effect);
  prev_on_tool_changed : option (tool_data_t -> list effect)
}.

(** ** C arrays of [float] *)

Definition axis (v : list num) (i : nat) : num := nth i v fzero.

Fixpoint store {T : Type} (v : list T) (i : nat) (x : T) : list T :=
  match v, i with
  | [], _ => []
  | _ :: r, O => x :: r
  | y :: r, S j => y :: store r j x
  end.

(** [memcpy(dst, src, sizeof(float) * n)], both arrays holding at least [n] floats. *)
Definition memcpy (dst src : list num) (n : nat) : list num :=
  firstn n src ++ skipn n dst.

(** newlib's [fminf]/[fmaxf]: a NaN argument yields the other one. *)
Definition fminf (x y : num) : num :=
  if fisnan x then y else if fisnan y then x else if x < y then x else y.
Definition fmaxf (x y : num) : num :=
  if fisnan x then y else if fisnan y then x else if x > y then x else y.

(** ** Helpers *)

Definition set_atci (st : statics) (a : atci_rt_t) : statics :=
  {| config := config st; atci := a; tc_macro_running := tc_macro_running st;
     drawbar_state := drawbar_state st; tool_sensor_state := tool_sensor_state st;
     pressure_sensor_state := pressure_sensor_state st;
     inside_keepout_zone := inside_keepout_zone st |}.

Definition set_config (st : statics) (c : atci_config_t) : statics :=
  {| config := c; atci := atci st; tc_macro_running := tc_macro_running st;
     drawbar_state := drawbar_state st; tool_sensor_state := tool_sensor_state st;
     pressure_sensor_state := pressure_sensor_state st;
     inside_keepout_zone := inside_keepout_zone st |}.

Definition set_tc_macro_running (st : statics) (b : bool) : statics :=
  {| config := config st; atci := atci st; tc_macro_running := b;
     drawbar_state := drawbar_state st; tool_sensor_state := tool_sensor_state st;
     pressure_sensor_state := pressure_sensor_state st;
     inside_keepout_zone := inside_keepout_zone st |}.

(** Build runtime cached min/max from persistent config *)
Definition keepout_set (st : statics) : statics :=
  let c := config st in
  let a := atci st in
  set_atci st
    {| rt_x_min := fminf (cfg_x_min c) (cfg_x_max c);
       rt_x_max := fmaxf (cfg_x_min c) (cfg_x_max c);
       rt_y_min := fminf (cfg_y_min c) (cfg_y_max c);
       rt_y_max := fmaxf (cfg_y_min c) (cfg_y_max c);
       enabled := enabled a; source := source a;
       last_pin_state := last_pin_state a |}.

(** is the keepout enforcement currently active? *)
Definition is_keepout_active (st : statics) : bool :=
  plugin_enabled (config st) && enabled (atci st).

Definition set_keepout_state (st : statics) (new_state : bool)
    (event_source : keepout_source_t) : statics :=
  let a := atci st in
  if negb (Bool.eqb (enabled a) new_state) || negb (source_eqb (source a) event_source)
  then set_atci st
         {| rt_x_min := rt_x_min a; rt_y_min := rt_y_min a;
            rt_x_max := rt_x_max a; rt_y_max := rt_y_max a;
            enabled := new_state; source := event_source;
            last_pin_state := last_pin_state a |}
  else st.

Definition set_last_pin_state (st : statics) (b : bool) : statics :=
  let a := atci st in
  set_atci st
    {| rt_x_min := rt_x_min a; rt_y_min := rt_y_min a;
       rt_x_max := rt_x_max a; rt_y_max := rt_y_max a;
       enabled := enabled a; source := source a; last_pin_state := b |}.

Definition call_chain {T : Type} (h : option (T -> list effect)) (x : T) : list effect :=
  match h with Some f => f x | None => [] end.

(** ** Tool change & rack monitoring.  [aux7] etc. are the levels read by DIGITAL_IN. *)

Definition keepout_tool_selected (hk : hooks) (st : statics) (tool : tool_data_t)
    : statics * list effect :=
  let st :=
    if monitor_tc_macro (config st)
    then set_keepout_state (set_tc_macro_running st true) false SOURCE_MACRO
    else st in
  (st, call_chain (prev_on_tool_selected hk) tool).

Definition keepout_tool_changed (hk : hooks) (st : statics) (aux7 : bool)
    (tool : tool_data_t) : statics * list effect :=
  let st :=
    if monitor_tc_macro (config st)
    then
      let st := set_tc_macro_running st false in
      let rack_is_installed := negb aux7 in
      set_keepout_state st rack_is_installed SOURCE_RACK
    else st in
  (st, call_chain (prev_on_tool_changed hk) tool).

(** The two tests the C code writes out at each use: [technically_inside]
    (boundary lines included) and [strictly_deep_inside] / [target_deep_inside]
    (more than the tolerance past every bound). *)
Definition technically_inside_at (a : atci_rt_t) (x y : num) : bool :=
  (x >= rt_x_min a) && (x <= rt_x_max a) && (y >= rt_y_min a) && (y <= rt_y_max a).

Definition deep_inside_at (a : atci_rt_t) (x y : num) : bool :=
  (x > rt_x_min a + KEEPOUT_TOLERANCE) && (x < rt_x_max a - KEEPOUT_TOLERANCE) &&
  (y > rt_y_min a + KEEPOUT_TOLERANCE) && (y < rt_y_max a - KEEPOUT_TOLERANCE).

(** Sensor polling with inside-zone tracking; [pos] is [plan_get_position()]. *)
Definition poll_rack_sensor (st : statics) (aux7 aux0 aux1 aux2 : bool)
    (pos : option (list num)) : statics * list effect :=
  let st :=
    if monitor_rack_presence (config st)
    then
      let current_pin_is_low := negb aux7 in
      if negb (Bool.eqb current_pin_is_low (last_pin_state (atci st)))
      then set_keepout_state (set_last_pin_state st current_pin_is_low)
             current_pin_is_low SOURCE_RACK
      else st
    else st in
  let inside :=
    match pos with
    | Some pos => technically_inside_at (atci st) (axis pos X_AXIS) (axis pos Y_AXIS)
    | None => false
    end in
  ({| config := config st; atci := atci st; tc_macro_running := tc_macro_running st;
      drawbar_state := negb aux0; tool_sensor_state := negb aux1;
      pressure_sensor_state := negb aux2; inside_keepout_zone := inside |},
   [Task_add_delayed 100]).

(** ** Geometry *)

(** The body of the [for (i = 0; i < 4; i++)] loop over the arrays [p] and [q];
    [None] is the early [return false]. *)
Fixpoint clip_loop (pq : list (num * num)) (t0 t1 : num) : option (num * num) :=
  match pq with
  | [] => Some (t0, t1)
  | (p, q) :: rest =>
      if p == fzero then
        if q < fzero then None else clip_loop rest t0 t1
      else
        let t := q / p in
        if p < fzero then
          if t > t1 then None
          else clip_loop rest (if t > t0 then t else t0) t1
        else
          if t < t0 then None
          else clip_loop rest t0 (if t < t1 then t else t1)
  end.

(** The arrays [p] and [q], paired index by index. *)
Definition clip_edges (a : atci_rt_t) (x0 y0 x1 y1 : num) : list (num * num) :=
  let dx := x1 - x0 in
  let dy := y1 - y0 in
  [ (- dx, x0 - rt_x_min a); (dx, rt_x_max a - x0);
    (- dy, y0 - rt_y_min a); (dy, rt_y_max a - y0) ].

Definition line_intersects_keepout (st : statics) (x0 y0 x1 y1 : num) : bool :=
  match clip_loop (clip_edges (atci st) x0 y0 x1 y1) fzero fone with
  | None => false
  | Some (t0, t1) =>
      (* Strict inequality allows touching (t0==t1) without flagging as intersection *)
      t0 < t1
  end.

(** ** Travel & jog protection *)

Definition chain_check (hk : hooks) (target : list num) (axes : axes_signals_t)
    (is_cartesian : bool) (envelope : work_envelope_t) : bool :=
  match prev_check_travel_limits hk with
  | Some prev => prev target axes is_cartesian envelope
  | None => true
  end.

(** [pos] is the result of [plan_get_position()]. *)
Definition travel_limits_check (hk : hooks) (st : statics) (pos : option (list num))
    (target : list num) (axes : axes_signals_t) (is_cartesian : bool)
    (envelope : work_envelope_t) : bool * list effect :=
  if negb (is_keepout_active st) then
    (chain_check hk target axes is_cartesian envelope, [])
  else
    let xt := axis target X_AXIS in
    let yt := axis target Y_AXIS in
    let x0 := match pos with Some pos => axis pos X_AXIS | None => fzero end in
    let y0 := match pos with Some pos => axis pos Y_AXIS | None => fzero end in
    let strictly_deep_inside := deep_inside_at (atci st) x0 y0 in
    let technically_inside := technically_inside_at (atci st) x0 y0 in
    let target_deep_inside := deep_inside_at (atci st) xt yt in
    if target_deep_inside then
      if strictly_deep_inside || technically_inside
      then (false, [Report_message MSG_INSIDE_ZONE Message_Warning])
      else (false, [Report_message MSG_TARGET_IN_ZONE Message_Warning])
    else if line_intersects_keepout st x0 y0 xt yt then
      if strictly_deep_inside
      then (false, [Report_message MSG_INSIDE_ZONE Message_Warning])
      else if technically_inside
      then (false, [Report_message MSG_INSIDE_ZONE Message_Warning])
      else (false, [Report_message MSG_CROSSING Message_Warning])
    else
      (chain_check hk target axes is_cartesian envelope, []).

(** Liang-Barsky style clipping to the boundary.  Returns the [bool] result and
    the contents of the output array [clipped_point]. *)
Definition calculate_clipped_point (st : statics) (start end_ clipped_point : list num)
    : bool * list num :=
  let x0 := axis start X_AXIS in
  let y0 := axis start Y_AXIS in
  let x1 := axis end_ X_AXIS in
  let y1 := axis end_ Y_AXIS in
  let dx := x1 - x0 in
  let dy := y1 - y0 in
  match clip_loop (clip_edges (atci st) x0 y0 x1 y1) fzero fone with
  | None => (false, clipped_point)
  | Some (t0, _) =>
      if t0 > fzero then
        let clipped_point := memcpy clipped_point end_ N_AXIS in (* preserve other axes *)
        let clipped_point := store clipped_point X_AXIS (x0 + t0 * dx) in
        let clipped_point := store clipped_point Y_AXIS (y0 + t0 * dy) in
        (true, clipped_point)
      else (false, clipped_point)
  end.

Definition chain_apply (hk : hooks) (target current_position : list num)
    (envelope : work_envelope_t) : list num * list num :=
  match prev_apply_travel_limits hk with
  | Some prev => prev target current_position envelope
  | None => (target, current_position)
  end.

(** Returns the contents of [target] and [current_position] after the call.
    The local array [clipped_target] is only read after [calculate_clipped_point]
    has filled all of its [N_AXIS] entries; it starts here as zeros. *)
Definition keepout_apply_travel_limits (hk : hooks) (st : statics)
    (target current_position : list num) (envelope : work_envelope_t)
    : (list num * list num) * list effect :=
  if negb (is_keepout_active st) then
    (chain_apply hk target current_position envelope, [])
  else
    let x0 := axis current_position X_AXIS in
    let y0 := axis current_position Y_AXIS in
    let xt := axis target X_AXIS in
    let yt := axis target Y_AXIS in
    let strictly_deep_inside := deep_inside_at (atci st) x0 y0 in
    let technically_inside := technically_inside_at (atci st) x0 y0 in
    if strictly_deep_inside then
      ((memcpy target current_position N_AXIS, current_position),  (* Block move *)
       [Report_message MSG_INSIDE_ZONE Message_Warning])
    else
      let intersects := line_intersects_keepout st x0 y0 xt yt in
      let target_deep_inside := deep_inside_at (atci st) xt yt in
      if target_deep_inside || intersects then
        let msg :=
          if technically_inside
          then Report_message MSG_INSIDE_ZONE Message_Warning
          else Report_message MSG_BLOCKED_AT_WALL Message_Warning in
        let '(ok, clipped_target) :=
          calculate_clipped_point st current_position target (repeat fzero N_AXIS) in
        if ok
        then ((memcpy target clipped_target N_AXIS, current_position), [msg])
        else ((memcpy target current_position N_AXIS, current_position), [msg])
      else
        (chain_apply hk target current_position envelope, []).

(** ** M960 handlers *)

Definition mcode_check (hk : hooks) (mcode : Z) : user_mcode_type_t :=
  if (mcode =? 960)%Z then UserMCode_Normal
  else match user_mcode_check hk with
       | Some check => check mcode
       | None => UserMCode_Unsupported
       end.

Definition set_words_p (b : parser_block_t) (w : bool) : parser_block_t :=
  {| user_mcode := user_mcode b; words_p := w; values_p := values_p b |}.

(** Returns the status and the contents of [*gc_block] after the call; the
    plugin's static state is passed through to show it is not written. *)
Definition mcode_validate (hk : hooks) (st : statics) (gc_block : parser_block_t)
    : status_code_t * parser_block_t * statics :=
  let '(state, gc_block) :=
    if (user_mcode gc_block =? 960)%Z then
      if words_p gc_block then
        (if (values_p gc_block != fzero) && (values_p gc_block != fone)
         then Status_GcodeValueOutOfRange else Status_OK,
         set_words_p gc_block false (* consume *))
      else (Status_OK, gc_block)
    else (Status_Unhandled, gc_block) in
  match state, user_mcode_validate hk with
  | Status_Unhandled, Some validate =>
      let '(s, b) := validate gc_block in (s, b, st)
  | _, _ => (state, gc_block, st)
  end.

Definition mcode_execute (hk : hooks) (st : statics) (state : Z)
    (gc_block : parser_block_t) : statics * list effect :=
  if negb (user_mcode gc_block =? 960)%Z then
    (st, match user_mcode_execute hk with
         | Some execute => execute state gc_block
         | None => []
         end)
  else if (state =? STATE_CHECK_MODE)%Z then (st, [])
  else if words_p gc_block then
    (set_keepout_state st (values_p gc_block == fone) SOURCE_COMMAND, [])
  else
    (st, [Report_message MSG_USAGE Message_Info]).

(** ** Save, restore & load *)

Definition atci_save (st : statics) : statics * list effect :=
  let st := keepout_set st in
  (st, [Memcpy_to_nvs (config st)]).

Definition atci_restore (st : statics) : statics * list effect :=
  let c := {| cfg_x_min := of_int 10; cfg_y_min := of_int 10;
              cfg_x_max := of_int 50; cfg_y_max := of_int 50;
              flags_value := 0 |} in
  let a := atci st in
  let a := {| rt_x_min := rt_x_min a; rt_y_min := rt_y_min a;
              rt_x_max := rt_x_max a; rt_y_max := rt_y_max a;
              enabled := true; source := SOURCE_STARTUP; last_pin_state := false |} in
  (set_atci (set_config st c) a, [Memcpy_to_nvs c]).

(** [nvs] is what [memcpy_from_nvs] delivers: [Some c] when the transfer result is
    OK, [None] otherwise. *)
Definition atci_load (st : statics) (nvs : option atci_config_t) : statics * list effect :=
  let '(st, e) :=
    match nvs with
    | Some c => (set_config st c, [])
    | None => atci_restore st
    end in
  let st := keepout_set st in
  let st := set_keepout_state st true SOURCE_STARTUP in
  let st := set_tc_macro_running st false in
  (st, e ++ [Task_add_delayed 1000]). (* start polling after 1s *)

(** ** Realtime report *)

Definition NUL : ascii := Ascii.zero.

(** [flags[f++] = c] *)
Definition put_flag (bf : list ascii * nat) (c : ascii) : list ascii * nat :=
  (store (fst bf) (snd bf) c, S (snd bf)).

(** What a [%s] conversion reads from a char array: everything before the first NUL. *)
Fixpoint c_string (buf : list ascii) : string :=
  match buf with
  | [] => EmptyString
  | c :: r => if Ascii.eqb c NUL then EmptyString else String c (c_string r)
  end.

(** The contents of the local array [flags] before [snprintf]; [flags0] is the
    unspecified initial contents of the 16 chars. *)
Definition realtime_flags (st : statics) (flags0 : list ascii) : list ascii :=
  let bf := (flags0, 0%nat) in
  let bf :=
    match source (atci st) with
    | SOURCE_RACK => put_flag bf "R"
    | SOURCE_COMMAND => put_flag bf "M"
    | SOURCE_MACRO => put_flag bf "T"
    | SOURCE_STARTUP => put_flag bf "S"
    end in
  let bf := if enabled (atci st) then put_flag bf "E" else bf in
  let bf :=
    if monitor_rack_presence (config st) && last_pin_state (atci st)
    then put_flag bf "I" else bf in
  let bf := if drawbar_state st then put_flag bf "B" else bf in
  let bf := if tool_sensor_state st then put_flag bf "L" else bf in
  let bf := if pressure_sensor_state st then put_flag bf "P" else bf in
  let bf := if inside_keepout_zone st then put_flag bf "Z" else bf in
  store (fst bf) (snd bf) NUL.

Definition onRealtimeReport (hk : hooks) (st : statics) (flags0 : list ascii)
    (report : report_tracking_flags_t) : list effect :=
  Stream_write ("|ATCI:" ++ c_string (realtime_flags st flags0))
  :: call_chain (on_realtime_report hk) report.

End Plugin.

(** ** Specification-side definitions *)

Section SpecDefinitions.
Context {A : Arith}.

(** The runtime bounds are the normalisation of the persistent configuration. *)
Definition normalised (st : statics) : Prop :=
  rt_x_min (atci st) = fminf (cfg_x_min (config st)) (cfg_x_max (config st)) /\
  rt_x_max (atci st) = fmaxf (cfg_x_min (config st)) (cfg_x_max (config st)) /\
  rt_y_min (atci st) = fminf (cfg_y_min (config st)) (cfg_y_max (config st)) /\
  rt_y_max (atci st) = fmaxf (cfg_y_min (config st)) (cfg_y_max (config st)).

(** [x_min <= x_max] and [y_min <= y_max], with the program's own comparison. *)
Definition ordered (a : atci_rt_t) : Prop :=
  fle (rt_x_min a) (rt_x_max a) = true /\ fle (rt_y_min a) (rt_y_max a) = true.

(** The realtime flag string as the specification words it. *)
Definition spec_provenance_char (s : keepout_source_t) : ascii :=
  match s with
  | SOURCE_STARTUP => "S"
  | SOURCE_RACK => "R"
  | SOURCE_COMMAND => "M"
  | SOURCE_MACRO => "T"
  end.

Definition spec_opt_flag (b : bool) (c : ascii) : string :=
  if b then String c EmptyString else EmptyString.

Definition spec_flag_string (st : statics) : string :=
  String (spec_provenance_char (source (atci st)))
    (spec_opt_flag (enabled (atci st)) "E" ++
     spec_opt_flag (monitor_rack_presence (config st) && last_pin_state (atci st)) "I" ++
     spec_opt_flag (drawbar_state st) "B" ++
     spec_opt_flag (tool_sensor_state st) "L" ++
     spec_opt_flag (pressure_sensor_state st) "P" ++
     spec_opt_flag (inside_keepout_zone st) "Z").

(** C statics start zeroed: bounds 0, flags 0, [SOURCE_STARTUP], all booleans false. *)
Definition statics_zero : statics :=
  {| config := {| cfg_x_min := fzero; cfg_y_min := fzero; cfg_x_max := fzero;
                  cfg_y_max := fzero; flags_value := 0 |};
     atci := {| rt_x_min := fzero; rt_y_min := fzero; rt_x_max := fzero;
                rt_y_max := fzero; enabled := false; source := SOURCE_STARTUP;
                last_pin_state := false |};
     tc_macro_running := false; drawbar_state := false; tool_sensor_state := false;
     pressure_sensor_state := false; inside_keepout_zone := false |}.

(** A stored record with the zone x:10..50, y:10..50 written in crossed order. *)
Definition stored_config (flags : Z) : atci_config_t :=
  {| cfg_x_min := of_int 50; cfg_y_min := of_int 10;
     cfg_x_max := of_int 10; cfg_y_max := of_int 50; flags_value := flags |}.

(** A stored record with the zone x:0..5, y:0..5 and the plugin enabled. *)
Definition small_zone_config : atci_config_t :=
  {| cfg_x_min := of_int 0; cfg_y_min := of_int 0;
     cfg_x_max := of_int 5; cfg_y_max := of_int 5; flags_value := 1 |}.

End SpecDefinitions.

(** A three-axis build, used for the concrete examples. *)
Definition grblhal_3axis : Host := {|
  N_AXIS := 3;
  axes_signals_t := Z;
  work_envelope_t := unit;
  tool_data_t := Z;
  report_tracking_flags_t := Z;
  STATE_CHECK_MODE := 2
|}.

Section Examples.
Context {A : Arith}.
Local Existing Instance grblhal_3axis.

Definition no_hooks : hooks :=
  {| prev_check_travel_limits := None; prev_apply_travel_limits := None;
     user_mcode_check := None; user_mcode_validate := None;
     user_mcode_execute := None; on_realtime_report := None;
     prev_on_tool_selected := None; prev_on_tool_changed := None |}.

(** The plugin after [atci_load] read [stored_config flags] from storage. *)
Definition booted (flags : Z) : statics :=
  fst (atci_load statics_zero (Some (stored_config flags))).

Definition vec3 (x y z : Z) : list num := [of_int x; of_int y; of_int z].

(** A block [M960 P<p>]. *)
Definition m960_block (p : Z) : parser_block_t :=
  {| user_mcode := 960; words_p := true; values_p := of_int p |}.

(** [booted 1] after one sensor poll with every input high and the tool at
    (30, 30, 0), which is inside the zone. *)
Definition polled_inside : statics :=
  fst (poll_rack_sensor (booted 1) true true true true (Some (vec3 30 30 0))).

End Examples.

(** *** Binary32 data read as integers

    Every finite binary32 number is a multiple of [2^-149]; [V x] is [x] counted in
    that unit, so that comparisons and rounding errors become integer facts. *)

Section Binary32Values.
Local Open Scope Z_scope.

(** The exponent a value with [e] binary digits is rounded at. *)
Definition fexp32 (e : Z) : Z := Z.max (e - 24) (-149).

(** The last step of [binary_round_aux]. *)
Definition finish32 (sx : bool) (m e : Z) : spec_float :=
  match m with
  | Z0 => S754_zero sx
  | Zpos p => if e <=? 104 then S754_finite sx p e else S754_infinity sx
  | Zneg _ => S754_nan
  end.

Definition Vabs (x : spec_float) : Z :=
  match x with
  | S754_finite _ m e => Zpos m * 2 ^ (e + 149)
  | _ => 0
  end.

Definition sign_of (x : spec_float) : bool :=
  match x with
  | S754_finite s _ _ | S754_zero s | S754_infinity s => s
  | S754_nan => false
  end.

Definition V (x : spec_float) : Z := cond_Zopp (sign_of x) (Vabs x).

Definition is_fin (x : spec_float) : bool :=
  match x with
  | S754_finite _ _ _ | S754_zero _ => true
  | _ => false
  end.

Definition is_inf (x : spec_float) : bool :=
  match x with S754_infinity _ => true | _ => false end.

(** A binary32 datum that is a number. *)
Definition num32 (x : spec_float) : bool := valid_binary 24 128 x && is_fin x.

(** The spacing of binary32 numbers around the integer [X] (in units of [2^-149]). *)
Definition ulp_of (X : Z) : Z := 2 ^ Z.max (Zdigits2 X - 24) 0.

(** A result that is positive or negative, zero included, but not NaN. *)
Definition signed_as (s : bool) (r : spec_float) : Prop :=
  r = S754_zero s \/ r = S754_infinity s \/ exists m e, r = S754_finite s m e.

Definition nonzero_as (s : bool) (r : spec_float) : Prop :=
  r = S754_infinity s \/ exists m e, r = S754_finite s m e.

(** [x] is a binary32 number with [|x| <= L]. *)
Definition within (L x : spec_float) : bool :=
  valid_binary 24 128 x && SFleb (SFopp L) x && SFleb x L.

(** A binary32 datum other than the two infinities. *)
Definition not_infinite (x : spec_float) : bool :=
  valid_binary 24 128 x && negb (is_inf x).

(** The first integer value (in units of [2^-149]) that rounds to infinity:
    half a unit in the last place above the largest binary32 number. *)
Definition overflow_threshold : Z := (2 ^ 25 - 1) * 2 ^ 252.

(** The settings table bounds the four coordinates by -10000 and 10000. *)
Definition settings_limit : spec_float := Binary32.of_Z 10000.
Definition half32 : spec_float := Binary32.of_pow2 1 (-1).

(** What makes an edge [(p, q)] harmless for a start deep inside: the
    displacement [p] is a number or NaN, the distance [q] to the wall is a
    number of at least a quarter. *)
Definition good_edge (e : spec_float * spec_float) : Prop :=
  (num32 (fst e) = true \/ fst e = S754_nan) /\
  num32 (snd e) = true /\ 2 ^ 147 <= V (snd e).

End Binary32Values.

Section Binary32Zone.
Context {H : Host}.
Local Existing Instance binary32.

(** All four runtime bounds are numbers within the settings range. *)
Definition zone_in_settings_range (a : atci_rt_t) : bool :=
  within settings_limit (rt_x_min a) && within settings_limit (rt_x_max a) &&
  within settings_limit (rt_y_min a) && within settings_limit (rt_y_max a).

End Binary32Zone.

(** ** The handlers as the host drives them *)

Section Driver.
Context {A : Arith} {H : Host}.

(** One call from the host into a handler that can write the plugin's statics,
    together with what the handler reads from outside during the call: input
    levels, the planner position, the transfer from storage. *)
Inductive call :=
| On_tool_selected (tool : tool_data_t)
| On_tool_changed (aux7 : bool) (tool : tool_data_t)
| On_poll (aux7 aux0 aux1 aux2 : bool) (pos : option (list num))
| On_mcode_execute (state : Z) (gc_block : parser_block_t)
| On_save
| On_load (nvs : option atci_config_t).

Definition step (hk : hooks) (st : statics) (c : call) : statics :=
  match c with
  | On_tool_selected tool => fst (keepout_tool_selected hk st tool)
  | On_tool_changed aux7 tool => fst (keepout_tool_changed hk st aux7 tool)
  | On_poll aux7 aux0 aux1 aux2 pos => fst (poll_rack_sensor st aux7 aux0 aux1 aux2 pos)
  | On_mcode_execute state gc_block => fst (mcode_execute hk st state gc_block)
  | On_save => fst (atci_save st)
  | On_load nvs => fst (atci_load st nvs)
  end.

(** The statics after a sequence of calls, first call first. *)
Definition run (hk : hooks) (st : statics) (cs : list call) : statics :=
  fold_left (step hk) cs st.

Definition is_load (c : call) : bool :=
  match c with On_load _ => true | _ => false end.

(** A sensor poll that reads the rack input at the level recorded as [level]. *)
Definition steady_poll (level : bool) (c : call) : bool :=
  match c with
  | On_poll aux7 _ _ _ _ => Bool.eqb (negb aux7) level
  | _ => false
  end.

(** The factory defaults written by [atci_restore]. *)
Definition default_config : atci_config_t :=
  {| cfg_x_min := of_int 10; cfg_y_min := of_int 10;
     cfg_x_max := of_int 50; cfg_y_max := of_int 50; flags_value := 0 |}.

(** The four warnings of the travel handlers. *)
Definition warning (msg : string) : effect := Report_message msg Message_Warning.

(** Two states with the same configuration and the same runtime bounds. *)
Definition same_zone (st st' : statics) : Prop :=
  config st' = config st /\
  rt_x_min (atci st') = rt_x_min (atci st) /\
  rt_x_max (atci st') = rt_x_max (atci st) /\
  rt_y_min (atci st') = rt_y_min (atci st) /\
  rt_y_max (atci st') = rt_y_max (atci st).

End Driver.

(** Signs of binary32 data, by constructor. *)
Section Binary32SignDefinitions.
Local Open Scope Z_scope.

(** A binary32 datum that does not compare below zero: a zero of either sign, a
    positive number, +infinity or NaN. *)
Definition not_negative (x : spec_float) : bool :=
  match x with
  | S754_finite true _ _ | S754_infinity true => false
  | _ => true
  end.

(** A binary32 datum that compares above zero: a positive number or +infinity. *)
Definition positive32 (x : spec_float) : bool :=
  match x with
  | S754_finite false _ _ | S754_infinity false => true
  | _ => false
  end.

(** Zero of either sign, or above. *)
Definition nonneg32 (x : spec_float) : bool :=
  match x with
  | S754_zero _ | S754_finite false _ _ | S754_infinity false => true
  | _ => false
  end.

(** Zero of either sign, or below. *)
Definition nonpos32 (x : spec_float) : bool :=
  match x with
  | S754_zero _ | S754_finite true _ _ | S754_infinity true => true
  | _ => false
  end.

(** A number that is zero or negative. *)
Definition nonpos_number (x : spec_float) : bool :=
  match x with
  | S754_zero _ | S754_finite true _ _ => true
  | _ => false
  end.

(** An edge [(p, q)] that the segment leaves ([p > 0]) from on or beyond it
    ([q <= 0]): it closes the admissible interval at zero. *)
Definition closing_edge (e : spec_float * spec_float) : Prop :=
  positive32 (fst e) = true /\ nonpos_number (snd e) = true.

End Binary32SignDefinitions.

Section Binary32Moves.
Local Existing Instance binary32.

(** The move starts on or beyond one of the four boundary lines, seen from the
    zone, and its destination lies further out on the same axis. *)
Definition moves_away (a : atci_rt_t) (x0 y0 xt yt : num) : bool :=
  (fle x0 (rt_x_min a) && flt xt x0) || (fle (rt_x_max a) x0 && flt x0 xt) ||
  (fle y0 (rt_y_min a) && flt yt y0) || (fle (rt_y_max a) y0 && flt y0 yt).

End Binary32Moves.

(** The order of binary32 data, as integers. *)
Section Binary32OrderDefinitions.
Local Open Scope Z_scope.

(** The place of a datum in the order [SFcompare] decides: the class (the
    infinities, the two signs, zero), then exponent and mantissa as the
    comparison reads them.  NaN has no place; it is given zero's. *)
Definition rank (x : spec_float) : Z * Z * Z :=
  match x with
  | S754_infinity true => (-2, 0, 0)
  | S754_finite true m e => (-1, - e, - Zpos m)
  | S754_zero _ | S754_nan => (0, 0, 0)
  | S754_finite false m e => (1, e, Zpos m)
  | S754_infinity false => (2, 0, 0)
  end.

Definition rank_lt (a b : Z * Z * Z) : Prop :=
  let '(c1, e1, m1) := a in
  let '(c2, e2, m2) := b in
  c1 < c2 \/ (c1 = c2 /\ (e1 < e2 \/ (e1 = e2 /\ m1 < m2))).

Definition rank_le (a b : Z * Z * Z) : Prop := rank_lt a b \/ a = b.

End Binary32OrderDefinitions.

(** Shifting and rounding to nearest. *)
Section Binary32NearestDefinitions.
Local Open Scope Z_scope.

(** A shift record that holds the integer [N] shifted right by [k >= 1] places:
    the mantissa is the quotient, the round bit is the last bit shifted out and
    the sticky bit tells whether any bit before it was set. *)
Definition holds_shifted (N k : Z) (mrs : shr_record) : Prop :=
  shr_m mrs = N / 2 ^ k /\
  shr_r mrs = Z.odd (N / 2 ^ (k - 1)) /\
  shr_s mrs = negb (N mod 2 ^ (k - 1) =? 0).

(** [r] is on the grid of the binary32 numbers around [X] and at most half a
    grid step from it (values in units of [2^-149]). *)
Definition nearest_to (X r : Z) : Prop :=
  (ulp_of X | r) /\ 2 * Z.abs (r - X) <= ulp_of X.

End Binary32NearestDefinitions.

(** Edges of the clipping loop that leave no interval. *)
Section Binary32EdgeDefinitions.
Local Open Scope Z_scope.

(** An edge [(p, q)] parallel to the move ([p == 0]) with the start beyond it
    ([q < 0]): the loop returns at once. *)
Definition parallel_outside_edge (e : spec_float * spec_float) : Prop :=
  SFeqb (fst e) (S754_zero false) = true /\ SFltb (snd e) (S754_zero false) = true.

(** An edge [(p, q)] that the move enters ([p < 0]) no earlier than at its end:
    the quotient [q / p] is at least one. *)
Definition saturating_edge (e : spec_float * spec_float) : Prop :=
  SFltb (fst e) (S754_zero false) = true /\
  SFleb (Binary32.of_Z 1) (SFdiv 24 128 (snd e) (fst e)) = true.

(** An edge of one of the three kinds that leave no interval of positive
    length. *)
Definition barring_edge (e : spec_float * spec_float) : Prop :=
  closing_edge e \/ parallel_outside_edge e \/ saturating_edge e.

End Binary32EdgeDefinitions.

Section Binary32WallsDefinitions.
Local Existing Instance binary32.

(** Both ends of the move lie on or beyond the same boundary line, seen from the
    zone, and at least one of them strictly beyond it. *)
Definition beyond_one_wall (a : atci_rt_t) (x0 y0 x1 y1 : num) : bool :=
  (fle x0 (rt_x_min a) && fle x1 (rt_x_min a) &&
   (flt x0 (rt_x_min a) || flt x1 (rt_x_min a))) ||
  (fle (rt_x_max a) x0 && fle (rt_x_max a) x1 &&
   (flt (rt_x_max a) x0 || flt (rt_x_max a) x1)) ||
  (fle y0 (rt_y_min a) && fle y1 (rt_y_min a) &&
   (flt y0 (rt_y_min a) || flt y1 (rt_y_min a))) ||
  (fle (rt_y_max a) y0 && fle (rt_y_max a) y1 &&
   (flt (rt_y_max a) y0 || flt (rt_y_max a) y1)).

End Binary32WallsDefinitions.

(** A zone wider than the settings table allows: X from -2^127 to 2^127. *)
Section Binary32WideZone.
Local Existing Instance binary32.

Definition wide_zone_config : atci_config_t :=
  {| cfg_x_min := SFopp (Binary32.of_pow2 1 127); cfg_y_min := Binary32.of_Z 10;
     cfg_x_max := Binary32.of_pow2 1 127; cfg_y_max := Binary32.of_Z 50;
     flags_value := 1 |}.

Definition wide_zone : statics := fst (atci_load statics_zero (Some wide_zone_config)).

(** The largest binary32 number. *)
Definition largest32 : spec_float := S754_finite false 16777215 104.

End Binary32WideZone.

(** * Properties *)

(** ** Facts that hold for every arithmetic *)

Section GenericProperties.
Context {A : Arith} {H : Host}.

Lemma memcpy_whole (dst src : list num) :
  length dst = N_AXIS -> length src = N_AXIS -> memcpy dst src N_AXIS = src.
Proof.
  intros Hd Hs. unfold memcpy.
  rewrite <- Hs at 1. rewrite firstn_all.
  rewrite <- Hd, skipn_all. apply app_nil_r.
Qed.

Lemma store_length {T : Type} (v : list T) i x : length (store v i x) = length v.
Proof.
  revert i; induction v as [|y r IH]; intros [|j]; simpl; auto.
Qed.

Lemma nth_store_other {T : Type} (v : list T) i j x d :
  i <> j -> nth j (store v i x) d = nth j v d.
Proof.
  revert i j; induction v as [|y r IH]; intros [|i] [|j] Hij; simpl; auto.
  congruence.
Qed.

Lemma nth_store_same {T : Type} (v : list T) i x d :
  (i < length v)%nat -> nth i (store v i x) d = x.
Proof.
  revert i; induction v as [|y r IH]; intros [|i] Hi; simpl in *; try lia; auto.
  apply IH; lia.
Qed.

(** [set_keepout_state] always leaves the requested pair in place ... *)
Lemma set_keepout_state_sets (st : statics) b s :
  enabled (atci (set_keepout_state st b s)) = b /\
  source (atci (set_keepout_state st b s)) = s.
Proof.
  unfold set_keepout_state.
  destruct (enabled (atci st)) eqn:E, b, (source (atci st)) eqn:S, s; simpl;
    rewrite ?E, ?S; auto.
Qed.

(** ... and touches nothing else. *)
Lemma set_keepout_state_frame (st : statics) b s :
  config (set_keepout_state st b s) = config st /\
  tc_macro_running (set_keepout_state st b s) = tc_macro_running st /\
  last_pin_state (atci (set_keepout_state st b s)) = last_pin_state (atci st).
Proof.
  unfold set_keepout_state.
  destruct (_ || _); simpl; auto.
Qed.

Lemma set_keepout_state_bounds (st : statics) b s :
  rt_x_min (atci (set_keepout_state st b s)) = rt_x_min (atci st) /\
  rt_x_max (atci (set_keepout_state st b s)) = rt_x_max (atci st) /\
  rt_y_min (atci (set_keepout_state st b s)) = rt_y_min (atci st) /\
  rt_y_max (atci (set_keepout_state st b s)) = rt_y_max (atci st).
Proof. unfold set_keepout_state. destruct (_ || _); cbn; auto. Qed.

Lemma inactive_iff (st : statics) :
  is_keepout_active st = false <->
  plugin_enabled (config st) = false \/ enabled (atci st) = false.
Proof. unfold is_keepout_active. apply andb_false_iff. Qed.

(** The configuration in force after [atci_load]. *)
Lemma load_config (st : statics) (nvs : option atci_config_t) :
  config (fst (atci_load st nvs)) =
  match nvs with Some c => c | None => config (fst (atci_restore st)) end.
Proof.
  unfold atci_load.
  destruct nvs as [c|]; cbn [atci_restore fst];
    match goal with
    | |- context [set_keepout_state ?s ?b ?e] =>
        destruct (set_keepout_state_frame s b e) as (Ec & _)
    end;
    cbn [set_tc_macro_running config]; rewrite Ec; reflexivity.
Qed.

(** Every [atci_load], with or without the fallback to [atci_restore], ends with
    the runtime bounds rebuilt from the configuration. *)
Lemma load_normalised (st : statics) (nvs : option atci_config_t) :
  normalised (fst (atci_load st nvs)).
Proof.
  unfold atci_load.
  destruct nvs as [c|]; cbn [atci_restore fst];
    match goal with
    | |- normalised (set_tc_macro_running (set_keepout_state ?s ?b ?e) _) =>
        destruct (set_keepout_state_bounds s b e) as (E1 & E2 & E3 & E4);
        destruct (set_keepout_state_frame s b e) as (Ec & _)
    end;
    unfold normalised; cbn [set_tc_macro_running config atci];
    rewrite Ec, E1, E2, E3, E4; cbn; auto.
Qed.

Lemma save_normalised (st : statics) : normalised (fst (atci_save st)).
Proof. unfold atci_save, normalised. cbn. auto. Qed.

(** A start deeper than the tolerance inside the zone: the apply path copies the
    current position over the target, whatever the target was. *)
Lemma apply_blocks_deep_inside_start (hk : hooks) (st : statics)
    (target current_position : list num) (envelope : work_envelope_t) :
  is_keepout_active st = true ->
  deep_inside_at (atci st) (axis current_position X_AXIS)
    (axis current_position Y_AXIS) = true ->
  keepout_apply_travel_limits hk st target current_position envelope =
  ((memcpy target current_position N_AXIS, current_position),
   [Report_message MSG_INSIDE_ZONE Message_Warning]).
Proof.
  intros Hact Hd. unfold keepout_apply_travel_limits.
  rewrite Hact. cbn [negb]. rewrite Hd. reflexivity.
Qed.

Lemma clipped_point_other_axes (st : statics) (start end_ buf out : list num) i :
  calculate_clipped_point st start end_ buf = (true, out) ->
  length end_ = N_AXIS -> length buf = N_AXIS ->
  i <> X_AXIS -> i <> Y_AXIS -> axis out i = axis end_ i.
Proof.
  unfold calculate_clipped_point. intros Hc He Hb Hx Hy.
  destruct (clip_loop _ _ _) as [[t0 t1]|]; [|discriminate].
  destruct (flt fzero t0); [|discriminate].
  injection Hc as <-. unfold axis.
  rewrite !nth_store_other by auto.
  rewrite memcpy_whole by auto. reflexivity.
Qed.

Lemma clipped_point_length (st : statics) (start end_ buf out : list num) b :
  calculate_clipped_point st start end_ buf = (b, out) ->
  length end_ = N_AXIS -> length buf = N_AXIS -> length out = N_AXIS.
Proof.
  unfold calculate_clipped_point. intros Hc He Hb.
  destruct (clip_loop _ _ _) as [[t0 t1]|].
  - destruct (flt fzero t0); injection Hc as <- <-; auto.
    rewrite !store_length, memcpy_whole; auto.
  - injection Hc as <- <-; auto.
Qed.

(** C3 (enforcement gating): with [plugin_enabled] or the runtime [enabled] flag
    off, for any state, start, target and bounds, the check path returns what the
    previously registered handler returns ([true] when there is none) and the apply
    path hands the arrays to the previously registered handler (leaving them as
    they are when there is none); the plugin itself reports nothing. *)
Theorem enforcement_gating (hk : hooks) (st : statics) (pos : option (list num))
    (target current_position : list num) (axes : axes_signals_t)
    (is_cartesian : bool) (envelope : work_envelope_t) :
  plugin_enabled (config st) = false \/ enabled (atci st) = false ->
  travel_limits_check hk st pos target axes is_cartesian envelope =
    (match prev_check_travel_limits hk with
     | Some prev => prev target axes is_cartesian envelope
     | None => true
     end, [])
  /\
  keepout_apply_travel_limits hk st target current_position envelope =
    (match prev_apply_travel_limits hk with
     | Some prev => prev target current_position envelope
     | None => (target, current_position)
     end, []).
Proof.
  intros Hoff. apply inactive_iff in Hoff.
  unfold travel_limits_check, keepout_apply_travel_limits.
  rewrite Hoff. simpl. split; reflexivity.
Qed.

(** C9 (no planner position): when [plan_get_position()] returns NULL and
    enforcement is active, the verdict is the one decided from the start (0.0, 0.0):
    both start tests are made on the origin and the intersection test runs on the
    segment from the origin to the destination.  A destination deep inside is
    rejected; otherwise the move is rejected exactly when the segment from the
    origin is reported as intersecting, and passed to the previous handler when
    not; the message is "inside zone" when the origin passes one of the start
    tests.  No coordinate of the machine enters the decision: the result is that
    of the check started from any position whose X and Y are 0.0. *)
Theorem check_without_position_starts_at_origin (hk : hooks) (st : statics)
    (rest target : list num) (axes : axes_signals_t) (is_cartesian : bool)
    (envelope : work_envelope_t) :
  is_keepout_active st = true ->
  let xt := axis target X_AXIS in
  let yt := axis target Y_AXIS in
  let origin_inside :=
    deep_inside_at (atci st) fzero fzero || technically_inside_at (atci st) fzero fzero in
  let r := travel_limits_check hk st None target axes is_cartesian envelope in
  (deep_inside_at (atci st) xt yt = true ->
   r = (false, [warning (if origin_inside then MSG_INSIDE_ZONE else MSG_TARGET_IN_ZONE)]))
  /\
  (deep_inside_at (atci st) xt yt = false ->
   line_intersects_keepout st fzero fzero xt yt = true ->
   r = (false, [warning (if origin_inside then MSG_INSIDE_ZONE else MSG_CROSSING)]))
  /\
  (deep_inside_at (atci st) xt yt = false ->
   line_intersects_keepout st fzero fzero xt yt = false ->
   r = (chain_check hk target axes is_cartesian envelope, []))
  /\
  r = travel_limits_check hk st (Some (fzero :: fzero :: rest)) target axes
        is_cartesian envelope.
Proof.
  intros Hact. cbv zeta. unfold travel_limits_check, warning. rewrite Hact. cbn [negb].
  repeat split.
  - intros ->. destruct (deep_inside_at (atci st) fzero fzero); cbn [orb]; [reflexivity|].
    destruct (technically_inside_at (atci st) fzero fzero); reflexivity.
  - intros -> ->. destruct (deep_inside_at (atci st) fzero fzero); cbn [orb]; [reflexivity|].
    destruct (technically_inside_at (atci st) fzero fzero); reflexivity.
  - intros -> ->. reflexivity.
Qed.

(** C10 (frame of the apply path): when the apply path blocks (start deep inside,
    or a clip was attempted and [calculate_clipped_point] returned false) the target
    becomes the current position on every axis; when it clips, every axis other
    than X and Y keeps the value of the original destination. *)
Theorem apply_block_overwrites_all_axes_clip_keeps_others (hk : hooks) (st : statics)
    (target current_position : list num) (envelope : work_envelope_t) :
  is_keepout_active st = true ->
  length target = N_AXIS -> length current_position = N_AXIS ->
  let x0 := axis current_position X_AXIS in
  let y0 := axis current_position Y_AXIS in
  let xt := axis target X_AXIS in
  let yt := axis target Y_AXIS in
  let deep := deep_inside_at (atci st) x0 y0 in
  let attempt :=
    deep_inside_at (atci st) xt yt || line_intersects_keepout st x0 y0 xt yt in
  let clip :=
    calculate_clipped_point st current_position target (repeat fzero N_AXIS) in
  let target' :=
    fst (fst (keepout_apply_travel_limits hk st target current_position envelope)) in
  (deep = true \/ (attempt = true /\ fst clip = false) -> target' = current_position)
  /\
  (deep = false -> attempt = true -> fst clip = true ->
   forall i, i <> X_AXIS -> i <> Y_AXIS -> axis target' i = axis target i).
Proof.
  intros Hact Ht Hc. cbv zeta.
  unfold keepout_apply_travel_limits. rewrite Hact. cbn [negb].
  destruct (deep_inside_at (atci st) (axis current_position X_AXIS)
              (axis current_position Y_AXIS)) eqn:Hdeep.
  - split; [intros _; apply memcpy_whole; auto | discriminate].
  - destruct (deep_inside_at _ _ _ || line_intersects_keepout _ _ _ _ _) eqn:Hatt.
    + destruct (calculate_clipped_point _ _ _ _) as [[|] out] eqn:Hclip; cbn [fst snd].
      * split; [intros [?|[_ ?]]; discriminate|].
        intros _ _ _ i Hx Hy.
        rewrite memcpy_whole; auto.
        -- eapply clipped_point_other_axes; eauto. apply repeat_length.
        -- eapply clipped_point_length; eauto. apply repeat_length.
      * split; [intros _; apply memcpy_whole; auto | discriminate].
    + split; [intros [?|[? _]]; discriminate | discriminate].
Qed.

(** C7 (M960): for a block whose user M-code is 960, validation answers
    value-out-of-range exactly when the P word is present and its value compares
    unequal to both 0.0 and 1.0, and never writes the plugin's state; execution in
    check mode does nothing; otherwise with P present it performs the Command
    transition to [P == 1.0], and with P absent only reports the usage message. *)
Theorem m960_validate_and_execute (hk : hooks) (st : statics) (state : Z)
    (gc_block : parser_block_t) :
  user_mcode gc_block = 960%Z ->
  let v := mcode_validate hk st gc_block in
  let x := mcode_execute hk st state gc_block in
  (fst (fst v) = Status_GcodeValueOutOfRange <->
     words_p gc_block = true /\
     feq (values_p gc_block) fzero = false /\ feq (values_p gc_block) fone = false)
  /\ snd v = st
  /\ (state = STATE_CHECK_MODE -> x = (st, []))
  /\ (state <> STATE_CHECK_MODE -> words_p gc_block = true ->
        x = (set_keepout_state st (feq (values_p gc_block) fone) SOURCE_COMMAND, []) /\
        enabled (atci (fst x)) = feq (values_p gc_block) fone /\
        source (atci (fst x)) = SOURCE_COMMAND)
  /\ (state <> STATE_CHECK_MODE -> words_p gc_block = false ->
        x = (st, [Report_message MSG_USAGE Message_Info])).
Proof.
  intros Hm. cbv zeta. unfold mcode_validate, mcode_execute.
  rewrite Hm. cbn [Z.eqb Pos.eqb negb].
  split; [|split; [|split; [|split]]].
  - destruct (words_p gc_block); cbn.
    + destruct (feq (values_p gc_block) fzero), (feq (values_p gc_block) fone);
        cbn; split; try discriminate; auto;
        intros (_ & ? & ?); discriminate.
    + split; [discriminate | intros (? & _); discriminate].
  - destruct (words_p gc_block); cbn; [destruct (_ && _)|]; reflexivity.
  - intros ->. rewrite Z.eqb_refl. reflexivity.
  - intros Hs Hw. apply Z.eqb_neq in Hs. rewrite Hs, Hw. cbn [fst].
    split; [reflexivity | apply set_keepout_state_sets].
  - intros Hs Hw. apply Z.eqb_neq in Hs. rewrite Hs, Hw. reflexivity.
Qed.

(** C8 (realtime flag string): whatever the 16-char buffer held before, the string
    handed to the [%s] conversion is the provenance character (S, R, M, T for
    Startup, Rack, Command, Macro) followed by E, I, B, L, P, Z in this order, each
    present exactly when its condition holds, with no separators; the line written
    is [|ATCI:] followed by it; Startup, enabled, no sensor, inside gives [SEZ]. *)
Theorem realtime_flag_string (hk : hooks) (st : statics) (flags0 : list ascii)
    (report : report_tracking_flags_t) :
  length flags0 = 16%nat ->
  c_string (realtime_flags st flags0) = spec_flag_string st
  /\ onRealtimeReport hk st flags0 report =
       Stream_write ("|ATCI:" ++ spec_flag_string st)
       :: call_chain (on_realtime_report hk) report
  /\ (source (atci st) = SOURCE_STARTUP -> enabled (atci st) = true ->
      monitor_rack_presence (config st) && last_pin_state (atci st) = false ->
      drawbar_state st = false -> tool_sensor_state st = false ->
      pressure_sensor_state st = false -> inside_keepout_zone st = true ->
      c_string (realtime_flags st flags0) = "SEZ"%string).
Proof.
  intros Hlen.
  assert (E : c_string (realtime_flags st flags0) = spec_flag_string st).
  { do 16 (destruct flags0 as [|? flags0]; [discriminate|]).
    destruct flags0; [|discriminate].
    unfold realtime_flags, spec_flag_string.
    destruct (source (atci st)), (enabled (atci st)),
      (monitor_rack_presence (config st) && last_pin_state (atci st)),
      (drawbar_state st), (tool_sensor_state st), (pressure_sensor_state st),
      (inside_keepout_zone st); reflexivity. }
  split; [exact E|]. split.
  - unfold onRealtimeReport. rewrite E. reflexivity.
  - intros Hs He Hi Hb Hl Hp Hz. rewrite E. unfold spec_flag_string.
    rewrite Hs, He, Hi, Hb, Hl, Hp, Hz. reflexivity.
Qed.

(** C2 (macro override), as the code behaves: after the tool-selection hook the
    macro-running flag is set and enforcement is off; but a sensor poll that sees
    the rack input change re-enables enforcement (source Rack) while the flag is
    still set, because nothing reads [tc_macro_running]; the completion hook clears
    the flag and sets enabled to the rack reading with source Rack. *)
Theorem rack_poll_reenables_during_tool_change (hk : hooks) (st : statics)
    (tool : tool_data_t) (aux7 aux0 aux1 aux2 : bool) (pos : option (list num)) :
  plugin_enabled (config st) = true ->
  monitor_rack_presence (config st) = true ->
  monitor_tc_macro (config st) = true ->
  last_pin_state (atci st) = false ->
  let st1 := fst (keepout_tool_selected hk st tool) in
  let st2 := fst (poll_rack_sensor st1 false aux0 aux1 aux2 pos) in
  let st3 := fst (keepout_tool_changed hk st2 aux7 tool) in
  (tc_macro_running st1 = true /\ is_keepout_active st1 = false) /\
  (tc_macro_running st2 = true /\ is_keepout_active st2 = true /\
   source (atci st2) = SOURCE_RACK) /\
  (tc_macro_running st3 = false /\ enabled (atci st3) = negb aux7 /\
   source (atci st3) = SOURCE_RACK).
Proof.
  intros Hp Hr Hm Hl. cbv zeta.
  unfold keepout_tool_selected. rewrite Hm. cbn [fst].
  set (st1 := set_keepout_state (set_tc_macro_running st true) false SOURCE_MACRO).
  destruct (set_keepout_state_sets (set_tc_macro_running st true) false SOURCE_MACRO)
    as [E1 S1].
  destruct (set_keepout_state_frame (set_tc_macro_running st true) false SOURCE_MACRO)
    as (C1 & T1 & L1).
  fold st1 in E1, S1, C1, T1, L1. cbn in C1, T1, L1.
  split.
  - split; [exact T1|]. unfold is_keepout_active. rewrite E1. apply andb_false_r.
  - unfold poll_rack_sensor. rewrite C1, Hr, L1, Hl. cbn [negb Bool.eqb fst].
    destruct (set_keepout_state_sets (set_last_pin_state st1 true) true SOURCE_RACK)
      as [E2 S2].
    destruct (set_keepout_state_frame (set_last_pin_state st1 true) true SOURCE_RACK)
      as (C2 & T2 & L2).
    cbn in C2, T2.
    split.
    + unfold is_keepout_active. cbn [tc_macro_running config atci].
      rewrite T2, T1, C2, C1, Hp, E2, S2. auto.
    + unfold keepout_tool_changed. cbn [config]. rewrite C2, C1, Hm. cbn [fst].
      match goal with
      | |- context [set_keepout_state ?s ?b ?e] =>
          destruct (set_keepout_state_sets s b e) as [E3 S3];
          destruct (set_keepout_state_frame s b e) as (_ & T3 & _)
      end.
      rewrite T3, E3, S3. cbn. auto.
Qed.

End GenericProperties.

(** ** Binary32 arithmetic through integer values *)

Section Binary32Arithmetic.
Local Open Scope Z_scope.
Unset Implicit Arguments.

(** *** Binary digits *)

Lemma digits2_pos_bounds (m : positive) :
  2 ^ (Zpos (digits2_pos m) - 1) <= Zpos m < 2 ^ Zpos (digits2_pos m).
Proof.
  induction m as [p IH|p IH|]; cbn [digits2_pos].
  - rewrite Pos2Z.inj_succ.
    replace (Z.succ (Zpos (digits2_pos p)) - 1) with (Z.succ (Zpos (digits2_pos p) - 1)) by lia.
    rewrite !Z.pow_succ_r by lia. lia.
  - rewrite Pos2Z.inj_succ.
    replace (Z.succ (Zpos (digits2_pos p)) - 1) with (Z.succ (Zpos (digits2_pos p) - 1)) by lia.
    rewrite !Z.pow_succ_r by lia. lia.
  - cbn. lia.
Qed.

Lemma Zdigits2_bounds (z : Z) :
  0 < z -> 2 ^ (Zdigits2 z - 1) <= z < 2 ^ Zdigits2 z.
Proof.
  destruct z as [|p|p]; try lia. intros _. apply digits2_pos_bounds.
Qed.

Lemma Zdigits2_pos (z : Z) : 0 < z -> 0 < Zdigits2 z.
Proof. destruct z; cbn; lia. Qed.

Lemma Zdigits2_nonneg (z : Z) : 0 <= Zdigits2 z.
Proof. destruct z; cbn; lia. Qed.

Lemma Zdigits2_unique (z k : Z) :
  0 < z -> 2 ^ (k - 1) <= z < 2 ^ k -> Zdigits2 z = k.
Proof.
  intros Hz [Hl Hu].
  destruct (Zdigits2_bounds z Hz) as [Bl Bu].
  assert (Hd := Zdigits2_pos z Hz).
  assert (Hk : 0 < k).
  { destruct (Z_lt_le_dec 0 k); auto.
    assert (2 ^ k <= 2 ^ 0) by (apply Z.pow_le_mono_r; lia || (destruct (Z_lt_le_dec k 0); lia)).
    destruct (Z_lt_le_dec k 0) as [Hn|Hn].
    - rewrite (Z.pow_neg_r 2 k Hn) in Hu. lia.
    - assert (k = 0) by lia. subst. cbn in Hu. lia. }
  destruct (Z_lt_le_dec (Zdigits2 z) k) as [Hlt|Hge].
  - assert (2 ^ Zdigits2 z <= 2 ^ (k - 1)) by (apply Z.pow_le_mono_r; lia). lia.
  - destruct (Z_lt_le_dec k (Zdigits2 z)) as [Hlt'|]; [|lia].
    assert (2 ^ k <= 2 ^ (Zdigits2 z - 1)) by (apply Z.pow_le_mono_r; lia). lia.
Qed.

Lemma Zdigits2_mul_pow2 (z n : Z) :
  0 < z -> 0 <= n -> Zdigits2 (z * 2 ^ n) = Zdigits2 z + n.
Proof.
  intros Hz Hn. destruct (Zdigits2_bounds z Hz) as [Bl Bu].
  assert (Hd := Zdigits2_pos z Hz).
  assert (Hp : 0 < 2 ^ n) by (apply Z.pow_pos_nonneg; lia).
  apply Zdigits2_unique; [nia|].
  replace (Zdigits2 z + n - 1) with ((Zdigits2 z - 1) + n) by lia.
  rewrite !Z.pow_add_r by lia. split; nia.
Qed.

Lemma Zdigits2_div_pow2 (z n : Z) :
  0 < z -> 0 <= n < Zdigits2 z -> Zdigits2 (z / 2 ^ n) = Zdigits2 z - n.
Proof.
  intros Hz Hn. destruct (Zdigits2_bounds z Hz) as [Bl Bu].
  assert (Hp : 0 < 2 ^ n) by (apply Z.pow_pos_nonneg; lia).
  assert (E1 : 2 ^ (Zdigits2 z - 1) = 2 ^ (Zdigits2 z - n - 1) * 2 ^ n).
  { rewrite <- Z.pow_add_r by lia. f_equal. lia. }
  assert (E2 : 2 ^ Zdigits2 z = 2 ^ (Zdigits2 z - n) * 2 ^ n).
  { rewrite <- Z.pow_add_r by lia. f_equal. lia. }
  assert (Hq : 2 ^ (Zdigits2 z - n - 1) <= z / 2 ^ n).
  { apply Z.div_le_lower_bound; lia. }
  assert (Hq' : z / 2 ^ n < 2 ^ (Zdigits2 z - n)).
  { apply Z.div_lt_upper_bound; lia. }
  assert (0 < 2 ^ (Zdigits2 z - n - 1)) by (apply Z.pow_pos_nonneg; lia).
  apply Zdigits2_unique; [lia | split; lia].
Qed.

Lemma div_pow2_zero (z n : Z) :
  0 <= z -> Zdigits2 z <= n -> z / 2 ^ n = 0.
Proof.
  intros Hz Hn. destruct (Z.eq_dec z 0) as [->|Hne].
  - apply Z.div_0_l. apply Z.pow_nonzero; [lia|]. pose proof (Zdigits2_nonneg 0). cbn in *. lia.
  - destruct (Zdigits2_bounds z ltac:(lia)) as [_ Bu].
    assert (2 ^ Zdigits2 z <= 2 ^ n) by (apply Z.pow_le_mono_r; lia).
    apply Z.div_small. lia.
Qed.

(** *** Shifting a mantissa right *)

Lemma fexp32_eq e : fexp 24 128 e = fexp32 e.
Proof. reflexivity. Qed.

Lemma shr_1_m (mrs : shr_record) :
  0 <= shr_m mrs -> shr_m (shr_1 mrs) = shr_m mrs / 2 /\ 0 <= shr_m (shr_1 mrs).
Proof.
  destruct mrs as [m r s]. cbn [shr_m]. intros Hm.
  rewrite <- Z.div2_div.
  destruct m as [|[p|p|]|p]; cbn [shr_1 shr_m Z.div2]; split; try reflexivity; lia.
Qed.

Lemma pow2_xI (p : positive) : 2 ^ Zpos p~1 = 2 * (2 ^ Zpos p * 2 ^ Zpos p).
Proof.
  replace (Zpos p~1) with (1 + (Zpos p + Zpos p)) by lia.
  rewrite !Z.pow_add_r by lia. reflexivity.
Qed.

Lemma pow2_xO (p : positive) : 2 ^ Zpos p~0 = 2 ^ Zpos p * 2 ^ Zpos p.
Proof.
  replace (Zpos p~0) with (Zpos p + Zpos p) by lia.
  rewrite !Z.pow_add_r by lia. reflexivity.
Qed.

Lemma iter_shr_1_m (p : positive) : forall mrs,
  0 <= shr_m mrs ->
  shr_m (iter_pos shr_1 p mrs) = shr_m mrs / 2 ^ Zpos p /\
  0 <= shr_m (iter_pos shr_1 p mrs).
Proof.
  induction p as [p IH|p IH|]; intros mrs Hm; cbn [iter_pos].
  - destruct (shr_1_m mrs Hm) as [E1 P1].
    destruct (IH _ P1) as [E2 P2]. destruct (IH _ P2) as [E3 P3].
    split; [|exact P3]. rewrite E3, E2, E1, pow2_xI.
    assert (0 < 2 ^ Zpos p) by (apply Z.pow_pos_nonneg; lia).
    rewrite !Z.div_div by lia. f_equal; ring.
  - destruct (IH _ Hm) as [E2 P2]. destruct (IH _ P2) as [E3 P3].
    split; [|exact P3]. rewrite E3, E2, pow2_xO.
    assert (0 < 2 ^ Zpos p) by (apply Z.pow_pos_nonneg; lia).
    rewrite !Z.div_div by lia. reflexivity.
  - destruct (shr_1_m mrs Hm) as [E1 P1]. split; [|exact P1].
    rewrite E1. reflexivity.
Qed.

Lemma shr_record_of_loc_m m l : shr_m (shr_record_of_loc m l) = m.
Proof. destruct l as [|[]]; reflexivity. Qed.

Lemma shr_fexp_spec (m e : Z) (l : location) :
  0 <= m ->
  let n := Z.max 0 (fexp32 (Zdigits2 m + e) - e) in
  shr_m (fst (shr_fexp 24 128 m e l)) = m / 2 ^ n /\
  snd (shr_fexp 24 128 m e l) = e + n.
Proof.
  intros Hm n. unfold shr_fexp, shr. rewrite fexp32_eq. fold (fexp32 (Zdigits2 m + e) - e).
  unfold n. destruct (fexp32 (Zdigits2 m + e) - e) as [|p|p] eqn:E; cbn [fst snd].
  - rewrite shr_record_of_loc_m. cbn. rewrite Z.div_1_r. split; lia.
  - destruct (iter_shr_1_m p (shr_record_of_loc m l)) as [E1 _].
    { rewrite shr_record_of_loc_m; exact Hm. }
    rewrite E1, shr_record_of_loc_m.
    replace (Z.max 0 (Z.pos p)) with (Z.pos p) by lia. split; reflexivity.
  - rewrite shr_record_of_loc_m.
    replace (Z.max 0 (Z.neg p)) with 0 by lia. cbn. rewrite Z.div_1_r. split; lia.
Qed.

Lemma round_nearest_even_range m l :
  m <= round_nearest_even m l <= m + 1.
Proof.
  destruct l as [|[]]; cbn; try lia. destruct (Z.even m); lia.
Qed.

Lemma binary_round_aux_spec (sx : bool) (mx ex : Z) (lx : location) :
  0 <= mx ->
  let n1 := Z.max 0 (fexp32 (Zdigits2 mx + ex) - ex) in
  let m' := mx / 2 ^ n1 in
  let e' := ex + n1 in
  exists m1, m' <= m1 <= m' + 1 /\
    let n2 := Z.max 0 (fexp32 (Zdigits2 m1 + e') - e') in
    binary_round_aux 24 128 sx mx ex lx = finish32 sx (m1 / 2 ^ n2) (e' + n2).
Proof.
  intros Hm n1 m' e'.
  unfold binary_round_aux.
  destruct (shr_fexp_spec mx ex lx Hm) as [E1 E2]. fold n1 in E1, E2.
  destruct (shr_fexp 24 128 mx ex lx) as [mrs1 e1]. cbn [fst snd] in E1, E2.
  set (m1 := round_nearest_even (shr_m mrs1) (loc_of_shr_record mrs1)).
  assert (R := round_nearest_even_range (shr_m mrs1) (loc_of_shr_record mrs1)).
  fold m1 in R. rewrite E1 in R. fold m' in R.
  assert (Hm' : 0 <= m').
  { unfold m'. apply Z.div_pos; [lia|]. apply Z.pow_pos_nonneg; lia. }
  exists m1. split; [exact R|]. cbv zeta.
  destruct (shr_fexp_spec m1 e1 loc_Exact ltac:(lia)) as [F1 F2].
  destruct (shr_fexp 24 128 m1 e1 loc_Exact) as [mrs2 e2]. cbn [fst snd] in F1, F2.
  subst e1. fold e' in F1, F2. rewrite F1, F2.
  unfold finish32. reflexivity.
Qed.

(** *** Rounding, as a statement about integer values *)

Lemma valid_finite_iff s m e :
  valid_binary 24 128 (S754_finite s m e) = true <->
  fexp32 (Zpos (digits2_pos m) + e) = e /\ e <= 104.
Proof.
  cbn [valid_binary]. unfold bounded, canonical_mantissa.
  rewrite andb_true_iff, Z.eqb_eq, Z.leb_le. rewrite fexp32_eq. reflexivity.
Qed.

Lemma finish32_cases sx m e :
  0 <= m ->
  (m = 0 /\ finish32 sx m e = S754_zero sx) \/
  (0 < m /\ e <= 104 /\ finish32 sx m e = S754_finite sx (Z.to_pos m) e) \/
  (0 < m /\ 104 < e /\ finish32 sx m e = S754_infinity sx).
Proof.
  intros Hm. destruct m as [|p|p]; [left; auto| |lia].
  right. cbn [finish32]. destruct (Z.leb_spec e 104); [left|right]; repeat split; auto; lia.
Qed.

(** After the first shift the pair [(m', E)] is canonical; rounding up by one
    keeps it canonical after at most one more shift, without changing the value. *)
Lemma canonical_after_round (m' m1 E : Z) :
  0 <= m' -> -149 <= E ->
  (0 < m' -> fexp32 (Zdigits2 m' + E) = E) ->
  (m' = 0 -> E = -149) ->
  m' <= m1 <= m' + 1 ->
  let n2 := Z.max 0 (fexp32 (Zdigits2 m1 + E) - E) in
  let m2 := m1 / 2 ^ n2 in
  m2 * 2 ^ n2 = m1 /\
  n2 <= 1 /\
  (0 < m1 -> 0 < m2 /\ fexp32 (Zdigits2 m2 + (E + n2)) = E + n2).
Proof.
  intros Hm' HE Hcan Hzero Hm1 n2 m2.
  destruct (Z.eq_dec m1 0) as [->|Hne].
  { subst m2. rewrite Z.div_0_l by (apply Z.pow_nonzero; lia).
    split; [lia|]. split; [|lia].
    unfold n2. change (Zdigits2 0) with 0. unfold fexp32. lia. }
  assert (Hpos : 0 < m1) by lia.
  assert (Hd1 := Zdigits2_bounds m1 Hpos).
  assert (Hd1p := Zdigits2_pos m1 Hpos).
  (* the number of digits of m1, relative to E *)
  assert (Hfx : fexp32 (Zdigits2 m1 + E) = E \/
                (fexp32 (Zdigits2 m1 + E) = E + 1 /\ m1 = 2 ^ 24)).
  { destruct (Z.eq_dec m' 0) as [Hz|Hnz].
    - assert (m1 = 1) by lia. subst m1. specialize (Hzero Hz). subst E.
      left. reflexivity.
    - assert (Hp' : 0 < m') by lia. specialize (Hcan Hp').
      assert (Hd' := Zdigits2_bounds m' Hp').
      assert (Hd'p := Zdigits2_pos m' Hp').
      destruct (Z.eq_dec m1 m') as [->|Hup]; [left; exact Hcan|].
      assert (m1 = m' + 1) by lia. subst m1.
      destruct (Z_lt_le_dec (m' + 1) (2 ^ Zdigits2 m')) as [Hlt|Hge].
      + left. rewrite (Zdigits2_unique (m' + 1) (Zdigits2 m')); [exact Hcan|lia|lia].
      + assert (Em : m' + 1 = 2 ^ Zdigits2 m') by lia.
        assert (Ed : Zdigits2 (m' + 1) = Zdigits2 m' + 1).
        { apply Zdigits2_unique; [lia|].
          replace (Zdigits2 m' + 1 - 1) with (Zdigits2 m') by lia.
          rewrite Z.pow_add_r by lia. lia. }
        rewrite Ed. unfold fexp32 in *.
        destruct (Z_lt_le_dec (Zdigits2 m' + E - 24) (-149)).
        * left. lia.
        * right. assert (Zdigits2 m' = 24) by lia. split; [lia|].
          rewrite Em. f_equal. assumption. }
  destruct Hfx as [Hfx | [Hfx E24]].
  - assert (n2 = 0) by (unfold n2; lia).
    assert (m2 = m1) by (unfold m2; rewrite H; cbn; apply Z.div_1_r).
    rewrite H, H0. cbn [Z.pow]. split; [lia|]. split; [lia|]. intros _.
    split; [lia|]. rewrite Z.add_0_r. exact Hfx.
  - assert (n2 = 1) by (unfold n2; lia).
    assert (m2 = 2 ^ 23) by (unfold m2; rewrite H, E24; reflexivity).
    rewrite H, H0, E24. split; [reflexivity|]. split; [lia|]. intros _.
    split; [reflexivity|].
    change (Zdigits2 (2 ^ 23)) with 24.
    rewrite E24 in Hfx. change (Zdigits2 (2 ^ 24)) with 25 in Hfx.
    unfold fexp32 in *. lia.
Qed.

Lemma digits_to_pos (z : Z) : 0 < z -> Zpos (digits2_pos (Z.to_pos z)) = Zdigits2 z.
Proof. destruct z; try lia. reflexivity. Qed.

Lemma pow2_pos (n : Z) : 0 <= n -> 0 < 2 ^ n.
Proof. intros. apply Z.pow_pos_nonneg; lia. Qed.

(** Rounding a positive mantissa whose exponent is not above the canonical one. *)
Lemma binary_round_aux_value (sx : bool) (mx ex : Z) (lx : location) :
  0 < mx -> ex <= fexp32 (Zdigits2 mx + ex) ->
  let E := fexp32 (Zdigits2 mx + ex) in
  let m' := mx / 2 ^ (E - ex) in
  let r := binary_round_aux 24 128 sx mx ex lx in
  (r = S754_infinity sx /\ 128 <= Zdigits2 mx + ex) \/
  (num32 r = true /\ sign_of r = sx /\
   m' * 2 ^ (E + 149) <= Vabs r <= (m' + 1) * 2 ^ (E + 149)).
Proof.
  intros Hmx Hex E m' r.
  assert (HE : -149 <= E) by (unfold E, fexp32; lia).
  destruct (binary_round_aux_spec sx mx ex lx ltac:(lia)) as (m1 & Hm1 & Hr).
  cbv zeta in Hr.
  assert (Hn1 : Z.max 0 (fexp32 (Zdigits2 mx + ex) - ex) = E - ex) by (unfold E; lia).
  rewrite Hn1 in Hm1, Hr.
  replace (ex + (E - ex)) with E in Hr by lia.
  fold m' in Hm1. fold r in Hr.
  assert (Hpow : 0 < 2 ^ (E - ex)) by (apply pow2_pos; lia).
  assert (Hm' : 0 <= m') by (unfold m'; apply Z.div_pos; lia).
  assert (Hcan : 0 < m' -> fexp32 (Zdigits2 m' + E) = E).
  { intros Hp. destruct (Z_lt_le_dec (E - ex) (Zdigits2 mx)) as [Hlt|Hge].
    - unfold m'. rewrite Zdigits2_div_pow2 by lia.
      replace (Zdigits2 mx - (E - ex) + E) with (Zdigits2 mx + ex) by lia. reflexivity.
    - unfold m' in Hp. rewrite div_pow2_zero in Hp by lia. lia. }
  assert (Hzero : m' = 0 -> E = -149).
  { intros Hz. destruct (Z_lt_le_dec (E - ex) (Zdigits2 mx)) as [Hlt|Hge].
    - assert (Hd : Zdigits2 m' = Zdigits2 mx - (E - ex))
        by (unfold m'; apply Zdigits2_div_pow2; lia).
      rewrite Hz in Hd. change (Zdigits2 0) with 0 in Hd. lia.
    - unfold E in *. unfold fexp32 in *. lia. }
  destruct (canonical_after_round m' m1 E Hm' HE Hcan Hzero Hm1) as (Hval & Hn2 & Hcan2).
  set (n2 := Z.max 0 (fexp32 (Zdigits2 m1 + E) - E)) in *.
  set (m2 := m1 / 2 ^ n2) in *.
  assert (Hn2' : 0 <= n2) by (unfold n2; lia).
  assert (Hm2 : 0 <= m2) by (unfold m2; apply Z.div_pos; [lia | apply pow2_pos; lia]).
  assert (Hscale : m2 * 2 ^ (E + n2 + 149) = m1 * 2 ^ (E + 149)).
  { replace (E + n2 + 149) with (n2 + (E + 149)) by lia.
    rewrite Z.pow_add_r by lia. rewrite Z.mul_assoc, Hval. reflexivity. }
  assert (HpE : 0 < 2 ^ (E + 149)) by (apply pow2_pos; lia).
  destruct (finish32_cases sx m2 (E + n2) Hm2) as [(Hz & Hf) | [(Hp & Hle & Hf) | (Hp & Hgt & Hf)]].
  - right. rewrite Hr, Hf. cbn. split; [reflexivity|]. split; [reflexivity|].
    assert (m1 = 0) by (rewrite Hz in Hval; lia). nia.
  - right. rewrite Hr, Hf.
    assert (H1 : 0 < m1) by (assert (0 < 2 ^ n2) by (apply pow2_pos; lia); nia).
    destruct (Hcan2 H1) as (_ & Hc).
    split.
    + unfold num32. cbn [is_fin]. rewrite andb_true_r.
      apply valid_finite_iff. split; [|exact Hle].
      rewrite digits_to_pos by lia. exact Hc.
    + split; [reflexivity|]. cbn [Vabs].
      rewrite Z2Pos.id by lia. rewrite Hscale. nia.
  - left. split; [rewrite Hr, Hf; reflexivity|].
    assert (H1 : 0 < m1) by (assert (0 < 2 ^ n2) by (apply pow2_pos; lia); nia).
    unfold E in *. unfold fexp32 in *. lia.
Qed.

(** *** Addition and subtraction *)

Lemma pos_iter_xO (mx d : positive) : Zpos (Pos.iter xO mx d) = Zpos mx * 2 ^ Zpos d.
Proof.
  induction d as [|d IH] using Pos.peano_ind.
  - cbn. lia.
  - rewrite Pos.iter_succ, Pos2Z.inj_xO, IH, Pos2Z.inj_succ, Z.pow_succ_r by lia. ring.
Qed.

Lemma shl_align_spec (mx : positive) (ex ex' : Z) :
  snd (shl_align mx ex ex') = Z.min ex ex' /\
  Zpos (fst (shl_align mx ex ex')) = Zpos mx * 2 ^ (ex - Z.min ex ex').
Proof.
  unfold shl_align. destruct (ex' - ex) as [|d|d] eqn:E; cbn [fst snd].
  - replace (Z.min ex ex') with ex by lia. rewrite Z.sub_diag. cbn. lia.
  - replace (Z.min ex ex') with ex by lia. rewrite Z.sub_diag. cbn. lia.
  - replace (Z.min ex ex') with ex' by lia. split; [reflexivity|].
    rewrite pos_iter_xO. f_equal. f_equal. lia.
Qed.

Lemma binary_round_value (sx : bool) (mx : positive) (ex : Z) :
  -149 <= ex ->
  let X := Zpos mx * 2 ^ (ex + 149) in
  let r := binary_round 24 128 sx mx ex in
  (r = S754_infinity sx /\ 277 <= Zdigits2 X) \/
  (num32 r = true /\ sign_of r = sx /\ Z.abs (Vabs r - X) <= ulp_of X).
Proof.
  intros Hex X. cbv zeta.
  unfold binary_round. rewrite fexp32_eq.
  change (Zpos (digits2_pos mx)) with (Zdigits2 (Zpos mx)).
  set (E := fexp32 (Zdigits2 (Zpos mx) + ex)) in *.
  destruct (shl_align_spec mx ex E) as [Hez Hmz].
  destruct (shl_align mx ex E) as [mz ez]. cbn [fst snd] in Hez, Hmz.
  assert (HE : -149 <= E) by (unfold E, fexp32; lia).
  assert (Hsh : 0 <= ex - ez) by lia.
  assert (Hdz : Zdigits2 (Zpos mz) + ez = Zdigits2 (Zpos mx) + ex).
  { rewrite Hmz, <- Hez. rewrite Zdigits2_mul_pow2 by lia. lia. }
  assert (Hpre : ez <= fexp32 (Zdigits2 (Zpos mz) + ez)) by (rewrite Hdz; fold E; lia).
  assert (HX : X = Zpos mz * 2 ^ (ez + 149)).
  { unfold X. rewrite Hmz, <- Hez, <- Z.mul_assoc, <- Z.pow_add_r by lia.
    f_equal. f_equal. lia. }
  assert (HdX : Zdigits2 X = Zdigits2 (Zpos mx) + ex + 149).
  { unfold X. rewrite Zdigits2_mul_pow2 by lia. lia. }
  destruct (binary_round_aux_value sx (Zpos mz) ez loc_Exact ltac:(lia) Hpre)
    as [[Hinf Hbig] | (Hnum & Hsign & Hlo & Hhi)].
  - left. split; [exact Hinf|]. lia.
  - right. split; [exact Hnum|]. split; [exact Hsign|].
    rewrite Hdz in Hlo, Hhi. fold E in Hlo, Hhi.
    set (m' := Zpos mz / 2 ^ (E - ez)) in *.
    assert (Hp1 : 0 < 2 ^ (E - ez)) by (apply pow2_pos; lia).
    assert (Hp2 : 0 < 2 ^ (ez + 149)) by (apply pow2_pos; lia).
    assert (Hsplit : 2 ^ (E + 149) = 2 ^ (E - ez) * 2 ^ (ez + 149)).
    { rewrite <- Z.pow_add_r by lia. f_equal. lia. }
    assert (Hdiv := Z.div_mod (Zpos mz) (2 ^ (E - ez)) ltac:(lia)).
    assert (Hmod := Z.mod_pos_bound (Zpos mz) (2 ^ (E - ez)) Hp1).
    fold m' in Hdiv.
    assert (Hulp : ulp_of X = 2 ^ (E + 149)).
    { unfold ulp_of. f_equal. rewrite HdX. unfold E, fexp32. lia. }
    rewrite Hulp, HX, Hsplit in *.
    set (A := 2 ^ (E - ez)) in *. set (B := 2 ^ (ez + 149)) in *.
    set (W := Vabs (binary_round_aux 24 128 sx (Z.pos mz) ez loc_Exact)) in *.
    apply Z.abs_le. split; nia.
Qed.

Lemma valid_exp s m e :
  valid_binary 24 128 (S754_finite s m e) = true ->
  -149 <= e <= 104 /\ Zdigits2 (Zpos m) <= 24.
Proof.
  intros Hv. apply valid_finite_iff in Hv. destruct Hv as [Hc Hb].
  change (Zpos (digits2_pos m)) with (Zdigits2 (Zpos m)) in Hc.
  unfold fexp32 in Hc. lia.
Qed.

Lemma Zdigits2_opp (z : Z) : Zdigits2 (- z) = Zdigits2 z.
Proof. destruct z; reflexivity. Qed.

Lemma ulp_of_opp (z : Z) : ulp_of (- z) = ulp_of z.
Proof. unfold ulp_of. rewrite Zdigits2_opp. reflexivity. Qed.

Lemma binary_normalize_value (z ez : Z) :
  -149 <= ez ->
  let X := z * 2 ^ (ez + 149) in
  let r := binary_normalize 24 128 z ez false in
  (is_inf r = true /\ 277 <= Zdigits2 X) \/
  (num32 r = true /\ Z.abs (V r - X) <= ulp_of X).
Proof.
  intros Hez X r. subst r.
  assert (Hp : 0 < 2 ^ (ez + 149)) by (apply pow2_pos; lia).
  destruct z as [|m|m]; cbn [binary_normalize].
  - right. split; [reflexivity|]. unfold X. cbn. unfold ulp_of. cbn. lia.
  - destruct (binary_round_value false m ez Hez) as [[Hinf Hbig] | (Hnum & Hsign & Hb)].
    + left. rewrite Hinf. split; [reflexivity | exact Hbig].
    + right. split; [exact Hnum|]. unfold V. rewrite Hsign. cbn [cond_Zopp]. exact Hb.
  - destruct (binary_round_value true m ez Hez) as [[Hinf Hbig] | (Hnum & Hsign & Hb)].
    + left. rewrite Hinf. split; [reflexivity|].
      unfold X. replace (Z.neg m * 2 ^ (ez + 149)) with (- (Zpos m * 2 ^ (ez + 149))) by lia.
      rewrite Zdigits2_opp. exact Hbig.
    + right. split; [exact Hnum|]. unfold V. rewrite Hsign. cbn [cond_Zopp].
      unfold X. replace (Z.neg m * 2 ^ (ez + 149)) with (- (Zpos m * 2 ^ (ez + 149))) by lia.
      rewrite ulp_of_opp.
      replace (- Vabs (binary_round 24 128 true m ez) - - (Z.pos m * 2 ^ (ez + 149)))
        with (- (Vabs (binary_round 24 128 true m ez) - Z.pos m * 2 ^ (ez + 149))) by lia.
      rewrite Z.abs_opp. exact Hb.
Qed.

Lemma cond_Zopp_mul (s : bool) (a b : Z) : cond_Zopp s a * b = cond_Zopp s (a * b).
Proof. destruct s; cbn; lia. Qed.

Lemma aligned_value (s : bool) (m : positive) (e ez : Z) :
  -149 <= ez <= e ->
  cond_Zopp s (Zpos (fst (shl_align m e ez))) * 2 ^ (ez + 149)
  = V (S754_finite s m e).
Proof.
  intros He. destruct (shl_align_spec m e ez) as [_ Hm].
  rewrite Hm. replace (Z.min e ez) with ez by lia.
  unfold V. cbn [sign_of Vabs]. rewrite cond_Zopp_mul. f_equal.
  rewrite <- Z.mul_assoc, <- Z.pow_add_r by lia. f_equal. f_equal. lia.
Qed.

Lemma num32_finite s m e :
  num32 (S754_finite s m e) = true -> valid_binary 24 128 (S754_finite s m e) = true.
Proof. unfold num32. rewrite andb_true_iff. tauto. Qed.

Lemma V_opp_finite s m e : V (S754_finite (negb s) m e) = - V (S754_finite s m e).
Proof. unfold V. cbn. destruct s; cbn; lia. Qed.

Lemma V_zero (s : bool) : V (S754_zero s) = 0.
Proof. destruct s; reflexivity. Qed.

Lemma ulp_of_pos (X : Z) : 0 < ulp_of X.
Proof. unfold ulp_of. apply pow2_pos. lia. Qed.

Lemma exact_result (r : spec_float) (D : Z) :
  num32 r = true -> V r = D ->
  (is_inf r = true /\ 277 <= Zdigits2 D) \/
  (num32 r = true /\ Z.abs (V r - D) <= ulp_of D).
Proof.
  intros Hn Hv. right. split; [exact Hn|].
  rewrite Hv, Z.sub_diag. pose proof (ulp_of_pos D). cbn. lia.
Qed.

Theorem SFsub_value (x y : spec_float) :
  num32 x = true -> num32 y = true ->
  let D := V x - V y in
  let r := SFsub 24 128 x y in
  (is_inf r = true /\ 277 <= Zdigits2 D) \/
  (num32 r = true /\ Z.abs (V r - D) <= ulp_of D).
Proof.
  intros Hx Hy D r. subst r.
  destruct x as [sx|sx| |sx mx ex], y as [sy|sy| |sy my ey]; try discriminate.
  - apply exact_result.
    + destruct sx, sy; reflexivity.
    + unfold D. rewrite !V_zero. destruct sx, sy; reflexivity.
  - cbn [SFsub]. apply exact_result.
    + exact Hy.
    + unfold D. rewrite V_zero, V_opp_finite. lia.
  - cbn [SFsub]. apply exact_result; [exact Hx|].
    unfold D. rewrite V_zero. lia.
  - destruct (valid_exp sx mx ex (num32_finite _ _ _ Hx)) as [Hex _].
    destruct (valid_exp sy my ey (num32_finite _ _ _ Hy)) as [Hey _].
    cbn [SFsub].
    set (ez := Z.min ex ey).
    assert (HD : (cond_Zopp sx (Zpos (fst (shl_align mx ex ez))) -
                  cond_Zopp sy (Zpos (fst (shl_align my ey ez)))) * 2 ^ (ez + 149) = D).
    { rewrite Z.mul_sub_distr_r.
      rewrite !aligned_value by (unfold ez; lia). reflexivity. }
    pose proof (binary_normalize_value
      (cond_Zopp sx (Zpos (fst (shl_align mx ex ez))) -
       cond_Zopp sy (Zpos (fst (shl_align my ey ez)))) ez ltac:(unfold ez; lia)) as Hn.
    cbv zeta in Hn. rewrite HD in Hn. exact Hn.
Qed.

Theorem SFadd_value (x y : spec_float) :
  num32 x = true -> num32 y = true ->
  let D := V x + V y in
  let r := SFadd 24 128 x y in
  (is_inf r = true /\ 277 <= Zdigits2 D) \/
  (num32 r = true /\ Z.abs (V r - D) <= ulp_of D).
Proof.
  intros Hx Hy D r. subst r.
  destruct x as [sx|sx| |sx mx ex], y as [sy|sy| |sy my ey]; try discriminate.
  - apply exact_result.
    + destruct sx, sy; reflexivity.
    + unfold D. rewrite !V_zero. destruct sx, sy; reflexivity.
  - cbn [SFadd]. apply exact_result; [exact Hy|].
    unfold D. rewrite V_zero. lia.
  - cbn [SFadd]. apply exact_result; [exact Hx|].
    unfold D. rewrite V_zero. lia.
  - destruct (valid_exp sx mx ex (num32_finite _ _ _ Hx)) as [Hex _].
    destruct (valid_exp sy my ey (num32_finite _ _ _ Hy)) as [Hey _].
    cbn [SFadd].
    set (ez := Z.min ex ey).
    assert (HD : (cond_Zopp sx (Zpos (fst (shl_align mx ex ez))) +
                  cond_Zopp sy (Zpos (fst (shl_align my ey ez)))) * 2 ^ (ez + 149) = D).
    { rewrite Z.mul_add_distr_r.
      rewrite !aligned_value by (unfold ez; lia). reflexivity. }
    pose proof (binary_normalize_value
      (cond_Zopp sx (Zpos (fst (shl_align mx ex ez))) +
       cond_Zopp sy (Zpos (fst (shl_align my ey ez)))) ez ltac:(unfold ez; lia)) as Hn.
    cbv zeta in Hn. rewrite HD in Hn. exact Hn.
Qed.

(** *** Comparison is the order of the values *)

Lemma Vabs_finite_pos s m e : -149 <= e -> 0 < Vabs (S754_finite s m e).
Proof. intros He. cbn [Vabs]. apply Z.mul_pos_pos; [lia | apply pow2_pos; lia]. Qed.

(** Canonical mantissas: a larger exponent means a larger magnitude. *)
Lemma canonical_exp_lt (s1 s2 : bool) (m1 m2 : positive) (e1 e2 : Z) :
  valid_binary 24 128 (S754_finite s1 m1 e1) = true ->
  valid_binary 24 128 (S754_finite s2 m2 e2) = true ->
  e1 < e2 ->
  Zpos m1 * 2 ^ (e1 + 149) < Zpos m2 * 2 ^ (e2 + 149).
Proof.
  intros H1 H2 Hlt.
  destruct (valid_exp _ _ _ H1) as [He1 Hd1].
  apply valid_finite_iff in H2. destruct H2 as [Hc2 Hb2].
  change (Zpos (digits2_pos m2)) with (Zdigits2 (Zpos m2)) in Hc2.
  assert (Hd2 : Zdigits2 (Zpos m2) = 24) by (unfold fexp32 in Hc2; lia).
  destruct (Zdigits2_bounds (Zpos m1) ltac:(lia)) as [_ U1].
  destruct (Zdigits2_bounds (Zpos m2) ltac:(lia)) as [L2 _].
  rewrite Hd2 in L2.
  assert (U1' : Zpos m1 < 2 ^ 24).
  { assert (2 ^ Zdigits2 (Zpos m1) <= 2 ^ 24) by (apply Z.pow_le_mono_r; lia). lia. }
  assert (P1 : 0 < 2 ^ (e1 + 149)) by (apply pow2_pos; lia).
  assert (Hp : 2 * 2 ^ (e1 + 149) <= 2 ^ (e2 + 149)).
  { replace (2 * 2 ^ (e1 + 149)) with (2 ^ (e1 + 150)).
    - apply Z.pow_le_mono_r; lia.
    - replace (e1 + 150) with (Z.succ (e1 + 149)) by lia. rewrite Z.pow_succ_r by lia. lia. }
  change (2 ^ (24 - 1)) with 8388608 in L2. change (2 ^ 24) with 16777216 in U1'.
  nia.
Qed.

Theorem compare_value (x y : spec_float) :
  num32 x = true -> num32 y = true -> SFcompare x y = Some (V x ?= V y).
Proof.
  intros Hx Hy.
  destruct x as [sx|sx| |sx mx ex], y as [sy|sy| |sy my ey]; try discriminate.
  - rewrite !V_zero. reflexivity.
  - destruct (valid_exp _ _ _ (num32_finite _ _ _ Hy)) as [Hey _].
    pose proof (Vabs_finite_pos sy my ey ltac:(lia)) as Hp.
    rewrite V_zero. unfold V. cbn [SFcompare sign_of]. destruct sy; cbn [cond_Zopp].
    + f_equal. symmetry. apply Z.compare_gt_iff. lia.
    + f_equal. symmetry. apply Z.compare_lt_iff. lia.
  - destruct (valid_exp _ _ _ (num32_finite _ _ _ Hx)) as [Hex _].
    pose proof (Vabs_finite_pos sx mx ex ltac:(lia)) as Hp.
    rewrite V_zero. unfold V. cbn [SFcompare sign_of]. destruct sx; cbn [cond_Zopp].
    + f_equal. symmetry. apply Z.compare_lt_iff. lia.
    + f_equal. symmetry. apply Z.compare_gt_iff. lia.
  - pose proof (num32_finite _ _ _ Hx) as Vx. pose proof (num32_finite _ _ _ Hy) as Vy.
    destruct (valid_exp _ _ _ Vx) as [Hex _]. destruct (valid_exp _ _ _ Vy) as [Hey _].
    pose proof (Vabs_finite_pos sx mx ex ltac:(lia)) as Px.
    pose proof (Vabs_finite_pos sy my ey ltac:(lia)) as Py.
    assert (Hmag : match (ex ?= ey) with
                   | Lt => Lt
                   | Gt => Gt
                   | Eq => Pos.compare_cont Eq mx my
                   end = (Vabs (S754_finite sx mx ex) ?= Vabs (S754_finite sy my ey))).
    { destruct (Z.compare_spec ex ey) as [E|L|G].
      - subst ey. cbn [Vabs]. symmetry.
        change (Pos.compare_cont Eq mx my) with (Zpos mx ?= Zpos my).
        assert (0 < 2 ^ (ex + 149)) by (apply pow2_pos; lia).
        destruct (Z.compare_spec (Zpos mx) (Zpos my)) as [E|L|G].
        + rewrite E. apply Z.compare_refl.
        + apply Z.compare_lt_iff. nia.
        + apply Z.compare_gt_iff. nia.
      - symmetry. apply Z.compare_lt_iff. cbn [Vabs].
        apply (canonical_exp_lt sx sy); assumption.
      - symmetry. apply Z.compare_gt_iff. cbn [Vabs].
        apply (canonical_exp_lt sy sx); assumption. }
    unfold V. cbn [SFcompare sign_of].
    destruct sx, sy; cbn [cond_Zopp]; f_equal.
    + rewrite Z.compare_opp.
      rewrite (Z.compare_antisym (Vabs (S754_finite true mx ex))
                 (Vabs (S754_finite true my ey))), <- Hmag.
      destruct (ex ?= ey); reflexivity.
    + symmetry. apply Z.compare_lt_iff. lia.
    + symmetry. apply Z.compare_gt_iff. lia.
    + exact Hmag.
Qed.

Lemma ltb_value (x y : spec_float) :
  num32 x = true -> num32 y = true -> (SFltb x y = true <-> V x < V y).
Proof.
  intros Hx Hy. unfold SFltb. rewrite (compare_value x y Hx Hy).
  destruct (Z.compare_spec (V x) (V y)); split; intros; try lia; try discriminate; auto.
Qed.

Lemma leb_value (x y : spec_float) :
  num32 x = true -> num32 y = true -> (SFleb x y = true <-> V x <= V y).
Proof.
  intros Hx Hy. unfold SFleb. rewrite (compare_value x y Hx Hy).
  destruct (Z.compare_spec (V x) (V y)); split; intros; try lia; try discriminate; auto.
Qed.

(** *** Division: sign of the quotient, and no underflow to zero *)

Lemma finish32_signed s m e : 0 <= m -> signed_as s (finish32 s m e).
Proof.
  intros Hm. destruct (finish32_cases s m e Hm) as [(_ & ->) | [(_ & _ & ->) | (_ & _ & ->)]];
    unfold signed_as; eauto.
Qed.

Lemma finish32_nonzero s m e : 0 < m -> nonzero_as s (finish32 s m e).
Proof.
  intros Hm. destruct (finish32_cases s m e ltac:(lia)) as [(? & _) | [(_ & _ & ->) | (_ & _ & ->)]];
    unfold nonzero_as; eauto. lia.
Qed.

Lemma binary_round_aux_signed (s : bool) (m e : Z) (l : location) :
  0 <= m -> signed_as s (binary_round_aux 24 128 s m e l).
Proof.
  intros Hm. destruct (binary_round_aux_spec s m e l Hm) as (m1 & Hm1 & ->).
  apply finish32_signed. apply Z.div_pos.
  - assert (0 <= m / 2 ^ Z.max 0 (fexp32 (Zdigits2 m + e) - e))
      by (apply Z.div_pos; [lia | apply pow2_pos; lia]). lia.
  - apply pow2_pos. lia.
Qed.

Lemma div_pow2_pos (z n : Z) : 0 < z -> 0 <= n < Zdigits2 z -> 0 < z / 2 ^ n.
Proof.
  intros Hz Hn. pose proof (Zdigits2_div_pow2 z n Hz Hn) as Hd.
  assert (0 <= z / 2 ^ n) by (apply Z.div_pos; [lia | apply pow2_pos; lia]).
  destruct (Z.eq_dec (z / 2 ^ n) 0) as [E|]; [|lia].
  rewrite E in Hd. change (Zdigits2 0) with 0 in Hd. lia.
Qed.

(** Rounding a positive mantissa of magnitude at least [2^-149] does not give zero. *)
Lemma binary_round_aux_nonzero (s : bool) (m e : Z) (l : location) :
  0 < m -> -148 <= Zdigits2 m + e -> nonzero_as s (binary_round_aux 24 128 s m e l).
Proof.
  intros Hm Hmag.
  destruct (binary_round_aux_spec s m e l ltac:(lia)) as (m1 & Hm1 & ->).
  pose proof (Zdigits2_pos m Hm) as Hd.
  set (n1 := Z.max 0 (fexp32 (Zdigits2 m + e) - e)) in *.
  assert (Hn1 : 0 <= n1 < Zdigits2 m) by (unfold n1, fexp32; lia).
  pose proof (div_pow2_pos m n1 Hm Hn1) as Hq.
  assert (H1 : 0 < m1) by lia.
  pose proof (Zdigits2_pos m1 H1) as Hd1.
  set (n2 := Z.max 0 (fexp32 (Zdigits2 m1 + (e + n1)) - (e + n1))).
  assert (Hn2 : 0 <= n2 < Zdigits2 m1) by (unfold n2, n1, fexp32; lia).
  apply finish32_nonzero. apply div_pow2_pos; assumption.
Qed.

Lemma div_core_spec (mx my : positive) (ex ey : Z) :
  let delta := Zdigits2 (Zpos mx) + ex - (Zdigits2 (Zpos my) + ey) in
  let e' := Z.min (fexp32 delta) (ex - ey) in
  exists l,
    SFdiv_core_binary 24 128 (Zpos mx) ex (Zpos my) ey
    = (Zpos mx * 2 ^ (ex - ey - e') / Zpos my, e', l).
Proof.
  intros delta e'. unfold SFdiv_core_binary. rewrite fexp32_eq.
  fold delta. fold e'.
  assert (Hs : 0 <= ex - ey - e') by (unfold e'; lia).
  assert (Hm : match ex - ey - e' with
               | Z0 => Zpos mx
               | Zpos _ => Z.shiftl (Zpos mx) (ex - ey - e')
               | Zneg _ => 0
               end = Zpos mx * 2 ^ (ex - ey - e')).
  { destruct (ex - ey - e') as [|p|p] eqn:E; [cbn; lia | | lia].
    rewrite Z.shiftl_mul_pow2 by lia. reflexivity. }
  rewrite Hm.
  pose proof (Z.div_eucl_eq (Zpos mx * 2 ^ (ex - ey - e')) (Zpos my) ltac:(lia)) as _.
  unfold Z.div.
  destruct (Z.div_eucl (Zpos mx * 2 ^ (ex - ey - e')) (Zpos my)) as [q r].
  cbn [fst]. eexists. reflexivity.
Qed.

Lemma SFdiv_finite_signed (sx sy : bool) (mx my : positive) (ex ey : Z) :
  signed_as (xorb sx sy)
    (SFdiv 24 128 (S754_finite sx mx ex) (S754_finite sy my ey)).
Proof.
  cbn [SFdiv]. destruct (div_core_spec mx my ex ey) as (l & ->).
  apply binary_round_aux_signed.
  apply Z.div_pos; [|lia].
  apply Z.mul_nonneg_nonneg; [lia|]. apply Z.pow_nonneg. lia.
Qed.

Lemma SFdiv_finite_nonzero (sx sy : bool) (mx my : positive) (ex ey : Z) :
  -148 <= Zdigits2 (Zpos mx) + ex - (Zdigits2 (Zpos my) + ey) ->
  nonzero_as (xorb sx sy)
    (SFdiv 24 128 (S754_finite sx mx ex) (S754_finite sy my ey)).
Proof.
  intros Hdelta. cbn [SFdiv]. destruct (div_core_spec mx my ex ey) as (l & ->).
  set (delta := Zdigits2 (Zpos mx) + ex - (Zdigits2 (Zpos my) + ey)) in *.
  set (e' := Z.min (fexp32 delta) (ex - ey)).
  set (s := ex - ey - e').
  assert (Hs : 0 <= s) by (unfold s, e'; lia).
  set (d1 := Zdigits2 (Zpos mx)) in *. set (d2 := Zdigits2 (Zpos my)) in *.
  assert (Hd1 : 0 < d1) by (apply Zdigits2_pos; lia).
  assert (Hd2 : 0 < d2) by (apply Zdigits2_pos; lia).
  set (k := d1 - 1 + s - d2).
  assert (Hk : 0 <= k) by (unfold k, s, e', fexp32, delta in *; lia).
  destruct (Zdigits2_bounds (Zpos mx) ltac:(lia)) as [L1 _]. fold d1 in L1.
  destruct (Zdigits2_bounds (Zpos my) ltac:(lia)) as [_ U2]. fold d2 in U2.
  assert (Hq : 2 ^ k <= Zpos mx * 2 ^ s / Zpos my).
  { apply Z.div_le_lower_bound; [lia|].
    assert (E : 2 ^ (d1 - 1) * 2 ^ s = 2 ^ d2 * 2 ^ k).
    { rewrite <- !Z.pow_add_r by lia. f_equal. unfold k. lia. }
    assert (0 < 2 ^ s) by (apply pow2_pos; lia).
    assert (0 < 2 ^ k) by (apply pow2_pos; lia).
    nia. }
  assert (Pk : 0 < 2 ^ k) by (apply pow2_pos; lia).
  set (q := Zpos mx * 2 ^ s / Zpos my) in *.
  assert (Hdq : k + 1 <= Zdigits2 q).
  { destruct (Zdigits2_bounds q ltac:(lia)) as [_ Uq].
    destruct (Z_lt_le_dec (Zdigits2 q) (k + 1)) as [Hlt|]; [|lia].
    assert (2 ^ Zdigits2 q <= 2 ^ k)
      by (apply Z.pow_le_mono_r; [lia | pose proof (Zdigits2_nonneg q); lia]).
    lia. }
  apply binary_round_aux_nonzero; [lia|].
  unfold k, s, delta in *. lia.
Qed.

(** *** Results within a range *)

Lemma Zdigits2_le (D k : Z) : 0 <= k -> Z.abs D < 2 ^ k -> Zdigits2 D <= k.
Proof.
  intros Hk Hd.
  assert (Hdig : Zdigits2 D = Zdigits2 (Z.abs D)) by (destruct D; reflexivity).
  rewrite Hdig. destruct (Z.eq_dec (Z.abs D) 0) as [->|Hne]; [cbn; lia|].
  destruct (Zdigits2_bounds (Z.abs D) ltac:(lia)) as [L _].
  destruct (Z_lt_le_dec k (Zdigits2 (Z.abs D))) as [Hlt|]; [|lia].
  assert (2 ^ k <= 2 ^ (Zdigits2 (Z.abs D) - 1)) by (apply Z.pow_le_mono_r; lia).
  lia.
Qed.

Lemma ulp_of_le (D k : Z) : 24 <= k -> Z.abs D < 2 ^ k -> ulp_of D <= 2 ^ (k - 24).
Proof.
  intros Hk Hd. unfold ulp_of. apply Z.pow_le_mono_r; [lia|].
  pose proof (Zdigits2_le D k ltac:(lia) Hd). lia.
Qed.

(** Subtraction and addition of numbers whose exact result is below [2^k]
    (in units of [2^-149]) give a number within [2^(k-24)] of it. *)
Lemma SFsub_bounds (x y : spec_float) (k : Z) :
  num32 x = true -> num32 y = true -> 24 <= k <= 276 ->
  Z.abs (V x - V y) < 2 ^ k ->
  num32 (SFsub 24 128 x y) = true /\
  Z.abs (V (SFsub 24 128 x y) - (V x - V y)) <= 2 ^ (k - 24).
Proof.
  intros Hx Hy Hk Hd.
  destruct (SFsub_value x y Hx Hy) as [[_ Hbig] | [Hn Hb]].
  - pose proof (Zdigits2_le _ k ltac:(lia) Hd). lia.
  - split; [exact Hn|]. pose proof (ulp_of_le _ k ltac:(lia) Hd). lia.
Qed.

Lemma SFadd_bounds (x y : spec_float) (k : Z) :
  num32 x = true -> num32 y = true -> 24 <= k <= 276 ->
  Z.abs (V x + V y) < 2 ^ k ->
  num32 (SFadd 24 128 x y) = true /\
  Z.abs (V (SFadd 24 128 x y) - (V x + V y)) <= 2 ^ (k - 24).
Proof.
  intros Hx Hy Hk Hd.
  destruct (SFadd_value x y Hx Hy) as [[_ Hbig] | [Hn Hb]].
  - pose proof (Zdigits2_le _ k ltac:(lia) Hd). lia.
  - split; [exact Hn|]. pose proof (ulp_of_le _ k ltac:(lia) Hd). lia.
Qed.

Lemma num32_opp (x : spec_float) : num32 x = true -> num32 (SFopp x) = true.
Proof. destruct x; cbn; auto. Qed.

Lemma V_pos_shape (x : spec_float) : 0 < V x -> exists m e, x = S754_finite false m e.
Proof.
  destruct x as [s|s| |s m e].
  - rewrite V_zero. lia.
  - unfold V. destruct s; cbn; lia.
  - unfold V. cbn. lia.
  - unfold V. cbn [sign_of Vabs].
    assert (0 <= Zpos m * 2 ^ (e + 149))
      by (apply Z.mul_nonneg_nonneg; [lia | apply Z.pow_nonneg; lia]).
    destruct s; cbn [cond_Zopp]; [lia | eauto].
Qed.

(** A number that compares within [-L, L] is a finite number. *)
Lemma in_range_num32 (x lo hi : spec_float) :
  valid_binary 24 128 x = true -> SFleb lo x = true -> SFleb x hi = true ->
  is_fin lo = true -> is_fin hi = true -> num32 x = true.
Proof.
  intros Hv Hlo Hhi Flo Fhi. unfold num32. rewrite Hv. cbn [andb].
  destruct x as [s|s| |s m e]; auto; exfalso.
  destruct hi as [?|?| |? ? ?], lo as [?|?| |? ? ?], s; discriminate.
Qed.

(** A quotient of a number of magnitude at least [2^-2] by a positive number is
    positive and not zero; by a negative one it is negative or zero. *)
Lemma SFdiv_pos (q p : spec_float) :
  num32 q = true -> num32 p = true -> 2 ^ 147 <= V q -> 0 < V p ->
  nonzero_as false (SFdiv 24 128 q p).
Proof.
  intros Hq Hp Vq Vp.
  assert (Pq : 0 < V q) by (assert (0 < 2 ^ 147) by (apply pow2_pos; lia); lia).
  destruct (V_pos_shape q Pq) as (mq & eq & ->).
  destruct (V_pos_shape p Vp) as (mp & ep & ->).
  change false with (xorb false false). apply SFdiv_finite_nonzero.
  destruct (valid_exp _ _ _ (num32_finite _ _ _ Hq)) as [Heq _].
  destruct (valid_exp _ _ _ (num32_finite _ _ _ Hp)) as [Hep Hdp].
  unfold V in Vq. cbn [sign_of cond_Zopp Vabs] in Vq.
  destruct (Zdigits2_bounds (Zpos mq) ltac:(lia)) as [_ Uq].
  pose proof (Zdigits2_pos (Zpos mq) ltac:(lia)) as Dq.
  assert (Hmag : 147 < Zdigits2 (Zpos mq) + eq + 149).
  { destruct (Z_lt_le_dec 147 (Zdigits2 (Zpos mq) + eq + 149)) as [|Hle]; [assumption|].
    assert (P : 0 < 2 ^ (eq + 149)) by (apply pow2_pos; lia).
    assert (2 ^ Zdigits2 (Zpos mq) * 2 ^ (eq + 149) <= 2 ^ 147).
    { rewrite <- Z.pow_add_r by lia. apply Z.pow_le_mono_r; lia. }
    nia. }
  lia.
Qed.

Lemma SFdiv_neg (q p : spec_float) :
  num32 q = true -> num32 p = true -> 0 < V q -> V p < 0 ->
  signed_as true (SFdiv 24 128 q p).
Proof.
  intros Hq Hp Vq Vp.
  destruct (V_pos_shape q Vq) as (mq & eq & ->).
  destruct p as [s|s| |s m e]; try discriminate.
  - rewrite V_zero in Vp. lia.
  - destruct s.
    + change true with (xorb false true). apply SFdiv_finite_signed.
    + unfold V in Vp. cbn [sign_of cond_Zopp Vabs] in Vp.
      assert (0 <= Zpos m * 2 ^ (e + 149)) by (apply Z.mul_nonneg_nonneg; [lia | apply Z.pow_nonneg; lia]).
      lia.
Qed.

(** The round bit after a shift is the last bit shifted out. *)
(** *** Round to nearest at the top of the range *)

Lemma shr_1_r (mrs : shr_record) :
  0 <= shr_m mrs -> shr_r (shr_1 mrs) = Z.odd (shr_m mrs).
Proof.
  destruct mrs as [m r s]. cbn [shr_m]. intros Hm.
  destruct m as [|[p|p|]|p]; try reflexivity; lia.
Qed.

Lemma iter_shr_1_r (p : positive) : forall mrs,
  0 <= shr_m mrs ->
  shr_r (iter_pos shr_1 p mrs) = Z.odd (shr_m mrs / 2 ^ (Zpos p - 1)).
Proof.
  induction p as [p IH|p IH|]; intros mrs Hm; cbn [iter_pos].
  - destruct (shr_1_m mrs Hm) as [E1 P1].
    destruct (iter_shr_1_m p _ P1) as [E2 P2].
    rewrite (IH _ P2), E2, E1.
    assert (0 < 2 ^ Zpos p) by (apply pow2_pos; lia).
    assert (0 < 2 ^ (Zpos p - 1)) by (apply pow2_pos; lia).
    rewrite !Z.div_div by lia. f_equal. f_equal.
    replace (Zpos p~1 - 1) with (1 + Zpos p + (Zpos p - 1)) by lia.
    rewrite !Z.pow_add_r by lia. change (2 ^ 1) with 2. ring.
  - destruct (iter_shr_1_m p _ Hm) as [E2 P2].
    rewrite (IH _ P2), E2.
    assert (0 < 2 ^ Zpos p) by (apply pow2_pos; lia).
    assert (0 < 2 ^ (Zpos p - 1)) by (apply pow2_pos; lia).
    rewrite !Z.div_div by lia. f_equal. f_equal.
    replace (Zpos p~0 - 1) with (Zpos p + (Zpos p - 1)) by lia.
    rewrite !Z.pow_add_r by lia. ring.
  - rewrite shr_1_r by exact Hm. cbn. rewrite Z.div_1_r. reflexivity.
Qed.

Lemma below_half_even (m n : Z) :
  0 <= m -> 0 < n -> 2 * (m mod 2 ^ n) < 2 ^ n -> Z.odd (m / 2 ^ (n - 1)) = false.
Proof.
  intros Hm Hn Hlt.
  assert (Hh : 0 < 2 ^ (n - 1)) by (apply pow2_pos; lia).
  assert (E2 : 2 ^ n = 2 * 2 ^ (n - 1)).
  { replace n with (1 + (n - 1)) at 1 by lia. rewrite Z.pow_add_r by lia. reflexivity. }
  assert (Hdiv := Z.div_mod m (2 ^ n) ltac:(lia)).
  assert (Hmod := Z.mod_pos_bound m (2 ^ n) ltac:(lia)).
  set (a := m / 2 ^ n) in *. set (r := m mod 2 ^ n) in *.
  assert (Hq : m / 2 ^ (n - 1) = 2 * a).
  { symmetry. apply (Z.div_unique_pos m (2 ^ (n - 1)) (2 * a) r); [lia|].
    rewrite Hdiv at 1. rewrite E2. ring. }
  rewrite Hq. rewrite Z.odd_mul. reflexivity.
Qed.

(** Shifting an exact mantissa and rounding: below the half-way point the
    result is the truncated mantissa. *)
Lemma shr_fexp_round_down (m e : Z) :
  0 <= m ->
  let n := Z.max 0 (fexp32 (Zdigits2 m + e) - e) in
  2 * (m mod 2 ^ n) < 2 ^ n ->
  let mrs := fst (shr_fexp 24 128 m e loc_Exact) in
  round_nearest_even (shr_m mrs) (loc_of_shr_record mrs) = m / 2 ^ n.
Proof.
  intros Hm n Hlt. cbv zeta.
  unfold shr_fexp, shr. rewrite fexp32_eq. fold (fexp32 (Zdigits2 m + e) - e).
  unfold n in *. clear n.
  destruct (fexp32 (Zdigits2 m + e) - e) as [|p|p] eqn:E; cbn [fst shr_record_of_loc].
  - cbn. rewrite Z.div_1_r. reflexivity.
  - replace (Z.max 0 (Zpos p)) with (Zpos p) in * by lia.
    destruct (iter_shr_1_m p (Build_shr_record m false false) Hm) as [E1 _].
    pose proof (iter_shr_1_r p (Build_shr_record m false false) Hm) as E2.
    cbn [shr_m] in E1, E2.
    rewrite (below_half_even m (Zpos p) Hm ltac:(lia) Hlt) in E2.
    destruct (iter_pos shr_1 p (Build_shr_record m false false)) as [m' r s].
    cbn [shr_m shr_r] in *. subst r m'.
    destruct s; reflexivity.
  - cbn. rewrite Z.div_1_r. reflexivity.
Qed.

(** [binary_round_aux] on an exact input, when the first rounding goes down. *)
Lemma binary_round_aux_exact (sx : bool) (mx ex : Z) :
  0 <= mx ->
  let n1 := Z.max 0 (fexp32 (Zdigits2 mx + ex) - ex) in
  let m' := mx / 2 ^ n1 in
  let e' := ex + n1 in
  exists m1, m' <= m1 <= m' + 1 /\
    (2 * (mx mod 2 ^ n1) < 2 ^ n1 -> m1 = m') /\
    let n2 := Z.max 0 (fexp32 (Zdigits2 m1 + e') - e') in
    binary_round_aux 24 128 sx mx ex loc_Exact = finish32 sx (m1 / 2 ^ n2) (e' + n2).
Proof.
  intros Hm n1 m' e'.
  unfold binary_round_aux.
  destruct (shr_fexp_spec mx ex loc_Exact Hm) as [E1 E2]. fold n1 in E1, E2.
  pose proof (shr_fexp_round_down mx ex Hm) as Hdown. cbv zeta in Hdown. fold n1 in Hdown.
  destruct (shr_fexp 24 128 mx ex loc_Exact) as [mrs1 e1]. cbn [fst snd] in E1, E2, Hdown.
  set (m1 := round_nearest_even (shr_m mrs1) (loc_of_shr_record mrs1)) in *.
  assert (R := round_nearest_even_range (shr_m mrs1) (loc_of_shr_record mrs1)).
  fold m1 in R. rewrite E1 in R. fold m' in R.
  assert (Hm' : 0 <= m').
  { unfold m'. apply Z.div_pos; [lia|]. apply Z.pow_pos_nonneg; lia. }
  exists m1. split; [exact R|]. split; [exact Hdown|]. cbv zeta.
  destruct (shr_fexp_spec m1 e1 loc_Exact ltac:(lia)) as [F1 F2].
  destruct (shr_fexp 24 128 m1 e1 loc_Exact) as [mrs2 e2]. cbn [fst snd] in F1, F2.
  subst e1. fold e' in F1, F2. rewrite F1, F2.
  unfold finish32. reflexivity.
Qed.

(** Just below the overflow threshold the result is still a number. *)
Lemma binary_round_aux_top (sx : bool) (mx ex : Z) :
  0 < mx -> ex <= 104 -> Zdigits2 mx + ex = 128 ->
  2 * mx < (2 ^ 25 - 1) * 2 ^ (104 - ex) ->
  num32 (binary_round_aux 24 128 sx mx ex loc_Exact) = true.
Proof.
  intros Hmx Hex Hd Hlt.
  destruct (binary_round_aux_exact sx mx ex ltac:(lia)) as (m1 & Hm1 & Hdown & Hr).
  cbv zeta in Hr, Hdown, Hm1.
  rewrite Hd in *. change (fexp32 128) with 104 in *.
  replace (Z.max 0 (104 - ex)) with (104 - ex) in * by lia.
  replace (ex + (104 - ex)) with 104 in * by lia.
  assert (Hp : 0 < 2 ^ (104 - ex)) by (apply pow2_pos; lia).
  assert (Hdiv := Z.div_mod mx (2 ^ (104 - ex)) ltac:(lia)).
  assert (Hmod := Z.mod_pos_bound mx (2 ^ (104 - ex)) Hp).
  set (P := 2 ^ (104 - ex)) in *.
  set (m' := mx / P) in *. set (rem := mx mod P) in *.
  assert (Hdm : Zdigits2 m' = 24).
  { unfold m', P. rewrite Zdigits2_div_pow2 by lia. lia. }
  assert (Hm0 : 0 < m').
  { destruct (Z.eq_dec m' 0) as [E0|]; [rewrite E0 in Hdm; discriminate|].
    assert (0 <= m') by (unfold m'; apply Z.div_pos; lia). lia. }
  assert (Hb := Zdigits2_bounds m' Hm0). rewrite Hdm in Hb.
  change (2 ^ (24 - 1)) with 8388608 in Hb. change (2 ^ 24) with 16777216 in Hb.
  change (2 ^ 25 - 1) with 33554431 in Hlt.
  assert (Hm1' : 8388608 <= m1 < 16777216).
  { destruct (Z.eq_dec m' 16777215) as [Etop|]; [|lia].
    rewrite Hdown; [lia|]. rewrite Etop in Hdiv. lia. }
  assert (Hd1 : Zdigits2 m1 = 24).
  { apply Zdigits2_unique; [lia|].
    change (2 ^ (24 - 1)) with 8388608. change (2 ^ 24) with 16777216. lia. }
  rewrite Hd1 in Hr. change (fexp32 (24 + 104)) with 104 in Hr.
  change (Z.max 0 (104 - 104)) with 0 in Hr. change (2 ^ 0) with 1 in Hr.
  rewrite Z.div_1_r, Z.add_0_r in Hr. rewrite Hr.
  destruct m1 as [|p|p]; try lia. cbn [finish32]. change (104 <=? 104) with true. cbv iota.
  unfold num32. cbn [is_fin]. rewrite andb_true_r.
  apply valid_finite_iff. split; [|lia].
  change (Zpos (digits2_pos p)) with (Zdigits2 (Zpos p)). rewrite Hd1. reflexivity.
Qed.

Lemma binary_round_finite (sx : bool) (mx : positive) (ex : Z) :
  -149 <= ex ->
  Zpos mx * 2 ^ (ex + 149) < overflow_threshold ->
  num32 (binary_round 24 128 sx mx ex) = true.
Proof.
  intros Hex Hlt.
  destruct (binary_round_value sx mx ex Hex) as [[Hinf Hbig] | (Hnum & _)]; [|exact Hnum].
  cbv zeta in Hbig.
  set (X := Zpos mx * 2 ^ (ex + 149)) in *.
  assert (HX0 : 0 < X) by (unfold X; apply Z.mul_pos_pos; [lia | apply pow2_pos; lia]).
  assert (HdX' : Zdigits2 X = 277).
  { assert (Hle : Zdigits2 X <= 277).
    { apply Zdigits2_le; [lia|]. rewrite Z.abs_eq by lia.
      assert (overflow_threshold < 2 ^ 277) by reflexivity. lia. }
    lia. }
  clear Hinf Hbig.
  unfold binary_round. rewrite fexp32_eq.
  change (Zpos (digits2_pos mx)) with (Zdigits2 (Zpos mx)).
  assert (HdX : Zdigits2 X = Zdigits2 (Zpos mx) + ex + 149).
  { unfold X. rewrite Zdigits2_mul_pow2 by lia. lia. }
  assert (Hdm : Zdigits2 (Zpos mx) + ex = 128) by lia.
  rewrite Hdm. change (fexp32 128) with 104.
  destruct (shl_align_spec mx ex 104) as [Hez Hmz].
  destruct (shl_align mx ex 104) as [mz ez]. cbn [fst snd] in Hez, Hmz.
  assert (Hdz : Zdigits2 (Zpos mz) + ez = 128).
  { rewrite Hmz, <- Hez. rewrite Zdigits2_mul_pow2 by lia. lia. }
  apply binary_round_aux_top; [lia|lia|exact Hdz|].
  assert (HXz : X = Zpos mz * 2 ^ (ez + 149)).
  { unfold X. rewrite Hmz, <- Hez, <- Z.mul_assoc, <- Z.pow_add_r by lia.
    f_equal. f_equal. lia. }
  assert (Hsplit : 2 * overflow_threshold = (2 ^ 25 - 1) * 2 ^ (104 - ez) * 2 ^ (ez + 149)).
  { unfold overflow_threshold. rewrite <- Z.mul_assoc, <- Z.pow_add_r by lia.
    replace (104 - ez + (ez + 149)) with 253 by lia. reflexivity. }
  assert (Hp : 0 < 2 ^ (ez + 149)) by (apply pow2_pos; lia).
  rewrite HXz in Hlt. nia.
Qed.

Lemma binary_normalize_finite (z ez : Z) :
  -149 <= ez ->
  Z.abs (z * 2 ^ (ez + 149)) < overflow_threshold ->
  num32 (binary_normalize 24 128 z ez false) = true.
Proof.
  intros Hez Hlt.
  assert (Hp : 0 < 2 ^ (ez + 149)) by (apply pow2_pos; lia).
  destruct z as [|m|m]; cbn [binary_normalize].
  - reflexivity.
  - apply binary_round_finite; [exact Hez|]. rewrite Z.abs_eq in Hlt by lia. exact Hlt.
  - apply binary_round_finite; [exact Hez|].
    replace (Z.neg m * 2 ^ (ez + 149)) with (- (Zpos m * 2 ^ (ez + 149))) in Hlt by lia.
    rewrite Z.abs_opp, Z.abs_eq in Hlt by lia. exact Hlt.
Qed.

(** A difference below the threshold is a number. *)
Theorem SFsub_finite (x y : spec_float) :
  num32 x = true -> num32 y = true ->
  Z.abs (V x - V y) < overflow_threshold ->
  num32 (SFsub 24 128 x y) = true.
Proof.
  intros Hx Hy Hlt.
  destruct x as [sx|sx| |sx mx ex], y as [sy|sy| |sy my ey]; try discriminate.
  - destruct sx, sy; reflexivity.
  - exact Hy.
  - exact Hx.
  - destruct (valid_exp sx mx ex (num32_finite _ _ _ Hx)) as [Hex _].
    destruct (valid_exp sy my ey (num32_finite _ _ _ Hy)) as [Hey _].
    cbn [SFsub].
    set (ez := Z.min ex ey).
    apply binary_normalize_finite; [unfold ez; lia|].
    rewrite Z.mul_sub_distr_r.
    rewrite !aligned_value by (unfold ez; lia). exact Hlt.
Qed.

(** No binary32 number exceeds [(2^24 - 1) * 2^104]. *)
Lemma V_bound (x : spec_float) :
  num32 x = true -> Z.abs (V x) <= (2 ^ 24 - 1) * 2 ^ 253.
Proof.
  intros Hx. destruct x as [s|s| |s m e]; try discriminate.
  - rewrite V_zero. cbn. lia.
  - destruct (valid_exp s m e (num32_finite _ _ _ Hx)) as [He Hd].
    assert (Hm : Zpos m < 2 ^ 24).
    { destruct (Zdigits2_bounds (Zpos m) ltac:(lia)) as [_ Hu].
      apply Z.lt_le_trans with (1 := Hu). apply Z.pow_le_mono_r; lia. }
    assert (Hp : 2 ^ (e + 149) <= 2 ^ 253) by (apply Z.pow_le_mono_r; lia).
    assert (Hp0 : 0 < 2 ^ (e + 149)) by (apply pow2_pos; lia).
    unfold V. cbn [sign_of Vabs].
    assert (Zpos m * 2 ^ (e + 149) <= (2 ^ 24 - 1) * 2 ^ 253).
    { apply Z.mul_le_mono_nonneg; lia. }
    destruct s; cbn [cond_Zopp]; lia.
Qed.

Set Implicit Arguments.

(** *** The four edges of a move that starts deep inside *)

Lemma V_opp (x : spec_float) : V (SFopp x) = - V x.
Proof.
  destruct x as [[]|[]| |[] m e]; unfold V;
    cbn [SFopp sign_of Vabs negb cond_Zopp]; lia.
Qed.

Lemma within_spec (L x : spec_float) :
  num32 L = true -> within L x = true ->
  num32 x = true /\ - V L <= V x <= V L.
Proof.
  intros HL Hw. unfold within in Hw.
  apply andb_true_iff in Hw. destruct Hw as [Hw Hhi].
  apply andb_true_iff in Hw. destruct Hw as [Hv Hlo].
  assert (HL' : num32 (SFopp L) = true) by (apply num32_opp; exact HL).
  assert (Hx : num32 x = true).
  { apply (in_range_num32 x (SFopp L) L); auto.
    - unfold num32 in HL'. apply andb_true_iff in HL'. tauto.
    - unfold num32 in HL. apply andb_true_iff in HL. tauto. }
  split; [exact Hx|].
  apply (leb_value _ _ HL' Hx) in Hlo. apply (leb_value _ _ Hx HL) in Hhi.
  rewrite V_opp in Hlo. lia.
Qed.

Lemma between_num32 (x lo hi : spec_float) :
  valid_binary 24 128 x = true -> SFltb lo x = true -> SFltb x hi = true ->
  num32 x = true.
Proof.
  intros Hv Hlo Hhi. unfold num32. rewrite Hv. cbn [andb].
  destruct x as [s|s| |s m e]; auto; exfalso.
  destruct hi as [[]|[]| |[] ? ?], lo as [[]|[]| |[] ? ?], s;
    cbn in Hlo, Hhi; discriminate.
Qed.

Lemma V_half32 : V half32 = 2 ^ 148.
Proof. reflexivity. Qed.
Lemma V_settings_limit : V settings_limit = 10000 * 2 ^ 149.
Proof. reflexivity. Qed.

Lemma not_infinite_cases (x : spec_float) :
  not_infinite x = true -> num32 x = true \/ x = S754_nan.
Proof.
  unfold not_infinite, num32. destruct x as [s|s| |s m e]; cbn [is_inf is_fin negb];
    rewrite ?andb_true_r, ?andb_false_r; auto; discriminate.
Qed.

Lemma SFsub_nan_l (c : spec_float) : SFsub 24 128 S754_nan c = S754_nan.
Proof. destruct c; reflexivity. Qed.

Lemma axis_edges (lo hi c t : spec_float) :
  within settings_limit lo = true -> within settings_limit hi = true ->
  valid_binary 24 128 c = true -> not_infinite t = true ->
  SFltb (SFadd 24 128 lo half32) c = true ->
  SFltb c (SFsub 24 128 hi half32) = true ->
  good_edge (SFopp (SFsub 24 128 t c), SFsub 24 128 c lo) /\
  good_edge (SFsub 24 128 t c, SFsub 24 128 hi c).
Proof.
  intros Wlo Whi Vc Wt Hlo Hhi.
  destruct (within_spec settings_limit lo eq_refl Wlo) as [Nlo Blo].
  destruct (within_spec settings_limit hi eq_refl Whi) as [Nhi Bhi].
  rewrite V_settings_limit in Blo, Bhi.
  assert (Nh : num32 half32 = true) by reflexivity.
  pose proof V_half32 as Vh.
  (* the two thresholds *)
  destruct (SFadd_bounds lo half32 163 Nlo Nh ltac:(lia)) as [Na Ea].
  { rewrite Vh. apply Z.abs_lt. 
    change (2 ^ 163) with (16384 * 2 ^ 149). change (2 ^ 148) with (2 ^ 149 / 2).
    assert (0 < 2 ^ 149) by (apply pow2_pos; lia).
    assert (2 ^ 149 / 2 * 2 = 2 ^ 149) by reflexivity. lia. }
  destruct (SFsub_bounds hi half32 163 Nhi Nh ltac:(lia)) as [Ns Es].
  { rewrite Vh. apply Z.abs_lt.
    change (2 ^ 163) with (16384 * 2 ^ 149). change (2 ^ 148) with (2 ^ 149 / 2).
    assert (0 < 2 ^ 149) by (apply pow2_pos; lia).
    assert (2 ^ 149 / 2 * 2 = 2 ^ 149) by reflexivity. lia. }
  assert (Nc : num32 c = true) by (eapply between_num32; eauto).
  apply (ltb_value _ _ Na Nc) in Hlo. apply (ltb_value _ _ Nc Ns) in Hhi.
  rewrite Vh in Ea, Es.
  change (2 ^ (163 - 24)) with (2 ^ 139) in Ea, Es.
  apply Z.abs_le in Ea, Es.
  (* everything in units of U = 2^139 *)
  assert (E149 : 2 ^ 149 = 1024 * 2 ^ 139) by reflexivity.
  assert (E148 : 2 ^ 148 = 512 * 2 ^ 139) by reflexivity.
  assert (E147 : 2 ^ 147 = 256 * 2 ^ 139) by reflexivity.
  assert (E140 : 2 ^ 140 = 2 * 2 ^ 139) by reflexivity.
  assert (E164 : 2 ^ 164 = 33554432 * 2 ^ 139) by reflexivity.
  assert (PU : 0 < 2 ^ 139) by (apply pow2_pos; lia).
  rewrite E149 in Blo, Bhi. rewrite E148 in Ea, Es.
  set (U := 2 ^ 139) in *.
  (* the two distances to the walls *)
  destruct (SFsub_bounds c lo 164 Nc Nlo ltac:(lia)) as [Nq0 Eq0].
  { rewrite E164. fold U. apply Z.abs_lt. lia. }
  destruct (SFsub_bounds hi c 164 Nhi Nc ltac:(lia)) as [Nq1 Eq1].
  { rewrite E164. fold U. apply Z.abs_lt. lia. }
  change (2 ^ (164 - 24)) with (2 ^ 140) in Eq0, Eq1. rewrite E140 in Eq0, Eq1.
  fold U in Eq0, Eq1. apply Z.abs_le in Eq0, Eq1.
  (* the displacement *)
  assert (Np : num32 (SFsub 24 128 t c) = true \/ SFsub 24 128 t c = S754_nan).
  { destruct (not_infinite_cases t Wt) as [Nt | ->]; [left | right; apply SFsub_nan_l].
    apply SFsub_finite; auto.
    pose proof (V_bound t Nt) as Bt. unfold overflow_threshold.
    assert (E253 : 2 ^ 253 = 2 ^ 114 * U) by reflexivity.
    assert (E252 : 2 ^ 252 = 2 ^ 113 * U) by reflexivity.
    assert (E114 : 2 ^ 114 = 2 * 2 ^ 113) by reflexivity.
    assert (E25 : 2 ^ 25 - 1 = 2 * (2 ^ 24 - 1) + 1) by reflexivity.
    assert (20000000 < 2 ^ 113) by (change (2 ^ 113) with (2 ^ 77 * 2 ^ 36);
       assert (1 <= 2 ^ 77) by (assert (0 < 2 ^ 77) by (apply pow2_pos; lia); lia);
       assert (20000000 < 2 ^ 36) by reflexivity; nia).
    rewrite E25, E252. rewrite E253, E114 in Bt.
    set (T := 2 ^ 113) in *. set (K := 2 ^ 24 - 1) in *.
    assert (0 <= K) by (unfold K; cbn; lia).
    apply Z.abs_lt. apply Z.abs_le in Bt. nia. }
  unfold good_edge. cbn [fst snd]. rewrite E147. fold U.
  split; (split; [|split; [assumption | lia]]).
  - destruct Np as [Np | ->]; [left; apply num32_opp; exact Np | right; reflexivity].
  - exact Np.
Qed.

Lemma eqb_value (x y : spec_float) :
  num32 x = true -> num32 y = true -> (SFeqb x y = true <-> V x = V y).
Proof.
  intros Hx Hy. unfold SFeqb. rewrite (compare_value x y Hx Hy).
  destruct (Z.compare_spec (V x) (V y)); split; intros; try lia; try discriminate; auto.
Qed.

Lemma ltb_pos_neg (t1 t : spec_float) :
  nonzero_as false t1 -> signed_as true t -> SFltb t1 t = false.
Proof.
  intros [->|(m & e & ->)] [->|[->|(m' & e' & ->)]]; reflexivity.
Qed.

Lemma ltb_zero_neg (t : spec_float) :
  signed_as true t -> SFltb (S754_zero false) t = false.
Proof. intros [->|[->|(m' & e' & ->)]]; reflexivity. Qed.

Lemma ltb_pos_zero (t : spec_float) :
  nonzero_as false t -> SFltb t (S754_zero false) = false.
Proof. intros [->|(m & e & ->)]; reflexivity. Qed.

Lemma ltb_zero_pos (t : spec_float) :
  nonzero_as false t -> SFltb (S754_zero false) t = true.
Proof. intros [->|(m & e & ->)]; reflexivity. Qed.

End Binary32Arithmetic.

(** ** Facts about single precision *)

Section SinglePrecision.
Context {H : Host}.
Local Existing Instance binary32.
Import Binary32.

Lemma b32_compare_refl (x : float32) : is_nan x = false -> SFcompare x x = Some Eq.
Proof.
  destruct x as [s|s| |s m e]; cbn; try discriminate; intros _.
  - reflexivity.
  - destruct s; reflexivity.
  - rewrite Z.compare_refl, Pos.compare_cont_refl. destruct s; reflexivity.
Qed.

Lemma b32_compare_cont_flip (m m' : positive) :
  Pos.compare_cont Eq m' m = CompOpp (Pos.compare_cont Eq m m').
Proof. symmetry. exact (Pos.compare_cont_antisym m m' Eq). Qed.

Lemma b32_compare_lt_gt (x y : float32) :
  SFcompare x y = Some Lt -> SFcompare y x = Some Gt.
Proof.
  destruct x as [s|s| |s m e], y as [s'|s'| |s' m' e']; cbn; try discriminate;
    try (destruct s; cbn; discriminate || auto; fail);
    try (destruct s'; cbn; discriminate || auto; fail);
    try (destruct s, s'; cbn; discriminate || auto; fail).
  rewrite (Z.compare_antisym e e'), (b32_compare_cont_flip m m').
  destruct s, s'; try discriminate; auto;
    destruct (e ?= e')%Z; cbn; try discriminate; auto;
    destruct (Pos.compare_cont Eq m m'); cbn; discriminate || auto.
Qed.

Lemma b32_ltb_leb (x y : float32) : SFltb x y = true -> SFleb x y = true.
Proof. unfold SFltb, SFleb. destruct (SFcompare x y) as [[]|]; auto. Qed.

Lemma b32_ltb_flip (x y : float32) : SFltb x y = true -> SFltb y x = false.
Proof.
  unfold SFltb. destruct (SFcompare x y) as [[]|] eqn:E; try discriminate.
  intros _. rewrite (@b32_compare_lt_gt x y E). reflexivity.
Qed.

Lemma b32_leb_refl (x : float32) : is_nan x = false -> SFleb x x = true.
Proof. intros Hx. unfold SFleb. rewrite b32_compare_refl; auto. Qed.

(** On numbers, [fminf] never exceeds [fmaxf]. *)
Lemma b32_fmin_le_fmax (x y : float32) :
  is_nan x = false -> is_nan y = false ->
  SFleb (fminf (A := binary32) x y) (fmaxf (A := binary32) x y) = true.
Proof.
  intros Hx Hy. unfold fminf, fmaxf. cbn [fisnan flt binary32].
  rewrite Hx, Hy.
  destruct (SFltb x y) eqn:Exy.
  - rewrite (@b32_ltb_flip x y Exy). apply b32_ltb_leb; assumption.
  - destruct (SFltb y x) eqn:Eyx.
    + apply b32_ltb_leb; assumption.
    + apply b32_leb_refl; assumption.
Qed.

(** C6 (normalisation), amended: for every stored record whose four bounds are
    numbers, in any order, and also when the read fails and [atci_load] falls back
    to [atci_restore], the runtime bounds after [atci_load] satisfy
    [x_min <= x_max] and [y_min <= y_max] and are the [fminf]/[fmaxf] of the
    configuration now in force. *)
Theorem load_normalises_bounds (st : statics) (nvs : option atci_config_t) :
  (forall c, nvs = Some c ->
     fisnan (cfg_x_min c) = false /\ fisnan (cfg_x_max c) = false /\
     fisnan (cfg_y_min c) = false /\ fisnan (cfg_y_max c) = false) ->
  let st' := fst (atci_load st nvs) in
  ordered (atci st') /\ normalised st'.
Proof.
  intros Hnum. cbv zeta.
  assert (Hn := load_normalised st nvs).
  split; [|exact Hn].
  destruct Hn as (E1 & E2 & E3 & E4). unfold ordered.
  rewrite E1, E2, E3, E4. clear E1 E2 E3 E4.
  rewrite load_config.
  destruct nvs as [c|].
  - destruct (Hnum c eq_refl) as (N1 & N2 & N3 & N4).
    split; apply b32_fmin_le_fmax; assumption.
  - split; reflexivity.
Qed.

End SinglePrecision.

(** ** The clipping loop in single precision *)

Section SinglePrecisionGeometry.
Context {H : Host}.
Local Existing Instance binary32.
Local Open Scope Z_scope.

Lemma fzero_b32 : fzero = S754_zero false.
Proof. reflexivity. Qed.

Lemma fone_b32 : nonzero_as false fone.
Proof. right. eexists _, _. reflexivity. Qed.

Lemma clip_loop_from_inside_b32 (pq : list (spec_float * spec_float)) :
  Forall good_edge pq ->
  forall t1, nonzero_as false t1 ->
  exists t1', clip_loop (A := binary32) pq fzero t1 = Some (fzero, t1') /\
              nonzero_as false t1'.
Proof.
  induction 1 as [|[p q] rest (Np & Nq & Vq) Hrest IH]; intros t1 Ht1.
  - exists t1. split; [reflexivity | exact Ht1].
  - cbn [fst snd] in Np, Nq, Vq.
    cbn [clip_loop]. cbn [feq flt fdiv binary32].
    unfold Binary32.prec, Binary32.emax. rewrite fzero_b32.
    assert (Nz : num32 (S754_zero false) = true) by reflexivity.
    assert (Pq : 0 < V q) by (assert (0 < 2 ^ 147) by (apply pow2_pos; lia); lia).
    destruct Np as [Np | ->].
    2:{ (* every comparison with NaN is false: the edge changes nothing *)
      destruct (V_pos_shape q Pq) as (mq & eq & ->).
      cbn [SFeqb SFcompare SFdiv SFltb]. cbv iota.
      rewrite <- fzero_b32. apply IH. exact Ht1. }
    destruct (SFeqb p (S754_zero false)) eqn:Ep.
    + assert (Lq : SFltb q (S754_zero false) = false).
      { destruct (SFltb q (S754_zero false)) eqn:E; [|reflexivity].
        apply (ltb_value _ _ Nq Nz) in E. rewrite V_zero in E. lia. }
      rewrite Lq. rewrite <- fzero_b32. apply IH. exact Ht1.
    + assert (Hp0 : V p <> 0).
      { intros E0. assert (SFeqb p (S754_zero false) = true).
        { apply (eqb_value _ _ Np Nz). rewrite V_zero. exact E0. }
        congruence. }
      destruct (SFltb p (S754_zero false)) eqn:Lp.
      * apply (ltb_value _ _ Np Nz) in Lp. rewrite V_zero in Lp.
        pose proof (SFdiv_neg q p Nq Np Pq Lp) as Hs.
        rewrite (ltb_pos_neg Ht1 Hs), (ltb_zero_neg Hs).
        rewrite <- fzero_b32. apply IH. exact Ht1.
      * assert (Pp : 0 < V p).
        { destruct (Z_lt_le_dec 0 (V p)); [assumption|].
          assert (SFltb p (S754_zero false) = true).
          { apply (ltb_value _ _ Np Nz). rewrite V_zero. lia. }
          congruence. }
        pose proof (SFdiv_pos q p Nq Np Vq Pp) as Hs.
        rewrite (ltb_pos_zero Hs).
        rewrite <- fzero_b32. apply IH.
        destruct (SFltb (SFdiv 24 128 q p) t1); assumption.
Qed.

Lemma deep_inside_start_intersects_b32 (st : statics) (x0 y0 xt yt : spec_float) :
  within settings_limit (rt_x_min (atci st)) = true ->
  within settings_limit (rt_x_max (atci st)) = true ->
  within settings_limit (rt_y_min (atci st)) = true ->
  within settings_limit (rt_y_max (atci st)) = true ->
  valid_binary 24 128 x0 = true -> valid_binary 24 128 y0 = true ->
  not_infinite xt = true -> not_infinite yt = true ->
  deep_inside_at (atci st) x0 y0 = true ->
  line_intersects_keepout st x0 y0 xt yt = true.
Proof.
  intros Wx0 Wx1 Wy0 Wy1 Vx Vy Wxt Wyt Hd.
  unfold deep_inside_at, KEEPOUT_TOLERANCE in Hd.
  cbn [flt fadd fsub half binary32] in Hd.
  apply andb_true_iff in Hd. destruct Hd as [Hd D4].
  apply andb_true_iff in Hd. destruct Hd as [Hd D3].
  apply andb_true_iff in Hd. destruct Hd as [D1 D2].
  destruct (axis_edges _ _ _ _ Wx0 Wx1 Vx Wxt D1 D2) as [G0 G1].
  destruct (axis_edges _ _ _ _ Wy0 Wy1 Vy Wyt D3 D4) as [G2 G3].
  unfold line_intersects_keepout.
  destruct (@clip_loop_from_inside_b32 (clip_edges (atci st) x0 y0 xt yt)) with (t1 := fone)
    as (t1' & Hrun & Hpos).
  - unfold clip_edges.
    apply Forall_cons; [exact G0|]. apply Forall_cons; [exact G1|].
    apply Forall_cons; [exact G2|]. apply Forall_cons; [exact G3|]. apply Forall_nil.
  - exact fone_b32.
  - rewrite Hrun. cbn [flt binary32]. rewrite fzero_b32. apply ltb_zero_pos. exact Hpos.
Qed.

(** C1 (trap detection), amended: with enforcement active, from a start strictly
    more than 0.5 inside every bound the apply path makes the target equal to the
    current position, whatever the destination; the check path returns false for
    every destination whose X and Y are not infinite (every number, and NaN), when
    the four bounds lie in the settings range (-10000 to 10000) and the start
    coordinates are binary32 data.  Stated in binary32, as the firmware
    computes. *)
Theorem trap_blocks_every_move (hk : hooks) (st : statics)
    (pos : option (list num)) (target current_position : list num)
    (axes : axes_signals_t) (is_cartesian : bool) (envelope : work_envelope_t) :
  is_keepout_active st = true ->
  length target = N_AXIS -> length current_position = N_AXIS ->
  let start_x := match pos with Some p => axis p X_AXIS | None => fzero end in
  let start_y := match pos with Some p => axis p Y_AXIS | None => fzero end in
  (zone_in_settings_range (atci st) = true ->
   valid_binary 24 128 start_x = true -> valid_binary 24 128 start_y = true ->
   not_infinite (axis target X_AXIS) = true ->
   not_infinite (axis target Y_AXIS) = true ->
   deep_inside_at (atci st) start_x start_y = true ->
   fst (travel_limits_check hk st pos target axes is_cartesian envelope) = false)
  /\
  (deep_inside_at (atci st) (axis current_position X_AXIS)
     (axis current_position Y_AXIS) = true ->
   fst (keepout_apply_travel_limits hk st target current_position envelope)
   = (current_position, current_position)).
Proof.
  intros Hact Ht Hc. cbv zeta. split.
  - intros Hz Vx Vy Wx Wy Hd.
    unfold zone_in_settings_range in Hz.
    apply andb_true_iff in Hz. destruct Hz as [Hz Z4].
    apply andb_true_iff in Hz. destruct Hz as [Hz Z3].
    apply andb_true_iff in Hz. destruct Hz as [Z1 Z2].
    unfold travel_limits_check. rewrite Hact. cbn [negb].
    destruct (deep_inside_at (atci st) (axis target X_AXIS) (axis target Y_AXIS)).
    + destruct (_ || _); reflexivity.
    + rewrite (@deep_inside_start_intersects_b32 st _ _ _ _ Z1 Z2 Z3 Z4 Vx Vy Wx Wy Hd).
      destruct (deep_inside_at _ _ _); [|destruct (technically_inside_at _ _ _)];
        reflexivity.
  - intros Hd. rewrite (apply_blocks_deep_inside_start hk st target _ envelope Hact Hd).
    cbn [fst]. rewrite memcpy_whole; auto.
Qed.

End SinglePrecisionGeometry.

(** ** Concrete instances *)

Lemma trap_blocks_every_move_witness :
  is_keepout_active (A := binary32) (booted 1) = true /\
  zone_in_settings_range (atci (booted 1)) = true /\
  not_infinite (Binary32.of_Z 0) = true /\
  deep_inside_at (A := binary32) (atci (booted 1)) (Binary32.of_Z 30)
    (Binary32.of_Z 30) = true /\
  fst (travel_limits_check (A := binary32) no_hooks (booted 1) (Some (vec3 30 30 0))
         (vec3 0 0 5) 0%Z true tt) = false /\
  fst (keepout_apply_travel_limits (A := binary32) no_hooks (booted 1) (vec3 0 0 5)
         (vec3 30 30 0) tt) = (vec3 30 30 0, vec3 30 30 0).
Proof.
  destruct (@trap_blocks_every_move grblhal_3axis no_hooks (booted 1)
              (Some (vec3 30 30 0)) (vec3 0 0 5) (vec3 30 30 0) 0%Z true tt
              eq_refl eq_refl eq_refl) as [Hcheck Happly].
  do 4 (split; [reflexivity|]).
  split; [apply Hcheck; reflexivity | apply Happly; reflexivity].
Defined.

Lemma rack_poll_reenables_during_tool_change_witness :
  plugin_enabled (A := binary32) (config (booted 7)) = true /\
  monitor_rack_presence (A := binary32) (config (booted 7)) = true /\
  monitor_tc_macro (A := binary32) (config (booted 7)) = true /\
  last_pin_state (A := binary32) (atci (booted 7)) = false /\
  tc_macro_running
    (fst (poll_rack_sensor
            (fst (keepout_tool_selected (A := binary32) no_hooks (booted 7) 1%Z))
            false true true true None)) = true /\
  is_keepout_active
    (fst (poll_rack_sensor
            (fst (keepout_tool_selected (A := binary32) no_hooks (booted 7) 1%Z))
            false true true true None)) = true.
Proof.
  destruct (@rack_poll_reenables_during_tool_change binary32 grblhal_3axis no_hooks
              (booted 7) 1%Z true true true true None
              eq_refl eq_refl eq_refl eq_refl) as (_ & (Hflag & Hactive & _) & _).
  do 4 (split; [reflexivity|]).
  split; [exact Hflag | exact Hactive].
Defined.

Lemma enforcement_gating_witness :
  (plugin_enabled (A := binary32) (config (booted 0)) = false \/
   enabled (A := binary32) (atci (booted 0)) = false) /\
  travel_limits_check (A := binary32) no_hooks (booted 0) (Some (vec3 30 30 0))
    (vec3 31 30 0) 0%Z true tt = (true, []) /\
  keepout_apply_travel_limits (A := binary32) no_hooks (booted 0) (vec3 31 30 0)
    (vec3 30 30 0) tt = ((vec3 31 30 0, vec3 30 30 0), []).
Proof.
  split; [left; reflexivity|].
  apply (@enforcement_gating binary32 grblhal_3axis no_hooks (booted 0)
           (Some (vec3 30 30 0)) (vec3 31 30 0) (vec3 30 30 0) 0%Z true tt).
  left; reflexivity.
Defined.

(** Zone 10..50 x 10..50, destination (60, 40).  From a machine position (60, 30)
    the jog is accepted; with no planner position it is judged from the origin,
    the segment from (0, 0) crosses the zone, and it is rejected. *)
Lemma check_without_position_starts_at_origin_witness :
  is_keepout_active (A := binary32) (booted 1) = true /\
  deep_inside_at (A := binary32) (atci (booted 1)) (of_int 60) (of_int 40) = false /\
  line_intersects_keepout (A := binary32) (booted 1) fzero fzero (of_int 60) (of_int 40)
  = true /\
  travel_limits_check (A := binary32) (H := grblhal_3axis) no_hooks (booted 1) None
    (vec3 60 40 0) 0%Z true tt = (false, [warning MSG_CROSSING]) /\
  travel_limits_check (A := binary32) (H := grblhal_3axis) no_hooks (booted 1)
    (Some (vec3 60 30 0)) (vec3 60 40 0) 0%Z true tt = (true, []).
Proof.
  split; [reflexivity|]. split; [reflexivity|]. split; [reflexivity|].
  split; [|reflexivity].
  apply (proj1 (proj2 (@check_without_position_starts_at_origin binary32 grblhal_3axis
                         no_hooks (booted 1) [] (vec3 60 40 0) 0%Z true tt eq_refl)));
    reflexivity.
Defined.

Lemma load_normalises_bounds_witness :
  ordered (A := binary32) (atci (booted 7)) /\ normalised (A := binary32) (booted 7).
Proof.
  apply (@load_normalises_bounds statics_zero (Some (stored_config 7))).
  intros c E. injection E as <-. repeat split; reflexivity.
Defined.

Lemma m960_validate_and_execute_witness :
  user_mcode (A := binary32) (m960_block 2) = 960%Z /\
  fst (fst (mcode_validate (A := binary32) no_hooks (booted 1) (m960_block 2)))
  = Status_GcodeValueOutOfRange /\
  snd (mcode_validate (A := binary32) no_hooks (booted 1) (m960_block 2)) = booted 1.
Proof.
  destruct (@m960_validate_and_execute binary32 grblhal_3axis no_hooks (booted 1)
              0%Z (m960_block 2) eq_refl) as (Hrange & Hstate & _).
  split; [reflexivity|].
  split; [apply Hrange; repeat split; reflexivity | exact Hstate].
Defined.

Lemma realtime_flag_string_witness :
  length (repeat "x"%char 16) = 16%nat /\
  c_string (realtime_flags (A := binary32) polled_inside (repeat "x"%char 16))
  = "SEZ"%string.
Proof.
  split; [reflexivity|].
  apply (proj2 (proj2 (@realtime_flag_string binary32 grblhal_3axis no_hooks
                         polled_inside (repeat "x"%char 16) 0%Z eq_refl)));
    reflexivity.
Defined.

Lemma apply_block_overwrites_all_axes_clip_keeps_others_witness :
  is_keepout_active (A := binary32) (booted 1) = true /\
  fst (fst (keepout_apply_travel_limits (A := binary32) no_hooks (booted 1)
              (vec3 5 5 9) (vec3 30 30 7) tt)) = vec3 30 30 7 /\
  axis (fst (fst (keepout_apply_travel_limits (A := binary32) no_hooks (booted 1)
                    (vec3 39 30 5) (vec3 0 30 7) tt))) 2
  = axis (A := binary32) (vec3 39 30 5) 2.
Proof.
  split; [reflexivity|]. split.
  - apply (proj1 (@apply_block_overwrites_all_axes_clip_keeps_others binary32
                    grblhal_3axis no_hooks (booted 1) (vec3 5 5 9) (vec3 30 30 7) tt
                    eq_refl eq_refl eq_refl)).
    left; reflexivity.
  - apply (proj2 (@apply_block_overwrites_all_axes_clip_keeps_others binary32
                    grblhal_3axis no_hooks (booted 1) (vec3 39 30 5) (vec3 0 30 7) tt
                    eq_refl eq_refl eq_refl));
      try reflexivity; unfold X_AXIS, Y_AXIS; lia.
Defined.

(** ** The worked examples of the specification, in single precision *)

(** Zone 10..50 x 10..50.  Start (30, 30), deep inside: the target becomes the
    current position and the message is "inside zone". *)
Example apply_from_deep_inside :
  keepout_apply_travel_limits (A := binary32) no_hooks (booted 1) (vec3 60 30 5)
    (vec3 30 30 0) tt
  = ((vec3 30 30 0, vec3 30 30 0), [Report_message MSG_INSIDE_ZONE Message_Warning]).
Proof. reflexivity. Qed.

(** From the same start the check path rejects a jog to a point outside the zone,
    to a point on its boundary, to a point deep inside it, and a jog of length
    zero. *)
Example check_from_deep_inside :
  fst (travel_limits_check (A := binary32) no_hooks (booted 1) (Some (vec3 30 30 0))
         (vec3 60 30 0) 0%Z true tt) = false /\
  fst (travel_limits_check (A := binary32) no_hooks (booted 1) (Some (vec3 30 30 0))
         (vec3 10 30 0) 0%Z true tt) = false /\
  fst (travel_limits_check (A := binary32) no_hooks (booted 1) (Some (vec3 30 30 0))
         (vec3 20 40 0) 0%Z true tt) = false /\
  fst (travel_limits_check (A := binary32) no_hooks (booted 1) (Some (vec3 30 30 0))
         (vec3 30 30 0) 0%Z true tt) = false.
Proof. repeat split; vm_compute; reflexivity. Qed.

(** A NaN coordinate in the destination is rejected like a number. *)
Example check_from_deep_inside_to_nan :
  fst (travel_limits_check (A := binary32) (H := grblhal_3axis) no_hooks (booted 1)
         (Some (vec3 30 30 0))
         [S754_nan; Binary32.of_Z 30; Binary32.of_Z 0] 0%Z true tt) = false.
Proof. vm_compute; reflexivity. Qed.

(** Start (0, 0), target (30, 30): clipped to (10, 10), other axis kept, message
    "blocked at keepout boundary". *)
Example apply_clips_at_corner :
  keepout_apply_travel_limits (A := binary32) no_hooks (booted 1) (vec3 30 30 5)
    (vec3 0 0 0) tt
  = ((vec3 10 10 5, vec3 0 0 0), [Report_message MSG_BLOCKED_AT_WALL Message_Warning]).
Proof. reflexivity. Qed.

(** Start (10, 30), on the boundary, target (30, 30): the clip finds [t0 = 0], so
    the move is blocked at (10, 30) with the message "inside zone". *)
Example apply_from_boundary :
  keepout_apply_travel_limits (A := binary32) no_hooks (booted 1) (vec3 30 30 5)
    (vec3 10 30 0) tt
  = ((vec3 10 30 0, vec3 10 30 0), [Report_message MSG_INSIDE_ZONE Message_Warning]).
Proof. reflexivity. Qed.

(** A segment that ends on an edge, and one that grazes a corner, are not reported;
    a move along an edge is. *)
Example touching_segments :
  line_intersects_keepout (A := binary32) (booted 1)
    (of_int 0) (of_int 30) (of_int 10) (of_int 30) = false /\
  line_intersects_keepout (A := binary32) (booted 1)
    (of_int 0) (of_int 20) (of_int 20) (of_int 0) = false /\
  line_intersects_keepout (A := binary32) (booted 1)
    (of_int 10) (of_int 20) (of_int 10) (of_int 40) = true.
Proof. repeat split; vm_compute; reflexivity. Qed.

(** Rounding in the intersection test.  Zone 0..5 x 0..5, a move from (-1, 1.5)
    to (3 * 2^-25, -5 * 2^-25): the line crosses [x = 0] at [y < 0], so no point
    of the move is in the zone, yet the two quotients round to
    [t0 = 1 - 2^-23 < t1 = 1 - 2^-24] and the move is reported. *)
Example near_miss_is_reported :
  let st := fst (atci_load (A := binary32) statics_zero (Some small_zone_config)) in
  line_intersects_keepout st (SFopp (Binary32.of_Z 1)) (Binary32.of_pow2 3 (-1))
    (Binary32.of_pow2 3 (-25)) (SFopp (Binary32.of_pow2 5 (-25))) = true /\
  clip_loop (A := binary32)
    (clip_edges (A := binary32) (atci st) (SFopp (Binary32.of_Z 1))
       (Binary32.of_pow2 3 (-1))
       (Binary32.of_pow2 3 (-25)) (SFopp (Binary32.of_pow2 5 (-25)))) fzero fone
  = Some (S754_finite false 16777214 (-24), S754_finite false 16777215 (-24)).
Proof. split; vm_compute; reflexivity. Qed.

(** The same move in integers (units of [2^-149]): at no parameter [n / d] between
    0 and 1 are both coordinates at or above the lower bounds of the zone. *)
Example near_miss_has_no_point_in_zone :
  let st := fst (atci_load (A := binary32) statics_zero (Some small_zone_config)) in
  let x0 := V (SFopp (Binary32.of_Z 1)) in
  let y0 := V (Binary32.of_pow2 3 (-1)) in
  let x1 := V (Binary32.of_pow2 3 (-25)) in
  let y1 := V (SFopp (Binary32.of_pow2 5 (-25))) in
  forall n d : Z, (0 < d)%Z -> (0 <= n <= d)%Z ->
    ~ ((d * V (rt_x_min (atci st)) <= d * x0 + n * (x1 - x0))%Z /\
       (d * V (rt_y_min (atci st)) <= d * y0 + n * (y1 - y0))%Z).
Proof.
  cbv zeta. intros n d Hd Hn.
  change (V (rt_x_min (atci (fst (atci_load (A := binary32) statics_zero
                                    (Some small_zone_config)))))) with 0%Z.
  change (V (rt_y_min (atci (fst (atci_load (A := binary32) statics_zero
                                    (Some small_zone_config)))))) with 0%Z.
  change (V (SFopp (Binary32.of_Z 1))) with (- 2 ^ 149)%Z.
  change (V (Binary32.of_pow2 3 (-1))) with (3 * 2 ^ 148)%Z.
  change (V (Binary32.of_pow2 3 (-25))) with (3 * 2 ^ 124)%Z.
  change (V (SFopp (Binary32.of_pow2 5 (-25)))) with (- (5 * 2 ^ 124))%Z.
  change (2 ^ 149)%Z with (2 ^ 25 * 2 ^ 124)%Z.
  change (2 ^ 148)%Z with (2 ^ 24 * 2 ^ 124)%Z.
  assert (P : (0 < 2 ^ 124)%Z) by reflexivity.
  change (2 ^ 25)%Z with 33554432%Z. change (2 ^ 24)%Z with 16777216%Z.
  set (U := (2 ^ 124)%Z) in *.
  intros [Hx Hy]. nia.
Qed.

(** [M960 P1] outside check mode enables with source Command; in check mode
    (state 2 on this build) nothing happens. *)
Example m960_p1 :
  enabled (atci (fst (mcode_execute (A := binary32) no_hooks
                        (fst (keepout_tool_selected no_hooks (booted 7) 1%Z))
                        0%Z (m960_block 1)))) = true /\
  source (atci (fst (mcode_execute (A := binary32) no_hooks
                       (fst (keepout_tool_selected no_hooks (booted 7) 1%Z))
                       0%Z (m960_block 1)))) = SOURCE_COMMAND /\
  mcode_execute (A := binary32) no_hooks (booted 7) 2%Z (m960_block 0)
  = (booted 7, []).
Proof. repeat split; vm_compute; reflexivity. Qed.

(** ** Where the specification and the code part *)

(** C1: two deep-inside starts from which the check path accepts a jog.  In the
    zone 10..50 x 10..50, from (30, 30) to X = +infinity: the quotients are -0 and
    +0, the loop ends with [t0 = t1 = 0] and the check falls through to its
    default answer.  In a zone whose X bounds are -2^127 and 2^127, outside the
    settings range, from (-2^126, 30) to the largest binary32 number: the
    displacement overflows to +infinity, with the same effect. *)
Lemma check_from_deep_inside_to_infinity :
  (is_keepout_active (A := binary32) (booted 1) = true /\
   deep_inside_at (A := binary32) (atci (booted 1)) (of_int 30) (of_int 30) = true /\
   fst (travel_limits_check (A := binary32) (H := grblhal_3axis) no_hooks (booted 1)
          (Some (vec3 30 30 0))
          [S754_infinity false; Binary32.of_Z 30; Binary32.of_Z 0] 0%Z true tt) = true)
  /\
  (is_keepout_active wide_zone = true /\
   deep_inside_at (A := binary32) (atci wide_zone)
     (SFopp (Binary32.of_pow2 1 126)) (Binary32.of_Z 30) = true /\
   num32 largest32 = true /\
   fst (travel_limits_check (A := binary32) (H := grblhal_3axis) no_hooks wide_zone
          (Some [SFopp (Binary32.of_pow2 1 126); Binary32.of_Z 30; Binary32.of_Z 0])
          [largest32; Binary32.of_Z 30; Binary32.of_Z 0] 0%Z true tt) = true).
Proof. repeat split; vm_compute; reflexivity. Qed.

(** C4: a move of length zero from (10, 30), a point on the boundary line
    [x = x_min] of the zone 10..50 x 10..50 and not deep inside it, is reported as
    intersecting. *)
Lemma zero_length_move_on_boundary_is_reported :
  feq (Arith := binary32) (of_int 10) (rt_x_min (atci (booted 1))) = true /\
  deep_inside_at (A := binary32) (atci (booted 1)) (of_int 10) (of_int 30) = false /\
  line_intersects_keepout (A := binary32) (booted 1)
    (of_int 10) (of_int 30) (of_int 10) (of_int 30) = true.
Proof. repeat split; vm_compute; reflexivity. Qed.


(** C6: [atci_restore] called on its own (it is the settings [restore] callback)
    rewrites the configuration to 10..50 and leaves the runtime bounds at 0..5:
    no normalisation pass runs. *)
Lemma restore_alone_skips_normalisation :
  ~ normalised (A := binary32)
      (fst (atci_restore (fst (atci_load statics_zero (Some small_zone_config))))).
Proof.
  intros (E & _). vm_compute in E. discriminate E.
Qed.

(** * Further properties of the handlers *)

(** ** State-writing handlers, for every arithmetic *)

Section HandlerProperties.
Context {A : Arith} {H : Host}.

(** *** What each state-writing handler leaves alone *)

Lemma keepout_set_frame (st : statics) :
  config (keepout_set st) = config st /\
  enabled (atci (keepout_set st)) = enabled (atci st) /\
  source (atci (keepout_set st)) = source (atci st) /\
  last_pin_state (atci (keepout_set st)) = last_pin_state (atci st).
Proof. unfold keepout_set. cbn. auto. Qed.

Lemma same_zone_refl (st : statics) : same_zone st st.
Proof. unfold same_zone. auto. Qed.

Lemma same_zone_set_keepout_state (st : statics) b s :
  same_zone st (set_keepout_state st b s).
Proof.
  destruct (set_keepout_state_frame st b s) as (Ec & _).
  destruct (set_keepout_state_bounds st b s) as (E1 & E2 & E3 & E4).
  unfold same_zone. auto.
Qed.

Lemma same_zone_trans (a b c : statics) :
  same_zone a b -> same_zone b c -> same_zone a c.
Proof.
  unfold same_zone. intros (E0 & E1 & E2 & E3 & E4) (F0 & F1 & F2 & F3 & F4).
  repeat split; congruence.
Qed.

Lemma tool_selected_zone (hk : hooks) (st : statics) tool :
  same_zone st (fst (keepout_tool_selected hk st tool)).
Proof.
  unfold keepout_tool_selected. cbn [fst].
  destruct (monitor_tc_macro (config st)); [|apply same_zone_refl].
  eapply same_zone_trans; [|apply same_zone_set_keepout_state].
  unfold same_zone. cbn. auto.
Qed.

Lemma tool_changed_zone (hk : hooks) (st : statics) aux7 tool :
  same_zone st (fst (keepout_tool_changed hk st aux7 tool)).
Proof.
  unfold keepout_tool_changed. cbn [fst].
  destruct (monitor_tc_macro (config st)); [|apply same_zone_refl].
  eapply same_zone_trans; [|apply same_zone_set_keepout_state].
  unfold same_zone. cbn. auto.
Qed.

Lemma poll_zone (st : statics) aux7 aux0 aux1 aux2 pos :
  same_zone st (fst (poll_rack_sensor st aux7 aux0 aux1 aux2 pos)).
Proof.
  unfold poll_rack_sensor. cbn [fst].
  destruct (monitor_rack_presence (config st)); [|unfold same_zone; cbn; auto].
  destruct (negb _); [|unfold same_zone; cbn; auto].
  match goal with
  | |- context [set_keepout_state ?s ?b ?e] =>
      pose proof (same_zone_set_keepout_state s b e) as Hz
  end.
  unfold same_zone in *. cbn [config atci] in *. cbn in Hz. exact Hz.
Qed.

Lemma mcode_execute_zone (hk : hooks) (st : statics) state gc_block :
  same_zone st (fst (mcode_execute hk st state gc_block)).
Proof.
  unfold mcode_execute.
  destruct (negb _); [apply same_zone_refl|].
  destruct (_ =? _)%Z; [apply same_zone_refl|].
  destruct (words_p gc_block); [apply same_zone_set_keepout_state | apply same_zone_refl].
Qed.

Lemma normalised_same_zone (st st' : statics) :
  same_zone st st' -> normalised st -> normalised st'.
Proof.
  unfold same_zone, normalised.
  intros (Ec & E1 & E2 & E3 & E4) (N1 & N2 & N3 & N4).
  rewrite Ec, E1, E2, E3, E4. auto.
Qed.

Lemma step_config (hk : hooks) (st : statics) (c : call) :
  is_load c = false -> config (step hk st c) = config st.
Proof.
  destruct c; cbn [is_load step]; intros Hl; try discriminate.
  - apply tool_selected_zone.
  - apply tool_changed_zone.
  - apply poll_zone.
  - apply mcode_execute_zone.
  - reflexivity.
Qed.

Lemma step_normalised (hk : hooks) (st : statics) (c : call) :
  normalised st -> normalised (step hk st c).
Proof.
  intros Hn. destruct c; cbn [step].
  - eapply normalised_same_zone; [apply tool_selected_zone | exact Hn].
  - eapply normalised_same_zone; [apply tool_changed_zone | exact Hn].
  - eapply normalised_same_zone; [apply poll_zone | exact Hn].
  - eapply normalised_same_zone; [apply mcode_execute_zone | exact Hn].
  - apply save_normalised.
  - apply load_normalised.
Qed.

Lemma run_config (hk : hooks) (cs : list call) : forall st : statics,
  forallb (fun c => negb (is_load c)) cs = true ->
  config (run hk st cs) = config st.
Proof.
  induction cs as [|c cs IH]; intros st Hcs; [reflexivity|].
  cbn [forallb] in Hcs. apply andb_true_iff in Hcs. destruct Hcs as [Hc Hcs].
  apply negb_true_iff in Hc.
  change (run hk st (c :: cs)) with (run hk (step hk st c) cs).
  rewrite IH by exact Hcs. apply step_config. exact Hc.
Qed.

Lemma inactive_passes_through (hk : hooks) (st : statics) (pos : option (list num))
    (target current_position : list num) (axes : axes_signals_t)
    (is_cartesian : bool) (envelope : work_envelope_t) :
  is_keepout_active st = false ->
  travel_limits_check hk st pos target axes is_cartesian envelope
  = (chain_check hk target axes is_cartesian envelope, []) /\
  keepout_apply_travel_limits hk st target current_position envelope
  = (chain_apply hk target current_position envelope, []).
Proof.
  intros Hoff. unfold travel_limits_check, keepout_apply_travel_limits.
  rewrite Hoff. split; reflexivity.
Qed.

(** X1 (state transitions): [set_keepout_state] is last-write-wins.  Two
    transitions in a row leave the state that the second alone would have left,
    whatever the first one and its source were; in particular a repeated
    transition changes nothing more. *)
Theorem set_keepout_state_last_write_wins (st : statics) (b1 b2 : bool)
    (s1 s2 : keepout_source_t) :
  set_keepout_state (set_keepout_state st b1 s1) b2 s2 = set_keepout_state st b2 s2.
Proof.
  destruct st as [c [x0 y0 x1 y1 e s l] t d ts ps i].
  unfold set_keepout_state. cbn.
  destruct e, b1, b2, s, s1, s2; reflexivity.
Qed.

(** X2 (edge-triggered rack monitoring): while every poll reads the rack input at
    the level already recorded in [last_pin_state], polling never changes the
    enabled flag, its source, the recorded level, the bounds or the configuration,
    however many polls run: a state set by M960 or by a tool change stays until
    the input changes. *)
Theorem steady_polls_keep_state (hk : hooks) (cs : list call) : forall st : statics,
  forallb (steady_poll (last_pin_state (atci st))) cs = true ->
  atci (run hk st cs) = atci st /\ config (run hk st cs) = config st /\
  tc_macro_running (run hk st cs) = tc_macro_running st.
Proof.
  induction cs as [|c cs IH]; intros st Hs; [cbn; auto|].
  cbn [forallb] in Hs. apply andb_true_iff in Hs. destruct Hs as [Hc Hs].
  assert (Hstep : atci (step hk st c) = atci st /\ config (step hk st c) = config st /\
                  tc_macro_running (step hk st c) = tc_macro_running st).
  { destruct c; try discriminate. cbn [steady_poll] in Hc. cbn [step].
    unfold poll_rack_sensor. cbn [fst].
    destruct (monitor_rack_presence (config st)); [|cbn; auto].
    rewrite Hc. cbn. auto. }
  destruct Hstep as (Ea & Ec & Et).
  change (run hk st (c :: cs)) with (run hk (step hk st c) cs).
  destruct (IH (step hk st c)) as (Fa & Fc & Ft).
  - rewrite Ea. exact Hs.
  - rewrite Fa, Fc, Ft. auto.
Qed.

(** X3 (persistent enable): with the persistent [plugin_enabled] bit clear, no
    sequence of tool-change hooks, polls, M-codes (M960 P1 included) and saves
    makes enforcement active: the configuration stays as it was and both travel
    entry points keep deferring to the previously registered handlers. *)
Theorem runtime_calls_cannot_enable_plugin (hk : hooks) (cs : list call) :
  forall (st : statics) (pos : option (list num)) (target current_position : list num)
         (axes : axes_signals_t) (is_cartesian : bool) (envelope : work_envelope_t),
  forallb (fun c => negb (is_load c)) cs = true ->
  plugin_enabled (config st) = false ->
  config (run hk st cs) = config st /\
  is_keepout_active (run hk st cs) = false /\
  travel_limits_check hk (run hk st cs) pos target axes is_cartesian envelope
  = (chain_check hk target axes is_cartesian envelope, []) /\
  keepout_apply_travel_limits hk (run hk st cs) target current_position envelope
  = (chain_apply hk target current_position envelope, []).
Proof.
  intros st pos target current_position axes is_cartesian envelope Hcs Hoff.
  assert (Hc : config (run hk st cs) = config st) by (apply run_config; exact Hcs).
  assert (Hi : is_keepout_active (run hk st cs) = false).
  { unfold is_keepout_active. rewrite Hc, Hoff. reflexivity. }
  split; [exact Hc|]. split; [exact Hi|].
  apply inactive_passes_through. exact Hi.
Qed.

(** X4 (bounds invariant): every state-writing handler other than a bare
    [atci_restore] keeps the runtime bounds equal to the min/max of the
    configuration in force; so after [atci_load] they stay so along every sequence
    of tool-change hooks, polls, M-codes, saves and further loads. *)
Theorem bounds_stay_normalised (hk : hooks) (cs : list call) :
  (forall st : statics, normalised st -> normalised (run hk st cs)) /\
  (forall (st : statics) (nvs : option atci_config_t),
     normalised (run hk st (On_load nvs :: cs))).
Proof.
  assert (Hrun : forall st : statics, normalised st -> normalised (run hk st cs)).
  { induction cs as [|c cs IH]; intros st Hn; [exact Hn|].
    change (run hk st (c :: cs)) with (run hk (step hk st c) cs).
    apply IH. apply step_normalised. exact Hn. }
  split; [exact Hrun|].
  intros st nvs. change (run hk st (On_load nvs :: cs)) with (run hk (step hk st (On_load nvs)) cs).
  apply Hrun. cbn [step]. apply load_normalised.
Qed.

(** X5 (M-code dispatch): M960 belongs to the plugin alone and every other M-code
    to the previously registered handlers alone.  For M960 the three handlers
    answer the same whatever handlers were registered before, and validation
    clears the P word of the block and nothing else.  For any other code they
    return what the previous handler returns (unsupported, unhandled, nothing when
    there is none) and leave the plugin's state as it was. *)
Theorem mcode_dispatch (hk hk' : hooks) (st : statics) (state : Z) (mcode : Z)
    (gc_block : parser_block_t) :
  (user_mcode gc_block = 960%Z ->
   mcode_check hk 960 = UserMCode_Normal /\
   mcode_validate hk st gc_block = mcode_validate hk' st gc_block /\
   mcode_execute hk st state gc_block = mcode_execute hk' st state gc_block /\
   snd (fst (mcode_validate hk st gc_block))
   = {| user_mcode := 960; words_p := false; values_p := values_p gc_block |})
  /\
  (mcode <> 960%Z -> user_mcode gc_block <> 960%Z ->
   mcode_check hk mcode
   = match user_mcode_check hk with
     | Some check => check mcode
     | None => UserMCode_Unsupported
     end /\
   mcode_validate hk st gc_block
   = match user_mcode_validate hk with
     | Some validate => (validate gc_block, st)
     | None => (Status_Unhandled, gc_block, st)
     end /\
   mcode_execute hk st state gc_block
   = (st, match user_mcode_execute hk with
          | Some execute => execute state gc_block
          | None => []
          end)).
Proof.
  split.
  - intros Hm. unfold mcode_check, mcode_validate, mcode_execute.
    rewrite Hm. cbn [Z.eqb Pos.eqb negb].
    split; [reflexivity|].
    destruct gc_block as [m w v]. cbn in Hm. subst m. cbn.
    destruct w; cbn.
    + destruct (_ && _); cbn; auto.
    + auto.
  - intros Hm Hb. apply Z.eqb_neq in Hm, Hb.
    unfold mcode_check, mcode_validate, mcode_execute. rewrite Hm, Hb. cbn [negb].
    split; [reflexivity|]. split; [|reflexivity].
    destruct (user_mcode_validate hk) as [v|]; [|reflexivity].
    destruct (v gc_block); reflexivity.
Qed.

(** X6 (M960 and enforcement): after M960 with a P word has executed outside check
    mode, enforcement is active exactly when the persistent [plugin_enabled] bit is
    set and P compared equal to 1.0; otherwise (P0, or the plugin not enabled) both
    travel entry points defer to the previously registered handlers. *)
Theorem m960_switches_enforcement (hk : hooks) (st : statics) (state : Z)
    (gc_block : parser_block_t) (pos : option (list num))
    (target current_position : list num) (axes : axes_signals_t)
    (is_cartesian : bool) (envelope : work_envelope_t) :
  user_mcode gc_block = 960%Z -> state <> STATE_CHECK_MODE -> words_p gc_block = true ->
  let st' := fst (mcode_execute hk st state gc_block) in
  is_keepout_active st' = plugin_enabled (config st) && feq (values_p gc_block) fone /\
  (plugin_enabled (config st) && feq (values_p gc_block) fone = false ->
   travel_limits_check hk st' pos target axes is_cartesian envelope
   = (chain_check hk target axes is_cartesian envelope, []) /\
   keepout_apply_travel_limits hk st' target current_position envelope
   = (chain_apply hk target current_position envelope, [])).
Proof.
  intros Hm Hs Hw. cbv zeta.
  unfold mcode_execute. rewrite Hm. apply Z.eqb_neq in Hs. rewrite Hs, Hw.
  cbn [Z.eqb Pos.eqb negb fst].
  destruct (set_keepout_state_sets st (feq (values_p gc_block) fone) SOURCE_COMMAND)
    as [He _].
  destruct (set_keepout_state_frame st (feq (values_p gc_block) fone) SOURCE_COMMAND)
    as (Hc & _).
  assert (Ha : is_keepout_active
                 (set_keepout_state st (feq (values_p gc_block) fone) SOURCE_COMMAND)
               = plugin_enabled (config st) && feq (values_p gc_block) fone).
  { unfold is_keepout_active. rewrite Hc, He. reflexivity. }
  split; [exact Ha|].
  intros Hoff. apply inactive_passes_through. rewrite Ha. exact Hoff.
Qed.

(** X7 (failed read): when the transfer from storage fails, [atci_load] ends with
    the factory defaults (zone 10..50 x 10..50, all flags clear) as configuration
    and as runtime bounds, has written them back to storage once, has armed the
    poller once at 1000 ms, and leaves enforcement inactive, so that both travel
    entry points defer to the previously registered handlers; when the transfer
    succeeds nothing is written to storage. *)
Theorem load_failure_restores_defaults (hk : hooks) (st : statics)
    (c : atci_config_t) (pos : option (list num))
    (target current_position : list num) (axes : axes_signals_t)
    (is_cartesian : bool) (envelope : work_envelope_t) :
  let r := atci_load st None in
  (config (fst r) = default_config /\
   snd r = [Memcpy_to_nvs default_config; Task_add_delayed 1000] /\
   rt_x_min (atci (fst r)) = fminf (of_int 10) (of_int 50) /\
   rt_x_max (atci (fst r)) = fmaxf (of_int 10) (of_int 50) /\
   rt_y_min (atci (fst r)) = fminf (of_int 10) (of_int 50) /\
   rt_y_max (atci (fst r)) = fmaxf (of_int 10) (of_int 50) /\
   enabled (atci (fst r)) = true /\ source (atci (fst r)) = SOURCE_STARTUP /\
   last_pin_state (atci (fst r)) = false /\ tc_macro_running (fst r) = false /\
   is_keepout_active (fst r) = false /\
   travel_limits_check hk (fst r) pos target axes is_cartesian envelope
   = (chain_check hk target axes is_cartesian envelope, []) /\
   keepout_apply_travel_limits hk (fst r) target current_position envelope
   = (chain_apply hk target current_position envelope, []))
  /\
  snd (atci_load st (Some c)) = [Task_add_delayed 1000].
Proof.
  cbv zeta. split; [|reflexivity].
  pose proof (load_config st None) as Hc. cbn [atci_restore fst] in Hc.
  change (config (set_atci (set_config st _) _)) with default_config in Hc.
  destruct (load_normalised st None) as (N1 & N2 & N3 & N4).
  rewrite Hc in N1, N2, N3, N4. cbn [default_config cfg_x_min cfg_x_max cfg_y_min cfg_y_max]
    in N1, N2, N3, N4.
  assert (Hst : enabled (atci (fst (atci_load st None))) = true /\
                source (atci (fst (atci_load st None))) = SOURCE_STARTUP /\
                last_pin_state (atci (fst (atci_load st None))) = false /\
                tc_macro_running (fst (atci_load st None)) = false).
  { unfold atci_load. cbn [atci_restore fst].
    match goal with
    | |- context [set_keepout_state ?s ?b ?e] =>
        destruct (set_keepout_state_sets s b e) as [E1 E2];
        destruct (set_keepout_state_frame s b e) as (_ & _ & E3)
    end.
    cbn [set_tc_macro_running atci tc_macro_running]. rewrite E1, E2, E3.
    cbn. auto. }
  destruct Hst as (He & Hs & Hl & Ht).
  assert (Ha : is_keepout_active (fst (atci_load st None)) = false).
  { unfold is_keepout_active. rewrite Hc. reflexivity. }
  split; [exact Hc|]. split; [reflexivity|].
  do 4 (split; [assumption|]).
  do 4 (split; [assumption|]).
  split; [exact Ha|].
  apply inactive_passes_through. exact Ha.
Qed.

(** X8 (save/load round trip): [atci_save] writes the configuration to storage
    unchanged, in one transfer; loading that record back, from whatever state,
    gives the same configuration and the same runtime bounds as the save left. *)
Theorem save_then_load_round_trip (st st2 : statics) :
  snd (atci_save st) = [Memcpy_to_nvs (config st)] /\
  config (fst (atci_save st)) = config st /\
  let loaded := fst (atci_load st2 (Some (config st))) in
  config loaded = config st /\
  rt_x_min (atci loaded) = rt_x_min (atci (fst (atci_save st))) /\
  rt_x_max (atci loaded) = rt_x_max (atci (fst (atci_save st))) /\
  rt_y_min (atci loaded) = rt_y_min (atci (fst (atci_save st))) /\
  rt_y_max (atci loaded) = rt_y_max (atci (fst (atci_save st))).
Proof.
  split; [reflexivity|]. split; [reflexivity|]. cbv zeta.
  assert (Hc : config (fst (atci_load st2 (Some (config st)))) = config st)
    by apply load_config.
  destruct (load_normalised st2 (Some (config st))) as (N1 & N2 & N3 & N4).
  destruct (save_normalised st) as (S1 & S2 & S3 & S4).
  rewrite Hc in N1, N2, N3, N4.
  change (config (fst (atci_save st))) with (config st) in S1, S2, S3, S4.
  split; [exact Hc|]. repeat split; congruence.
Qed.

(** X9 (the check path only restricts): whenever [travel_limits_check] returns
    true the previously registered check returned true on the same arguments and
    the plugin reported nothing; whenever the plugin rejects on its own it reports
    exactly one warning, one of "inside zone", "target inside region" and "move
    crosses"; and with enforcement active a destination deep inside the zone is
    rejected from every start, whatever the previous handler says. *)
Theorem check_path_only_restricts (hk : hooks) (st : statics) (pos : option (list num))
    (target : list num) (axes : axes_signals_t) (is_cartesian : bool)
    (envelope : work_envelope_t) :
  let r := travel_limits_check hk st pos target axes is_cartesian envelope in
  (fst r = true ->
   chain_check hk target axes is_cartesian envelope = true /\ snd r = []) /\
  (r = (chain_check hk target axes is_cartesian envelope, []) \/
   r = (false, [warning MSG_INSIDE_ZONE]) \/
   r = (false, [warning MSG_TARGET_IN_ZONE]) \/
   r = (false, [warning MSG_CROSSING])) /\
  (is_keepout_active st = true ->
   deep_inside_at (atci st) (axis target X_AXIS) (axis target Y_AXIS) = true ->
   fst r = false).
Proof.
  cbv zeta. unfold travel_limits_check, warning.
  destruct (is_keepout_active st); cbn [negb].
  - destruct (deep_inside_at (atci st) (axis target X_AXIS) (axis target Y_AXIS)).
    + destruct (_ || _); cbn; repeat split; auto; discriminate.
    + destruct (line_intersects_keepout _ _ _ _ _).
      * destruct (deep_inside_at _ _ _); [|destruct (technically_inside_at _ _ _)];
          cbn; repeat split; auto; discriminate.
      * cbn. repeat split; auto; discriminate.
  - cbn. repeat split; auto; discriminate.
Qed.

(** X10 (message context): with enforcement active, a start that is technically
    inside the zone (boundary included) gets no other message than "inside zone"
    from either entry point; from a start that is neither technically nor deep
    inside, the check path says "target inside region" for a destination deep
    inside and "move crosses" otherwise, and the apply path says "blocked at
    keepout boundary". *)
Theorem message_follows_start (hk : hooks) (st : statics) (pos : option (list num))
    (target current_position : list num) (axes : axes_signals_t)
    (is_cartesian : bool) (envelope : work_envelope_t) :
  is_keepout_active st = true ->
  let x0 := match pos with Some p => axis p X_AXIS | None => fzero end in
  let y0 := match pos with Some p => axis p Y_AXIS | None => fzero end in
  let cx := axis current_position X_AXIS in
  let cy := axis current_position Y_AXIS in
  let chk := snd (travel_limits_check hk st pos target axes is_cartesian envelope) in
  let app := snd (keepout_apply_travel_limits hk st target current_position envelope) in
  (technically_inside_at (atci st) x0 y0 = true ->
   chk = [] \/ chk = [warning MSG_INSIDE_ZONE]) /\
  (technically_inside_at (atci st) cx cy = true ->
   app = [] \/ app = [warning MSG_INSIDE_ZONE]) /\
  (technically_inside_at (atci st) x0 y0 = false ->
   deep_inside_at (atci st) x0 y0 = false ->
   chk = [] \/
   chk = [warning (if deep_inside_at (atci st) (axis target X_AXIS) (axis target Y_AXIS)
                   then MSG_TARGET_IN_ZONE else MSG_CROSSING)]) /\
  (technically_inside_at (atci st) cx cy = false ->
   deep_inside_at (atci st) cx cy = false ->
   app = [] \/ app = [warning MSG_BLOCKED_AT_WALL]).
Proof.
  intros Hact. cbv zeta.
  unfold travel_limits_check, keepout_apply_travel_limits, warning.
  rewrite Hact. cbn [negb].
  split; [|split; [|split]].
  - intros Ht. rewrite Ht.
    destruct (deep_inside_at (atci st) (axis target X_AXIS) (axis target Y_AXIS)).
    + rewrite orb_true_r. auto.
    + destruct (line_intersects_keepout _ _ _ _ _); [|auto].
      destruct (deep_inside_at _ _ _); auto.
  - intros Ht. rewrite Ht.
    destruct (deep_inside_at (atci st) (axis current_position X_AXIS) _); [auto|].
    destruct (_ || _); [|auto].
    destruct (calculate_clipped_point _ _ _ _) as [[|] out]; auto.
  - intros Ht Hd. rewrite Ht, Hd. cbn [orb].
    destruct (deep_inside_at (atci st) (axis target X_AXIS) (axis target Y_AXIS)); [auto|].
    destruct (line_intersects_keepout _ _ _ _ _); auto.
  - intros Ht Hd. rewrite Ht, Hd.
    destruct (_ || _); [|auto].
    destruct (calculate_clipped_point _ _ _ _) as [[|] out]; auto.
Qed.

(** X11 (size of the realtime flag string): the string built in the 16-char local
    array always starts with the provenance letter and has between one and seven
    characters, so the terminating NUL is stored at index 7 at most. *)
Theorem realtime_flags_fit (st : statics) (flags0 : list ascii) :
  length flags0 = 16%nat ->
  (1 <= String.length (c_string (realtime_flags st flags0)) <= 7)%nat /\
  String.get 0 (c_string (realtime_flags st flags0))
  = Some (spec_provenance_char (source (atci st))) /\
  length (realtime_flags st flags0) = 16%nat.
Proof.
  intros Hlen.
  do 16 (destruct flags0 as [|? flags0]; [discriminate|]).
  destruct flags0; [|discriminate].
  unfold realtime_flags.
  destruct (source (atci st)), (enabled (atci st)),
    (monitor_rack_presence (config st) && last_pin_state (atci st)),
    (drawbar_state st), (tool_sensor_state st), (pressure_sensor_state st),
    (inside_keepout_zone st); cbn; repeat split; lia.
Qed.

(** X12 (restore switches enforcement off): [atci_restore], from any state, writes
    the factory defaults to storage once and leaves the persistent enable bit
    clear; until the next load, no sequence of tool-change hooks, polls, M-codes and
    saves makes enforcement active again, so both travel entry points defer to the
    previously registered handlers whatever the runtime bounds are. *)
Theorem restore_switches_enforcement_off (hk : hooks) (st : statics) (cs : list call)
    (pos : option (list num)) (target current_position : list num)
    (axes : axes_signals_t) (is_cartesian : bool) (envelope : work_envelope_t) :
  forallb (fun c => negb (is_load c)) cs = true ->
  let st' := run hk (fst (atci_restore st)) cs in
  snd (atci_restore st) = [Memcpy_to_nvs default_config] /\
  config st' = default_config /\
  is_keepout_active st' = false /\
  travel_limits_check hk st' pos target axes is_cartesian envelope
  = (chain_check hk target axes is_cartesian envelope, []) /\
  keepout_apply_travel_limits hk st' target current_position envelope
  = (chain_apply hk target current_position envelope, []).
Proof.
  intros Hcs. cbv zeta.
  assert (Hc : config (run hk (fst (atci_restore st)) cs) = default_config).
  { rewrite run_config by exact Hcs. reflexivity. }
  assert (Hi : is_keepout_active (run hk (fst (atci_restore st)) cs) = false).
  { unfold is_keepout_active. rewrite Hc. reflexivity. }
  split; [reflexivity|]. split; [exact Hc|]. split; [exact Hi|].
  apply inactive_passes_through. exact Hi.
Qed.

(** The statics after a poll, field by field: only the runtime record can differ
    from what the inputs dictate, and with rack monitoring on it records the level
    just read. *)
Lemma poll_shape (st : statics) (aux7 aux0 aux1 aux2 : bool) (pos : option (list num)) :
  exists a1 : atci_rt_t,
    fst (poll_rack_sensor st aux7 aux0 aux1 aux2 pos)
    = {| config := config st; atci := a1; tc_macro_running := tc_macro_running st;
         drawbar_state := negb aux0; tool_sensor_state := negb aux1;
         pressure_sensor_state := negb aux2;
         inside_keepout_zone :=
           match pos with
           | Some p => technically_inside_at a1 (axis p X_AXIS) (axis p Y_AXIS)
           | None => false
           end |} /\
    (monitor_rack_presence (config st) = true -> last_pin_state a1 = negb aux7).
Proof.
  unfold poll_rack_sensor. cbn [fst].
  destruct (monitor_rack_presence (config st)) eqn:M.
  - destruct (negb (Bool.eqb (negb aux7) (last_pin_state (atci st)))) eqn:E.
    + set (s1 := set_keepout_state (set_last_pin_state st (negb aux7)) (negb aux7)
                   SOURCE_RACK).
      destruct (set_keepout_state_frame (set_last_pin_state st (negb aux7)) (negb aux7)
                  SOURCE_RACK) as (Ec & Et & El).
      fold s1 in Ec, Et, El. cbn in Ec, Et, El.
      exists (atci s1). rewrite Ec, Et. split; [reflexivity | intros _; exact El].
    + exists (atci st). split; [reflexivity|]. intros _.
      apply negb_false_iff in E. apply eqb_prop in E. symmetry. exact E.
  - exists (atci st). split; [reflexivity | discriminate].
Qed.

(** X13 (polling is idempotent): a second poll that reads the same inputs and the
    same planner position as the one before it leaves every static variable as the
    first left it; each poll re-arms itself exactly once, 100 ms later. *)
Theorem poll_is_idempotent (st : statics) (aux7 aux0 aux1 aux2 : bool)
    (pos : option (list num)) :
  let once := poll_rack_sensor st aux7 aux0 aux1 aux2 pos in
  poll_rack_sensor (fst once) aux7 aux0 aux1 aux2 pos = once /\
  snd once = [Task_add_delayed 100].
Proof.
  cbv zeta. split; [|reflexivity].
  destruct (poll_shape st aux7 aux0 aux1 aux2 pos) as (a1 & E1 & Hl).
  rewrite (surjective_pairing (poll_rack_sensor st aux7 aux0 aux1 aux2 pos)) at 2.
  change (snd (poll_rack_sensor st aux7 aux0 aux1 aux2 pos)) with [Task_add_delayed 100].
  rewrite E1. unfold poll_rack_sensor. cbn [config atci last_pin_state].
  destruct (monitor_rack_presence (config st)); [|reflexivity].
  rewrite (Hl eq_refl). rewrite eqb_reflx. reflexivity.
Qed.

Lemma set_keepout_state_sensors (st : statics) b s :
  drawbar_state (set_keepout_state st b s) = drawbar_state st /\
  tool_sensor_state (set_keepout_state st b s) = tool_sensor_state st /\
  pressure_sensor_state (set_keepout_state st b s) = pressure_sensor_state st /\
  inside_keepout_zone (set_keepout_state st b s) = inside_keepout_zone st.
Proof. unfold set_keepout_state. destruct (_ || _); cbn; auto. Qed.

(** X21 (state after a load): whatever the state before, [atci_load] leaves the
    runtime flag enabled with source Startup and the macro flag clear, so that
    enforcement is active exactly when the configuration read from storage has
    [plugin_enabled] set (never after a failed read); a successful load keeps the
    recorded rack level, the sensor states and the inside-zone marker as they
    were, a failed one resets the recorded rack level. *)
Theorem load_sets_startup_state (st : statics) (nvs : option atci_config_t) :
  let st' := fst (atci_load st nvs) in
  enabled (atci st') = true /\ source (atci st') = SOURCE_STARTUP /\
  tc_macro_running st' = false /\
  is_keepout_active st'
  = match nvs with Some c => plugin_enabled c | None => false end /\
  last_pin_state (atci st')
  = match nvs with Some _ => last_pin_state (atci st) | None => false end /\
  drawbar_state st' = drawbar_state st /\
  tool_sensor_state st' = tool_sensor_state st /\
  pressure_sensor_state st' = pressure_sensor_state st /\
  inside_keepout_zone st' = inside_keepout_zone st.
Proof.
  cbv zeta. unfold atci_load.
  assert (Hfirst : exists st1 e,
            match nvs with
            | Some c => (set_config st c, [])
            | None => atci_restore st
            end = (st1, e) /\
            plugin_enabled (config st1)
            = match nvs with Some c => plugin_enabled c | None => false end /\
            last_pin_state (atci st1)
            = match nvs with Some _ => last_pin_state (atci st) | None => false end /\
            drawbar_state st1 = drawbar_state st /\
            tool_sensor_state st1 = tool_sensor_state st /\
            pressure_sensor_state st1 = pressure_sensor_state st /\
            inside_keepout_zone st1 = inside_keepout_zone st).
  { destruct nvs as [c|]; eexists _, _; (split; [reflexivity|]); cbn; auto 10. }
  destruct Hfirst as (st1 & e & -> & Hp & Hl & S1 & S2 & S3 & S4).
  cbn [fst].
  destruct (set_keepout_state_sets (keepout_set st1) true SOURCE_STARTUP) as [E1 E2].
  destruct (set_keepout_state_frame (keepout_set st1) true SOURCE_STARTUP)
    as (Ec & _ & El).
  destruct (set_keepout_state_sensors (keepout_set st1) true SOURCE_STARTUP)
    as (T1 & T2 & T3 & T4).
  unfold is_keepout_active.
  cbn [set_tc_macro_running atci tc_macro_running config drawbar_state tool_sensor_state
       pressure_sensor_state inside_keepout_zone].
  rewrite E1, E2, Ec, El, T1, T2, T3, T4.
  cbn [keepout_set set_atci config atci last_pin_state drawbar_state tool_sensor_state
       pressure_sensor_state inside_keepout_zone].
  rewrite Hp, Hl, S1, S2, S3, S4, andb_true_r. repeat split; reflexivity.
Qed.

Lemma technically_inside_same_bounds (a a' : atci_rt_t) (x y : num) :
  rt_x_min a' = rt_x_min a -> rt_x_max a' = rt_x_max a ->
  rt_y_min a' = rt_y_min a -> rt_y_max a' = rt_y_max a ->
  technically_inside_at a' x y = technically_inside_at a x y.
Proof. unfold technically_inside_at. intros -> -> -> ->. reflexivity. Qed.

(** The inside-zone marker after a poll is the technical test on the bounds,
    which the poll does not change. *)
Lemma poll_inside_flag (st : statics) (aux7 aux0 aux1 aux2 : bool) (pos : list num) :
  inside_keepout_zone (fst (poll_rack_sensor st aux7 aux0 aux1 aux2 (Some pos)))
  = technically_inside_at (atci st) (axis pos X_AXIS) (axis pos Y_AXIS).
Proof.
  destruct (poll_zone st aux7 aux0 aux1 aux2 (Some pos)) as (_ & E1 & E2 & E3 & E4).
  rewrite <- (technically_inside_same_bounds _ _ _ _ E1 E2 E3 E4).
  unfold poll_rack_sensor. cbn [fst inside_keepout_zone atci]. reflexivity.
Qed.

End HandlerProperties.

(** ** The travel handlers in single precision *)

Section Binary32Signs.
Local Open Scope Z_scope.

Lemma signed_as_not_negative (r : spec_float) :
  signed_as false r -> not_negative r = true.
Proof. intros [->|[->|(m & e & ->)]]; reflexivity. Qed.

Lemma binary_round_sign (s : bool) (m : positive) (e : Z) :
  signed_as s (binary_round 24 128 s m e).
Proof.
  unfold binary_round.
  destruct (shl_align m e (fexp 24 128 (Zpos (digits2_pos m) + e))) as [mz ez].
  apply binary_round_aux_signed. lia.
Qed.

(** The difference of two numbers in order is not negative: rounding never
    crosses zero. *)
Lemma SFsub_not_negative (x lo : spec_float) :
  valid_binary 24 128 x = true -> valid_binary 24 128 lo = true ->
  SFleb lo x = true -> not_negative (SFsub 24 128 x lo) = true.
Proof.
  intros Vx Vl Hle.
  destruct x as [sx|sx| |sx mx ex], lo as [sl|sl| |sl ml el];
    try (destruct sx, sl; cbn in Hle |- *; solve [discriminate | reflexivity]);
    try (destruct sx; cbn in Hle |- *; solve [discriminate | reflexivity]);
    try (destruct sl; cbn in Hle |- *; solve [discriminate | reflexivity]);
    try (cbn in Hle; discriminate).
  assert (Nx : num32 (S754_finite sx mx ex) = true)
    by (unfold num32; rewrite Vx; reflexivity).
  assert (Nl : num32 (S754_finite sl ml el) = true)
    by (unfold num32; rewrite Vl; reflexivity).
  apply (leb_value _ _ Nl Nx) in Hle.
  destruct (valid_exp sx mx ex Vx) as [Hex _].
  destruct (valid_exp sl ml el Vl) as [Hel _].
  cbn [SFsub]. set (ez := Z.min ex el).
  assert (HD : (cond_Zopp sx (Zpos (fst (shl_align mx ex ez))) -
                cond_Zopp sl (Zpos (fst (shl_align ml el ez)))) * 2 ^ (ez + 149)
               = V (S754_finite sx mx ex) - V (S754_finite sl ml el)).
  { rewrite Z.mul_sub_distr_r. rewrite !aligned_value by (unfold ez; lia). reflexivity. }
  assert (Hp : 0 < 2 ^ (ez + 149)) by (apply pow2_pos; unfold ez; lia).
  set (z := cond_Zopp sx (Zpos (fst (shl_align mx ex ez))) -
            cond_Zopp sl (Zpos (fst (shl_align ml el ez)))) in *.
  assert (Hz : 0 <= z) by nia.
  destruct z as [|m|m]; [reflexivity| |lia].
  cbn [binary_normalize]. apply signed_as_not_negative. apply binary_round_sign.
Qed.

(** What is not negative does not compare below zero ... *)
Lemma not_negative_ltb_zero (q : spec_float) :
  not_negative q = true -> SFltb q (S754_zero false) = false.
Proof. destruct q as [[]|[]| |[] m e]; try discriminate; reflexivity. Qed.

(** ... and its quotient by what compares below zero does not compare above. *)
Lemma SFdiv_by_negative (q p : spec_float) :
  not_negative q = true -> SFltb p (S754_zero false) = true ->
  SFltb (S754_zero false) (SFdiv 24 128 q p) = false.
Proof.
  intros Hq Hp.
  destruct p as [sp|sp| |sp mp ep]; try (destruct sp; discriminate); try discriminate.
  - (* p = -infinity *)
    destruct sp; [|discriminate].
    destruct q as [[]|[]| |[] mq eq]; try discriminate; reflexivity.
  - (* p a negative number *)
    destruct sp; [|discriminate].
    destruct q as [[]|[]| |[] mq eq]; try discriminate; try reflexivity.
    apply ltb_zero_neg.
    change true with (xorb false true). apply SFdiv_finite_signed.
Qed.

End Binary32Signs.

Section Binary32Escape.
Local Open Scope Z_scope.

Lemma binary_round_nonzero (s : bool) (m : positive) (e : Z) :
  -149 <= e -> nonzero_as s (binary_round 24 128 s m e).
Proof.
  intros He. unfold binary_round.
  destruct (shl_align_spec m e (fexp 24 128 (Zpos (digits2_pos m) + e))) as [Hez Hmz].
  destruct (shl_align m e (fexp 24 128 (Zpos (digits2_pos m) + e))) as [mz ez].
  cbn [fst snd] in Hez, Hmz.
  apply binary_round_aux_nonzero; [lia|].
  rewrite Hmz, <- Hez.
  assert (-149 <= ez).
  { rewrite Hez. rewrite fexp32_eq. unfold fexp32. lia. }
  rewrite Zdigits2_mul_pow2 by lia.
  pose proof (Zdigits2_pos (Zpos m) ltac:(lia)). lia.
Qed.

(** The difference of two data in strict order has the sign of the order and is
    not zero, in both directions. *)
Lemma SFsub_strict_sign (a b : spec_float) :
  valid_binary 24 128 a = true -> valid_binary 24 128 b = true ->
  SFltb a b = true ->
  nonzero_as true (SFsub 24 128 a b) /\ nonzero_as false (SFsub 24 128 b a).
Proof.
  intros Va Vb Hlt.
  destruct a as [sa|sa| |sa ma ea]; destruct b as [sb|sb| |sb mb eb];
    try solve [ repeat (match goal with s : bool |- _ => destruct s end);
                cbn in Hlt;
                first [ discriminate | unfold nonzero_as; cbn; split; eauto ] ].
  assert (Na : num32 (S754_finite sa ma ea) = true)
    by (unfold num32; rewrite Va; reflexivity).
  assert (Nb : num32 (S754_finite sb mb eb) = true)
    by (unfold num32; rewrite Vb; reflexivity).
  apply (ltb_value _ _ Na Nb) in Hlt.
  destruct (valid_exp sa ma ea Va) as [Hea _].
  destruct (valid_exp sb mb eb Vb) as [Heb _].
  cbn [SFsub]. rewrite (Z.min_comm eb ea). set (ez := Z.min ea eb).
  assert (Ha : cond_Zopp sa (Zpos (fst (shl_align ma ea ez))) * 2 ^ (ez + 149)
               = V (S754_finite sa ma ea)) by (apply aligned_value; unfold ez; lia).
  assert (Hb : cond_Zopp sb (Zpos (fst (shl_align mb eb ez))) * 2 ^ (ez + 149)
               = V (S754_finite sb mb eb)) by (apply aligned_value; unfold ez; lia).
  assert (Hp : 0 < 2 ^ (ez + 149)) by (apply pow2_pos; unfold ez; lia).
  assert (Hez : -149 <= ez) by (unfold ez; lia).
  set (za := cond_Zopp sa (Zpos (fst (shl_align ma ea ez)))) in *.
  set (zb := cond_Zopp sb (Zpos (fst (shl_align mb eb ez)))) in *.
  assert (Hz : za < zb) by nia.
  split.
  - destruct (za - zb) as [|m|m] eqn:E; try lia.
    cbn [binary_normalize]. apply binary_round_nonzero. exact Hez.
  - destruct (zb - za) as [|m|m] eqn:E; try lia.
    cbn [binary_normalize]. apply binary_round_nonzero. exact Hez.
Qed.

Lemma SFsub_equal (a b : spec_float) :
  num32 a = true -> num32 b = true -> SFeqb a b = true ->
  exists s, SFsub 24 128 a b = S754_zero s.
Proof.
  intros Na Nb He.
  destruct a as [sa|sa| |sa ma ea], b as [sb|sb| |sb mb eb]; try discriminate.
  - destruct sa, sb; cbn; eauto.
  - destruct sb; cbn in He; discriminate.
  - destruct sa; cbn in He; discriminate.
  - apply (eqb_value _ _ Na Nb) in He.
    destruct (valid_exp sa ma ea (num32_finite _ _ _ Na)) as [Hea _].
    destruct (valid_exp sb mb eb (num32_finite _ _ _ Nb)) as [Heb _].
    cbn [SFsub]. set (ez := Z.min ea eb).
    assert (Ha : cond_Zopp sa (Zpos (fst (shl_align ma ea ez))) * 2 ^ (ez + 149)
                 = V (S754_finite sa ma ea)) by (apply aligned_value; unfold ez; lia).
    assert (Hb : cond_Zopp sb (Zpos (fst (shl_align mb eb ez))) * 2 ^ (ez + 149)
                 = V (S754_finite sb mb eb)) by (apply aligned_value; unfold ez; lia).
    assert (Hp : 0 < 2 ^ (ez + 149)) by (apply pow2_pos; unfold ez; lia).
    set (za := cond_Zopp sa (Zpos (fst (shl_align ma ea ez)))) in *.
    set (zb := cond_Zopp sb (Zpos (fst (shl_align mb eb ez)))) in *.
    assert (Hz : za - zb = 0) by nia.
    rewrite Hz. exists false. reflexivity.
Qed.

Lemma leb_cases (a b : spec_float) :
  SFleb a b = true -> SFltb a b = true \/ SFeqb a b = true.
Proof.
  unfold SFleb, SFltb, SFeqb. destruct (SFcompare a b) as [[]|]; auto; discriminate.
Qed.

(** The distance from a wall to a number on or beyond it is a number that is zero
    or negative. *)
Lemma SFsub_nonpos_number (a b : spec_float) :
  num32 a = true -> num32 b = true -> SFleb a b = true ->
  Z.abs (V a - V b) < overflow_threshold ->
  nonpos_number (SFsub 24 128 a b) = true.
Proof.
  intros Na Nb Hle Hsmall.
  pose proof (SFsub_finite a b Na Nb Hsmall) as Nr.
  destruct (leb_cases _ _ Hle) as [Hlt | Heq].
  - assert (Va : valid_binary 24 128 a = true)
      by (unfold num32 in Na; apply andb_true_iff in Na; tauto).
    assert (Vb : valid_binary 24 128 b = true)
      by (unfold num32 in Nb; apply andb_true_iff in Nb; tauto).
    destruct (SFsub_strict_sign a b Va Vb Hlt) as [[E | (m & e & E)] _];
      rewrite E in *; [discriminate | reflexivity].
  - destruct (SFsub_equal a b Na Nb Heq) as [s ->]. reflexivity.
Qed.

Lemma nonzero_as_positive (r : spec_float) : nonzero_as false r -> positive32 r = true.
Proof. intros [->|(m & e & ->)]; reflexivity. Qed.

Lemma nonzero_as_opp_positive (r : spec_float) :
  nonzero_as true r -> positive32 (SFopp r) = true.
Proof. intros [->|(m & e & ->)]; reflexivity. Qed.

(** *** The clipping interval under a closing edge *)

Lemma raise_nonneg (t0 r : spec_float) :
  nonneg32 t0 = true -> nonneg32 (if SFltb t0 r then r else t0) = true.
Proof.
  intros H0. destruct (SFltb t0 r) eqn:E; [|exact H0].
  destruct t0 as [[]|[]| |[] ? ?], r as [[]|[]| |[] ? ?];
    try discriminate; reflexivity.
Qed.

Lemma lower_nonpos (t1 r : spec_float) :
  nonpos32 t1 = true -> nonpos32 (if SFltb r t1 then r else t1) = true.
Proof.
  intros H1. destruct (SFltb r t1) eqn:E; [|exact H1].
  destruct t1 as [[]|[]| |[] ? ?], r as [[]|[]| |[] ? ?];
    try discriminate; reflexivity.
Qed.

Lemma lower_not_nan (t1 r : spec_float) :
  Binary32.is_nan t1 = false ->
  Binary32.is_nan (if SFltb r t1 then r else t1) = false.
Proof.
  intros H1. destruct (SFltb r t1) eqn:E; [|exact H1].
  destruct r; try reflexivity. destruct t1; discriminate.
Qed.

Lemma lower_to_nonpos (t1 r : spec_float) :
  nonpos32 r = true -> Binary32.is_nan t1 = false ->
  nonpos32 (if SFltb r t1 then r else t1) = true.
Proof.
  intros Hr H1. destruct (SFltb r t1) eqn:E; [exact Hr|].
  destruct t1 as [[]|[]| |[] ? ?], r as [[]|[]| |[] ? ?];
    try discriminate; reflexivity.
Qed.

Lemma closing_quotient (p q : spec_float) :
  positive32 p = true -> nonpos_number q = true ->
  nonpos32 (SFdiv 24 128 q p) = true.
Proof.
  intros Hp Hq.
  destruct p as [[]|[]| |[] mp ep], q as [[]|[]| |[] mq eq];
    try discriminate; try reflexivity.
  destruct (SFdiv_finite_signed true false mq mp eq ep) as [E | [E | (m & e & E)]];
    cbn [xorb] in E; rewrite E; reflexivity.
Qed.

Lemma positive_tests (p : spec_float) :
  positive32 p = true ->
  SFeqb p (S754_zero false) = false /\ SFltb p (S754_zero false) = false.
Proof. destruct p as [[]|[]| |[] mp ep]; try discriminate; split; reflexivity. Qed.

Lemma disjoint_at_zero (a b : spec_float) :
  nonneg32 a = true -> nonpos32 b = true -> SFltb a b = false.
Proof.
  destruct a as [[]|[]| |[] ? ?], b as [[]|[]| |[] ? ?];
    try discriminate; reflexivity.
Qed.

End Binary32Escape.

Section SinglePrecisionTravel.
Context {H : Host}.
Local Existing Instance binary32.
Local Open Scope Z_scope.

(** When no distance to a wall is negative, the entry parameter never moves. *)
Lemma clip_loop_entry_stays_b32 (pq : list (spec_float * spec_float)) :
  Forall (fun e => not_negative (snd e) = true) pq ->
  forall t1, clip_loop (A := binary32) pq fzero t1 = None \/
             exists t1', clip_loop (A := binary32) pq fzero t1 = Some (fzero, t1').
Proof.
  induction 1 as [|[p q] rest Hq Hrest IH]; intros t1.
  - right. exists t1. reflexivity.
  - cbn [snd] in Hq. cbn [clip_loop]. cbn [feq flt fdiv binary32].
    unfold Binary32.prec, Binary32.emax. rewrite fzero_b32.
    destruct (SFeqb p (S754_zero false)).
    + rewrite (not_negative_ltb_zero q Hq). rewrite <- fzero_b32. apply IH.
    + destruct (SFltb p (S754_zero false)) eqn:Lp.
      * destruct (SFltb t1 (SFdiv 24 128 q p)); [left; reflexivity|].
        rewrite (SFdiv_by_negative q p Hq Lp). rewrite <- fzero_b32. apply IH.
      * destruct (SFltb (SFdiv 24 128 q p) (S754_zero false)); [left; reflexivity|].
        rewrite <- fzero_b32. apply IH.
Qed.

Lemma inside_edges_b32 (a : atci_rt_t) (x0 y0 x1 y1 : spec_float) :
  valid_binary 24 128 (rt_x_min a) = true -> valid_binary 24 128 (rt_x_max a) = true ->
  valid_binary 24 128 (rt_y_min a) = true -> valid_binary 24 128 (rt_y_max a) = true ->
  valid_binary 24 128 x0 = true -> valid_binary 24 128 y0 = true ->
  technically_inside_at a x0 y0 = true ->
  Forall (fun e => not_negative (snd e) = true) (clip_edges a x0 y0 x1 y1).
Proof.
  intros V1 V2 V3 V4 Vx Vy Hin.
  unfold technically_inside_at in Hin. cbn [fle binary32] in Hin.
  apply andb_true_iff in Hin. destruct Hin as [Hin I4].
  apply andb_true_iff in Hin. destruct Hin as [Hin I3].
  apply andb_true_iff in Hin. destruct Hin as [I1 I2].
  unfold clip_edges. cbn [fsub fneg binary32]. unfold Binary32.prec, Binary32.emax.
  repeat constructor; cbn [snd]; apply SFsub_not_negative; assumption.
Qed.

(** X17 (no clipping from inside), in binary32: from a start that is technically
    inside the zone (boundary lines included), [calculate_clipped_point] returns
    false and leaves its output array untouched, for every destination; so the
    apply path, when enforcement is active, either hands the move on unchanged or
    holds the tool at the current position with the "inside zone" message.  It
    never replaces the target by a clipped point. *)
Theorem inside_start_is_never_clipped (hk : hooks) (st : statics)
    (target current_position buf : list num) (envelope : work_envelope_t) :
  valid_binary 24 128 (rt_x_min (atci st)) = true ->
  valid_binary 24 128 (rt_x_max (atci st)) = true ->
  valid_binary 24 128 (rt_y_min (atci st)) = true ->
  valid_binary 24 128 (rt_y_max (atci st)) = true ->
  valid_binary 24 128 (axis current_position X_AXIS) = true ->
  valid_binary 24 128 (axis current_position Y_AXIS) = true ->
  technically_inside_at (atci st) (axis current_position X_AXIS)
    (axis current_position Y_AXIS) = true ->
  calculate_clipped_point st current_position target buf = (false, buf) /\
  (is_keepout_active st = true ->
   length target = N_AXIS -> length current_position = N_AXIS ->
   keepout_apply_travel_limits hk st target current_position envelope
   = (chain_apply hk target current_position envelope, []) \/
   keepout_apply_travel_limits hk st target current_position envelope
   = ((current_position, current_position), [warning MSG_INSIDE_ZONE])).
Proof.
  intros V1 V2 V3 V4 Vx Vy Hin.
  assert (Hclip : forall b, calculate_clipped_point st current_position target b
                            = (false, b)).
  { intros b. unfold calculate_clipped_point.
    pose proof (@inside_edges_b32 (atci st) _ _ (axis target X_AXIS)
                  (axis target Y_AXIS) V1 V2 V3 V4 Vx Vy Hin) as He.
    destruct (clip_loop_entry_stays_b32 He fone) as [-> | (t1' & ->)]; [reflexivity|].
    cbn [flt binary32]. rewrite fzero_b32. reflexivity. }
  split; [apply Hclip|].
  intros Hact Ht Hc. unfold keepout_apply_travel_limits, warning.
  rewrite Hact. cbn [negb]. rewrite Hin.
  destruct (deep_inside_at (atci st) (axis current_position X_AXIS) _).
  { right. rewrite memcpy_whole; auto. }
  destruct (_ || _); [|left; reflexivity].
  rewrite Hclip. right. rewrite memcpy_whole; auto.
Qed.

(** One coordinate: more than the tolerance past both bounds means, with the
    rounding of [lo + 0.5] and [hi - 0.5] counted in, strictly between them. *)
Lemma deep_margin (lo hi c : spec_float) :
  within settings_limit lo = true -> within settings_limit hi = true ->
  valid_binary 24 128 c = true ->
  SFltb (SFadd 24 128 lo half32) c = true ->
  SFltb c (SFsub 24 128 hi half32) = true ->
  num32 lo = true /\ num32 hi = true /\ num32 c = true /\ V lo < V c /\ V c < V hi.
Proof.
  intros Wlo Whi Vc Hlo Hhi.
  destruct (within_spec settings_limit lo eq_refl Wlo) as [Nlo Blo].
  destruct (within_spec settings_limit hi eq_refl Whi) as [Nhi Bhi].
  rewrite V_settings_limit in Blo, Bhi.
  assert (Nh : num32 half32 = true) by reflexivity.
  pose proof V_half32 as Vh.
  assert (E149 : 2 ^ 149 = 1024 * 2 ^ 139) by reflexivity.
  assert (E148 : 2 ^ 148 = 512 * 2 ^ 139) by reflexivity.
  assert (E163 : 2 ^ 163 = 16777216 * 2 ^ 139) by reflexivity.
  assert (PU : 0 < 2 ^ 139) by (apply pow2_pos; lia).
  destruct (SFadd_bounds lo half32 163 Nlo Nh ltac:(lia)) as [Na Ea].
  { rewrite Vh, E163, E148. rewrite E149 in Blo. apply Z.abs_lt. lia. }
  destruct (SFsub_bounds hi half32 163 Nhi Nh ltac:(lia)) as [Ns Es].
  { rewrite Vh, E163, E148. rewrite E149 in Bhi. apply Z.abs_lt. lia. }
  assert (Nc : num32 c = true) by (eapply between_num32; eauto).
  apply (ltb_value _ _ Na Nc) in Hlo. apply (ltb_value _ _ Nc Ns) in Hhi.
  rewrite Vh in Ea, Es. change (2 ^ (163 - 24)) with (2 ^ 139) in Ea, Es.
  apply Z.abs_le in Ea, Es. rewrite E148 in Ea, Es.
  repeat split; auto; lia.
Qed.

(** X18 (the trap is a subset of the zone), in binary32: for bounds in the
    settings range, a position that passes the deep-inside test (more than 0.5
    past every bound, as computed with rounding) also passes the technical test
    on the same bounds; so after a poll at such a position the inside-zone marker
    reported as Z is set. *)
Theorem deep_inside_is_technically_inside (st : statics) (aux7 aux0 aux1 aux2 : bool)
    (pos : list num) :
  zone_in_settings_range (atci st) = true ->
  valid_binary 24 128 (axis pos X_AXIS) = true ->
  valid_binary 24 128 (axis pos Y_AXIS) = true ->
  deep_inside_at (atci st) (axis pos X_AXIS) (axis pos Y_AXIS) = true ->
  technically_inside_at (atci st) (axis pos X_AXIS) (axis pos Y_AXIS) = true /\
  inside_keepout_zone (fst (poll_rack_sensor st aux7 aux0 aux1 aux2 (Some pos))) = true.
Proof.
  intros Hz Vx Vy Hd.
  unfold zone_in_settings_range in Hz.
  apply andb_true_iff in Hz. destruct Hz as [Hz Z4].
  apply andb_true_iff in Hz. destruct Hz as [Hz Z3].
  apply andb_true_iff in Hz. destruct Hz as [Z1 Z2].
  unfold deep_inside_at, KEEPOUT_TOLERANCE in Hd.
  cbn [flt fadd fsub half binary32] in Hd.
  apply andb_true_iff in Hd. destruct Hd as [Hd D4].
  apply andb_true_iff in Hd. destruct Hd as [Hd D3].
  apply andb_true_iff in Hd. destruct Hd as [D1 D2].
  destruct (@deep_margin _ _ _ Z1 Z2 Vx D1 D2) as (N1 & N2 & Nx & X1 & X2).
  destruct (@deep_margin _ _ _ Z3 Z4 Vy D3 D4) as (N3 & N4 & Ny & Y1 & Y2).
  apply Z.lt_le_incl in X1, X2, Y1, Y2.
  apply (leb_value _ _ N1 Nx) in X1. apply (leb_value _ _ Nx N2) in X2.
  apply (leb_value _ _ N3 Ny) in Y1. apply (leb_value _ _ Ny N4) in Y2.
  assert (Ht : technically_inside_at (atci st) (axis pos X_AXIS) (axis pos Y_AXIS) = true).
  { unfold technically_inside_at. cbn [fle binary32]. rewrite X1, X2, Y1, Y2. reflexivity. }
  split; [exact Ht|]. rewrite poll_inside_flag. exact Ht.
Qed.

(** Once the exit parameter is at zero or below, the loop can only end with an
    empty interval. *)
Lemma clip_loop_closed_b32 (pq : list (spec_float * spec_float)) :
  forall t0 t1, nonneg32 t0 = true -> nonpos32 t1 = true ->
  clip_loop (A := binary32) pq t0 t1 = None \/
  exists a b, clip_loop (A := binary32) pq t0 t1 = Some (a, b) /\
              nonneg32 a = true /\ nonpos32 b = true.
Proof.
  induction pq as [|[p q] rest IH]; intros t0 t1 H0 H1.
  - right. exists t0, t1. auto.
  - cbn [clip_loop]. cbn [feq flt fdiv binary32].
    unfold Binary32.prec, Binary32.emax. rewrite fzero_b32.
    destruct (SFeqb p (S754_zero false)).
    + destruct (SFltb q (S754_zero false)); [left; reflexivity | apply IH; auto].
    + destruct (SFltb p (S754_zero false)).
      * destruct (SFltb t1 (SFdiv 24 128 q p)); [left; reflexivity|].
        apply IH; [apply raise_nonneg; exact H0 | exact H1].
      * destruct (SFltb (SFdiv 24 128 q p) t0); [left; reflexivity|].
        apply IH; [exact H0 | apply lower_nonpos; exact H1].
Qed.

(** A closing edge anywhere among the edges empties the interval. *)
Lemma clip_loop_closing_edge_b32 (pq : list (spec_float * spec_float)) :
  Exists closing_edge pq ->
  forall t0 t1, nonneg32 t0 = true -> Binary32.is_nan t1 = false ->
  clip_loop (A := binary32) pq t0 t1 = None \/
  exists a b, clip_loop (A := binary32) pq t0 t1 = Some (a, b) /\
              nonneg32 a = true /\ nonpos32 b = true.
Proof.
  induction 1 as [[p q] rest (Hp & Hq) | [p q] rest Hex IH]; intros t0 t1 H0 H1.
  - cbn [fst snd] in Hp, Hq.
    cbn [clip_loop]. cbn [feq flt fdiv binary32].
    unfold Binary32.prec, Binary32.emax. rewrite fzero_b32.
    destruct (positive_tests p Hp) as [-> ->].
    destruct (SFltb (SFdiv 24 128 q p) t0); [left; reflexivity|].
    apply clip_loop_closed_b32; [exact H0|].
    apply lower_to_nonpos; [apply closing_quotient; assumption | exact H1].
  - cbn [clip_loop]. cbn [feq flt fdiv binary32].
    unfold Binary32.prec, Binary32.emax. rewrite fzero_b32.
    destruct (SFeqb p (S754_zero false)).
    + destruct (SFltb q (S754_zero false)); [left; reflexivity | apply IH; auto].
    + destruct (SFltb p (S754_zero false)).
      * destruct (SFltb t1 (SFdiv 24 128 q p)); [left; reflexivity|].
        apply IH; [apply raise_nonneg; exact H0 | exact H1].
      * destruct (SFltb (SFdiv 24 128 q p) t0); [left; reflexivity|].
        apply IH; [exact H0 | apply lower_not_nan; exact H1].
Qed.

Lemma closing_edge_no_intersection (st : statics) (x0 y0 x1 y1 : spec_float) :
  Exists closing_edge (clip_edges (atci st) x0 y0 x1 y1) ->
  line_intersects_keepout st x0 y0 x1 y1 = false.
Proof.
  intros Hex. unfold line_intersects_keepout.
  destruct (clip_loop_closing_edge_b32 Hex (@fzero binary32) (@fone binary32)
              eq_refl eq_refl)
    as [-> | (a & b & -> & Ha & Hb)]; [reflexivity|].
  cbn [flt binary32]. apply disjoint_at_zero; assumption.
Qed.

(** A number on or beyond a wall that lies in the settings range: its distance
    to the wall does not overflow. *)
Lemma wall_distance_small (a b w : spec_float) :
  num32 a = true -> within settings_limit w = true -> (a = w \/ b = w) ->
  num32 b = true -> Z.abs (V a - V b) < overflow_threshold.
Proof.
  intros Na Ww Hw Nb.
  destruct (within_spec settings_limit w eq_refl Ww) as [Nw Bw].
  rewrite V_settings_limit in Bw.
  pose proof (V_bound a Na) as Ba. pose proof (V_bound b Nb) as Bb.
  unfold overflow_threshold.
  assert (E253 : 2 ^ 253 = 2 * 2 ^ 252) by reflexivity.
  assert (E25 : 2 ^ 25 - 1 = 2 * (2 ^ 24 - 1) + 1) by reflexivity.
  assert (E149 : 10000 * 2 ^ 149 < 2 ^ 252).
  { change (2 ^ 252) with (2 ^ 103 * 2 ^ 149).
    assert (0 < 2 ^ 149) by (apply pow2_pos; lia).
    assert (10000 < 2 ^ 103) by reflexivity. nia. }
  rewrite E25. rewrite E253 in Ba, Bb.
  set (T := 2 ^ 252) in *. set (K := 2 ^ 24 - 1) in *.
  assert (0 <= K) by (unfold K; cbn; lia).
  apply Z.abs_le in Ba, Bb. apply Z.abs_lt.
  destruct Hw as [-> | ->]; nia.
Qed.

Lemma order_num32 (lo x hi : spec_float) :
  valid_binary 24 128 x = true ->
  (SFltb lo x = true \/ (SFleb lo x = true /\ is_fin lo = true)) ->
  (SFltb x hi = true \/ (SFleb x hi = true /\ is_fin hi = true)) ->
  num32 x = true.
Proof.
  intros Vx Hlo Hhi. unfold num32. rewrite Vx. cbn [andb].
  destruct x as [s|s| |s m e]; auto; exfalso.
  - destruct s.
    + destruct Hlo as [Hlo | [Hlo Hf]];
        destruct lo as [[]|[]| |[] ? ?]; cbn in Hlo; try discriminate;
        cbn in Hf; discriminate.
    + destruct Hhi as [Hhi | [Hhi Hf]];
        destruct hi as [[]|[]| |[] ? ?]; cbn in Hhi; try discriminate;
        cbn in Hf; discriminate.
  - destruct Hlo as [Hlo | [Hlo _]]; destruct lo as [[]|[]| |[] ? ?]; discriminate.
Qed.

Lemma deep_inside_values (a : atci_rt_t) (x y : spec_float) :
  zone_in_settings_range a = true ->
  valid_binary 24 128 x = true -> valid_binary 24 128 y = true ->
  deep_inside_at a x y = true ->
  (num32 x = true /\ V (rt_x_min a) < V x /\ V x < V (rt_x_max a)) /\
  (num32 y = true /\ V (rt_y_min a) < V y /\ V y < V (rt_y_max a)).
Proof.
  intros Hz Vx Vy Hd.
  unfold zone_in_settings_range in Hz.
  apply andb_true_iff in Hz. destruct Hz as [Hz Z4].
  apply andb_true_iff in Hz. destruct Hz as [Hz Z3].
  apply andb_true_iff in Hz. destruct Hz as [Z1 Z2].
  unfold deep_inside_at, KEEPOUT_TOLERANCE in Hd.
  cbn [flt fadd fsub half binary32] in Hd.
  apply andb_true_iff in Hd. destruct Hd as [Hd D4].
  apply andb_true_iff in Hd. destruct Hd as [Hd D3].
  apply andb_true_iff in Hd. destruct Hd as [D1 D2].
  destruct (@deep_margin _ _ _ Z1 Z2 Vx D1 D2) as (_ & _ & Nx & X1 & X2).
  destruct (@deep_margin _ _ _ Z3 Z4 Vy D3 D4) as (_ & _ & Ny & Y1 & Y2).
  auto.
Qed.

(** Leaving across the lower wall of one axis. *)
Lemma leaving_low_wall (lo c t : spec_float) :
  within settings_limit lo = true ->
  valid_binary 24 128 c = true -> valid_binary 24 128 t = true ->
  SFleb c lo = true -> SFltb t c = true ->
  closing_edge (SFopp (SFsub 24 128 t c), SFsub 24 128 c lo) /\
  num32 c = true /\ V c <= V lo /\ (num32 t = true -> V t < V lo).
Proof.
  intros Wlo Vc Vt Hle Hlt.
  destruct (within_spec settings_limit lo eq_refl Wlo) as [Nlo _].
  assert (Flo : is_fin lo = true)
    by (unfold num32 in Nlo; apply andb_true_iff in Nlo; tauto).
  assert (Nc : num32 c = true).
  { apply (@order_num32 t c lo Vc); [left; exact Hlt | right; auto]. }
  assert (Hv : V c <= V lo) by (apply (leb_value _ _ Nc Nlo); exact Hle).
  split; [|split; [exact Nc|split; [exact Hv|]]].
  - split; cbn [fst snd].
    + apply nonzero_as_opp_positive. apply (SFsub_strict_sign t c Vt Vc Hlt).
    + apply SFsub_nonpos_number; auto.
      apply (@wall_distance_small c lo lo); auto.
  - intros Nt. apply (ltb_value _ _ Nt Nc) in Hlt. lia.
Qed.

(** Leaving across the upper wall of one axis. *)
Lemma leaving_high_wall (hi c t : spec_float) :
  within settings_limit hi = true ->
  valid_binary 24 128 c = true -> valid_binary 24 128 t = true ->
  SFleb hi c = true -> SFltb c t = true ->
  closing_edge (SFsub 24 128 t c, SFsub 24 128 hi c) /\
  num32 c = true /\ V hi <= V c /\ (num32 t = true -> V hi < V t).
Proof.
  intros Whi Vc Vt Hle Hlt.
  destruct (within_spec settings_limit hi eq_refl Whi) as [Nhi _].
  assert (Fhi : is_fin hi = true)
    by (unfold num32 in Nhi; apply andb_true_iff in Nhi; tauto).
  assert (Nc : num32 c = true).
  { apply (@order_num32 hi c t Vc); [right; auto | left; exact Hlt]. }
  assert (Hv : V hi <= V c) by (apply (leb_value _ _ Nhi Nc); exact Hle).
  split; [|split; [exact Nc|split; [exact Hv|]]].
  - split; cbn [fst snd].
    + apply nonzero_as_positive. apply (SFsub_strict_sign c t Vc Vt Hlt).
    + apply SFsub_nonpos_number; auto.
      apply (@wall_distance_small hi c hi); auto.
  - intros Nt. apply (ltb_value _ _ Nc Nt) in Hlt. lia.
Qed.

(** X20 (jogging away from the zone), in binary32: a move that starts on or
    beyond one of the four boundary lines (on the line included) and whose
    destination lies further out on that axis is never stopped: the intersection
    test answers false, the check path returns what the previous handler returns
    and the apply path hands the arrays on, with no message.  The bounds lie in
    the settings range; the four coordinates are binary32 data. *)
Theorem move_away_from_zone_is_allowed (hk : hooks) (st : statics)
    (target current_position : list num) (axes : axes_signals_t)
    (is_cartesian : bool) (envelope : work_envelope_t) :
  let x0 := axis current_position X_AXIS in
  let y0 := axis current_position Y_AXIS in
  let xt := axis target X_AXIS in
  let yt := axis target Y_AXIS in
  zone_in_settings_range (atci st) = true ->
  valid_binary 24 128 x0 = true -> valid_binary 24 128 y0 = true ->
  valid_binary 24 128 xt = true -> valid_binary 24 128 yt = true ->
  moves_away (atci st) x0 y0 xt yt = true ->
  line_intersects_keepout st x0 y0 xt yt = false /\
  travel_limits_check hk st (Some current_position) target axes is_cartesian envelope
  = (chain_check hk target axes is_cartesian envelope, []) /\
  keepout_apply_travel_limits hk st target current_position envelope
  = (chain_apply hk target current_position envelope, []).
Proof.
  intros x0 y0 xt yt Hz Vx0 Vy0 Vxt Vyt Hmove.
  assert (Hfacts : Exists closing_edge (clip_edges (atci st) x0 y0 xt yt) /\
                   deep_inside_at (atci st) x0 y0 = false /\
                   deep_inside_at (atci st) xt yt = false).
  { pose proof (@deep_inside_values (atci st) x0 y0 Hz Vx0 Vy0) as Ds.
    pose proof (@deep_inside_values (atci st) xt yt Hz Vxt Vyt) as Dt.
    pose proof Hz as Hz'. unfold zone_in_settings_range in Hz'.
    apply andb_true_iff in Hz'. destruct Hz' as [Hz' Z4].
    apply andb_true_iff in Hz'. destruct Hz' as [Hz' Z3].
    apply andb_true_iff in Hz'. destruct Hz' as [Z1 Z2].
    unfold moves_away in Hmove. cbn [fle flt binary32] in Hmove.
    unfold clip_edges. cbn [fsub fneg binary32]. unfold Binary32.prec, Binary32.emax.
    apply orb_true_iff in Hmove. destruct Hmove as [Hmove | W4].
    1: apply orb_true_iff in Hmove; destruct Hmove as [Hmove | W3].
    1: apply orb_true_iff in Hmove; destruct Hmove as [W1 | W2].
    - apply andb_true_iff in W1. destruct W1 as [Hle Hlt].
      destruct (@leaving_low_wall _ _ _ Z1 Vx0 Vxt Hle Hlt) as (Hedge & Nc & Hv & Ht).
      split; [apply Exists_cons_hd; exact Hedge|]. split.
      + destruct (deep_inside_at (atci st) x0 y0); [|reflexivity].
        destruct (Ds eq_refl) as ((_ & ? & _) & _). lia.
      + destruct (deep_inside_at (atci st) xt yt); [|reflexivity].
        destruct (Dt eq_refl) as ((Nt & ? & _) & _). specialize (Ht Nt). lia.
    - apply andb_true_iff in W2. destruct W2 as [Hle Hlt].
      destruct (@leaving_high_wall _ _ _ Z2 Vx0 Vxt Hle Hlt) as (Hedge & Nc & Hv & Ht).
      split; [apply Exists_cons_tl, Exists_cons_hd; exact Hedge|]. split.
      + destruct (deep_inside_at (atci st) x0 y0); [|reflexivity].
        destruct (Ds eq_refl) as ((_ & _ & ?) & _). lia.
      + destruct (deep_inside_at (atci st) xt yt); [|reflexivity].
        destruct (Dt eq_refl) as ((Nt & _ & ?) & _). specialize (Ht Nt). lia.
    - apply andb_true_iff in W3. destruct W3 as [Hle Hlt].
      destruct (@leaving_low_wall _ _ _ Z3 Vy0 Vyt Hle Hlt) as (Hedge & Nc & Hv & Ht).
      split; [apply Exists_cons_tl, Exists_cons_tl, Exists_cons_hd; exact Hedge|]. split.
      + destruct (deep_inside_at (atci st) x0 y0); [|reflexivity].
        destruct (Ds eq_refl) as (_ & (_ & ? & _)). lia.
      + destruct (deep_inside_at (atci st) xt yt); [|reflexivity].
        destruct (Dt eq_refl) as (_ & (Nt & ? & _)). specialize (Ht Nt). lia.
    - apply andb_true_iff in W4. destruct W4 as [Hle Hlt].
      destruct (@leaving_high_wall _ _ _ Z4 Vy0 Vyt Hle Hlt) as (Hedge & Nc & Hv & Ht).
      split; [apply Exists_cons_tl, Exists_cons_tl, Exists_cons_tl, Exists_cons_hd;
              exact Hedge|]. split.
      + destruct (deep_inside_at (atci st) x0 y0); [|reflexivity].
        destruct (Ds eq_refl) as (_ & (_ & _ & ?)). lia.
      + destruct (deep_inside_at (atci st) xt yt); [|reflexivity].
        destruct (Dt eq_refl) as (_ & (Nt & _ & ?)). specialize (Ht Nt). lia. }
  destruct Hfacts as (Hex & Hs & Ht).
  pose proof (closing_edge_no_intersection st Hex) as Hi.
  split; [exact Hi|].
  unfold travel_limits_check, keepout_apply_travel_limits.
  destruct (is_keepout_active st); cbn [negb]; [|split; reflexivity].
  fold x0 y0 xt yt. rewrite Hs, Ht, Hi. split; reflexivity.
Qed.

End SinglePrecisionTravel.

(** * The intersection test and the clipped point in single precision *)

(** ** The order of binary32 data *)

Section Binary32Order.
Local Open Scope Z_scope.

Lemma compare_rank (x y : spec_float) :
  Binary32.is_nan x = false -> Binary32.is_nan y = false ->
  exists c, SFcompare x y = Some c /\
    match c with
    | Lt => rank_lt (rank x) (rank y)
    | Eq => rank x = rank y
    | Gt => rank_lt (rank y) (rank x)
    end.
Proof.
  intros Hx Hy.
  destruct x as [sx|sx| |sx mx ex]; try discriminate;
    destruct y as [sy|sy| |sy my ey]; try discriminate.
  1-8: destruct sx, sy; eexists; (split; [reflexivity|]); cbn; first [reflexivity | lia].
  cbn [SFcompare].
  change (Pos.compare_cont Eq mx my) with (mx ?= my)%positive.
  destruct sx, sy;
    try (eexists; (split; [reflexivity|]); cbn; first [reflexivity | lia]; fail);
    (destruct (Z.compare_spec ex ey); [destruct (Pos.compare_spec mx my)| |]);
    eexists; (split; [reflexivity|]); cbn; first [lia | subst; reflexivity].
Qed.

Lemma ltb_rank (x y : spec_float) :
  Binary32.is_nan x = false -> Binary32.is_nan y = false ->
  (SFltb x y = true <-> rank_lt (rank x) (rank y)).
Proof.
  intros Hx Hy. destruct (compare_rank x y Hx Hy) as (c & E & Hc).
  unfold SFltb. rewrite E.
  destruct (rank x) as [[c1 e1] m1], (rank y) as [[c2 e2] m2].
  destruct c; cbn in Hc |- *; split; intros; try discriminate; try reflexivity;
    try assumption; try (injection Hc as -> -> ->); lia.
Qed.

Lemma leb_rank (x y : spec_float) :
  Binary32.is_nan x = false -> Binary32.is_nan y = false ->
  (SFleb x y = true <-> rank_le (rank x) (rank y)).
Proof.
  intros Hx Hy. destruct (compare_rank x y Hx Hy) as (c & E & Hc).
  unfold SFleb, rank_le. rewrite E.
  destruct (rank x) as [[c1 e1] m1], (rank y) as [[c2 e2] m2].
  destruct c; cbn in Hc |- *; split; intros; try discriminate; try reflexivity; auto.
  destruct H as [H | H]; [lia | injection H as -> -> ->; lia].
Qed.

Lemma ltb_not_nan (x y : spec_float) :
  SFltb x y = true -> Binary32.is_nan x = false /\ Binary32.is_nan y = false.
Proof. destruct x, y; try discriminate; split; reflexivity. Qed.

Lemma leb_not_nan (x y : spec_float) :
  SFleb x y = true -> Binary32.is_nan x = false /\ Binary32.is_nan y = false.
Proof. destruct x, y; try discriminate; split; reflexivity. Qed.

Lemma leb_trans (x y z : spec_float) :
  SFleb x y = true -> SFleb y z = true -> SFleb x z = true.
Proof.
  intros Hxy Hyz.
  destruct (leb_not_nan _ _ Hxy) as [Nx Ny]. destruct (leb_not_nan _ _ Hyz) as [_ Nz].
  apply (leb_rank _ _ Nx Ny) in Hxy. apply (leb_rank _ _ Ny Nz) in Hyz.
  apply (leb_rank _ _ Nx Nz). unfold rank_le in *.
  destruct (rank x) as [[c1 e1] m1], (rank y) as [[c2 e2] m2], (rank z) as [[c3 e3] m3].
  destruct Hxy as [Hxy | Hxy]; [|injection Hxy as -> -> ->; exact Hyz].
  destruct Hyz as [Hyz | Hyz]; [|injection Hyz as <- <- <-; left; exact Hxy].
  left. cbn in *. lia.
Qed.

(** On data other than NaN the order is total. *)
Lemma not_ltb_leb (x y : spec_float) :
  Binary32.is_nan x = false -> Binary32.is_nan y = false ->
  SFltb x y = false -> SFleb y x = true.
Proof.
  intros Nx Ny Hn. apply (leb_rank _ _ Ny Nx).
  assert (Hlt : ~ rank_lt (rank x) (rank y)).
  { intros Hlt. apply (ltb_rank _ _ Nx Ny) in Hlt. congruence. }
  unfold rank_le.
  destruct (rank x) as [[c1 e1] m1], (rank y) as [[c2 e2] m2]. cbn in *.
  destruct (Z.eq_dec c1 c2) as [->|]; [|left; lia].
  destruct (Z.eq_dec e1 e2) as [->|]; [|left; lia].
  destruct (Z.eq_dec m1 m2) as [->|]; [right; reflexivity | left; lia].
Qed.

Lemma leb_not_ltb (x y : spec_float) : SFleb x y = true -> SFltb y x = false.
Proof.
  intros Hle. destruct (leb_not_nan _ _ Hle) as [Nx Ny].
  destruct (SFltb y x) eqn:E; [|reflexivity].
  apply (leb_rank _ _ Nx Ny) in Hle. apply (ltb_rank _ _ Ny Nx) in E.
  unfold rank_le in Hle.
  destruct (rank x) as [[c1 e1] m1], (rank y) as [[c2 e2] m2]. cbn in *.
  destruct Hle as [Hle | Hle]; [lia | injection Hle as -> -> ->; lia].
Qed.

End Binary32Order.

(** ** The interval kept by the clipping loop *)

Section SinglePrecisionInterval.
Context {H : Host}.
Local Existing Instance binary32.
Local Open Scope Z_scope.

Lemma nonneg32_not_nan (t : spec_float) : nonneg32 t = true -> Binary32.is_nan t = false.
Proof. destruct t as [[]|[]| |[] ? ?]; try discriminate; reflexivity. Qed.

(** Raising the entry parameter to a quotient the exit parameter did not reject
    keeps it at most one. *)
Lemma raise_at_most_one (t0 t1 t : spec_float) :
  SFleb t0 fone = true -> SFleb t1 fone = true -> SFltb t1 t = false ->
  SFleb (if SFltb t0 t then t else t0) fone = true.
Proof.
  intros H0 H1 Hn. destruct (SFltb t0 t) eqn:E; [|exact H0].
  destruct (ltb_not_nan _ _ E) as [_ Nt].
  destruct (leb_not_nan _ _ H1) as [N1 _].
  apply leb_trans with (y := t1); [|exact H1].
  apply not_ltb_leb; assumption.
Qed.

Lemma lower_at_most_one (t1 t : spec_float) :
  SFleb t1 fone = true -> SFleb (if SFltb t t1 then t else t1) fone = true.
Proof.
  intros H1. destruct (SFltb t t1) eqn:E; [|exact H1].
  apply leb_trans with (y := t1); [apply b32_ltb_leb; exact E | exact H1].
Qed.

(** The interval the loop keeps: the entry parameter stays a number from zero to
    one, the exit parameter stays at most one, and an entry parameter that has
    moved is the quotient [q / p] of an edge the move enters ([p < 0]). *)
Lemma clip_loop_interval_b32 (pq : list (spec_float * spec_float)) :
  forall t0 t1 a b,
  nonneg32 t0 = true -> SFleb t0 fone = true -> SFleb t1 fone = true ->
  clip_loop (A := binary32) pq t0 t1 = Some (a, b) ->
  nonneg32 a = true /\ SFleb a fone = true /\ SFleb b fone = true /\
  (a = t0 \/ exists p q, In (p, q) pq /\ SFltb p fzero = true /\ a = SFdiv 24 128 q p).
Proof.
  induction pq as [|[p q] rest IH]; intros t0 t1 a b H0 H01 H1 Hrun.
  - injection Hrun as <- <-. auto.
  - revert Hrun. cbn [clip_loop]. cbn [feq flt fdiv binary32].
    unfold Binary32.prec, Binary32.emax.
    set (z := @fzero binary32).
    destruct (SFeqb p z).
    + destruct (SFltb q z); [discriminate|]. intros Hrun.
      destruct (IH _ _ _ _ H0 H01 H1 Hrun) as (Ia & Ib & Ic & [-> | (p' & q' & Hin & Hp & ->)]).
      * auto.
      * repeat split; auto. right. exists p', q'. split; [right; exact Hin | auto].
    + destruct (SFltb p z) eqn:Lp.
      * destruct (SFltb t1 (SFdiv 24 128 q p)) eqn:Lt; [discriminate|]. intros Hrun.
        assert (R0 := @raise_nonneg t0 (SFdiv 24 128 q p) H0).
        assert (R1 := @raise_at_most_one t0 t1 _ H01 H1 Lt).
        destruct (IH _ _ _ _ R0 R1 H1 Hrun)
          as (Ia & Ib & Ic & [-> | (p' & q' & Hin & Hp & ->)]).
        -- repeat split; auto.
           destruct (SFltb t0 (SFdiv 24 128 q p)); [right | left; reflexivity].
           exists p, q. split; [left; reflexivity | auto].
        -- repeat split; auto. right. exists p', q'. split; [right; exact Hin | auto].
      * destruct (SFltb (SFdiv 24 128 q p) t0); [discriminate|]. intros Hrun.
        assert (R1 := @lower_at_most_one t1 (SFdiv 24 128 q p) H1).
        destruct (IH _ _ _ _ H0 H01 R1 Hrun)
          as (Ia & Ib & Ic & [-> | (p' & q' & Hin & Hp & ->)]).
        -- auto.
        -- repeat split; auto. right. exists p', q'. split; [right; exact Hin | auto].
Qed.

Lemma clip_loop_result_b32 (a : atci_rt_t) (x0 y0 x1 y1 t0 t1 : spec_float) :
  clip_loop (A := binary32) (clip_edges a x0 y0 x1 y1) fzero fone = Some (t0, t1) ->
  nonneg32 t0 = true /\ SFleb t0 fone = true /\ SFleb t1 fone = true /\
  (SFltb fzero t0 = true ->
   exists p q, In (p, q) (clip_edges a x0 y0 x1 y1) /\ SFltb p fzero = true /\
               t0 = SFdiv 24 128 q p).
Proof.
  intros Hrun.
  destruct (@clip_loop_interval_b32 _ (@fzero binary32) (@fone binary32) _ _
              eq_refl eq_refl eq_refl Hrun) as (Ia & Ib & Ic & Hsrc).
  repeat split; auto.
  intros Hpos. destruct Hsrc as [-> | Hsrc]; [discriminate | exact Hsrc].
Qed.

End SinglePrecisionInterval.

(** ** Distances to a wall *)

Section Binary32Walls.
Local Open Scope Z_scope.

Lemma num32_valid (x : spec_float) : num32 x = true -> valid_binary 24 128 x = true.
Proof. unfold num32. intros Hx. apply andb_true_iff in Hx. tauto. Qed.

Lemma SFsub_self (x : spec_float) :
  num32 x = true -> exists s, SFsub 24 128 x x = S754_zero s.
Proof.
  intros Nx. apply SFsub_equal; auto. apply (eqb_value _ _ Nx Nx). reflexivity.
Qed.

(** The sign test on the distance to a wall is the comparison with the wall. *)
Lemma wall_test (a b : spec_float) :
  num32 a = true -> num32 b = true ->
  SFltb (SFsub 24 128 a b) (S754_zero false) = negb (SFleb b a).
Proof.
  intros Na Nb.
  destruct (SFleb b a) eqn:Hle; cbn [negb].
  - apply not_negative_ltb_zero. apply SFsub_not_negative; auto using num32_valid.
  - assert (Hlt : SFltb a b = true).
    { apply (ltb_value _ _ Na Nb).
      destruct (Z_lt_le_dec (V a) (V b)) as [|Hge]; [assumption|].
      apply (leb_value _ _ Nb Na) in Hge. congruence. }
    destruct (SFsub_strict_sign a b (@num32_valid _ Na) (@num32_valid _ Nb) Hlt)
      as [[-> | (m & e & ->)] _]; reflexivity.
Qed.

End Binary32Walls.

Section SinglePrecisionIntersection.
Context {H : Host}.
Local Existing Instance binary32.
Local Open Scope Z_scope.

(** An edge parallel to the move with the start beyond it ends the loop. *)
Lemma clip_loop_parallel_outside_b32 (pq : list (spec_float * spec_float)) :
  Exists (fun e => SFeqb (fst e) (S754_zero false) = true /\
                   SFltb (snd e) (S754_zero false) = true) pq ->
  forall t0 t1, clip_loop (A := binary32) pq t0 t1 = None.
Proof.
  induction 1 as [[p q] rest (Hp & Hq) | [p q] rest Hex IH]; intros t0 t1;
    cbn [clip_loop]; cbn [feq flt fdiv binary32];
    unfold Binary32.prec, Binary32.emax; rewrite fzero_b32.
  - cbn [fst snd] in Hp, Hq. rewrite Hp, Hq. reflexivity.
  - destruct (SFeqb p (S754_zero false)).
    + destruct (SFltb q (S754_zero false)); [reflexivity | apply IH].
    + destruct (SFltb p (S754_zero false)).
      * destruct (SFltb t1 (SFdiv 24 128 q p)); [reflexivity | apply IH].
      * destruct (SFltb (SFdiv 24 128 q p) t0); [reflexivity | apply IH].
Qed.

(** A move of length zero is reported exactly when its point passes the
    technical test. *)
Lemma zero_length_move_b32 (st : statics) (x0 y0 : spec_float) :
  zone_in_settings_range (atci st) = true ->
  num32 x0 = true -> num32 y0 = true ->
  line_intersects_keepout st x0 y0 x0 y0 = technically_inside_at (atci st) x0 y0.
Proof.
  intros Hz Nx Ny.
  unfold zone_in_settings_range in Hz.
  apply andb_true_iff in Hz. destruct Hz as [Hz Z4].
  apply andb_true_iff in Hz. destruct Hz as [Hz Z3].
  apply andb_true_iff in Hz. destruct Hz as [Z1 Z2].
  destruct (within_spec settings_limit _ eq_refl Z1) as [N1 _].
  destruct (within_spec settings_limit _ eq_refl Z2) as [N2 _].
  destruct (within_spec settings_limit _ eq_refl Z3) as [N3 _].
  destruct (within_spec settings_limit _ eq_refl Z4) as [N4 _].
  unfold line_intersects_keepout, technically_inside_at, clip_edges.
  cbn [fsub fneg fle binary32]. unfold Binary32.prec, Binary32.emax.
  destruct (@SFsub_self x0 Nx) as [sx ->]. destruct (@SFsub_self y0 Ny) as [sy ->].
  cbn [clip_loop SFopp]. cbn [feq flt binary32]. rewrite fzero_b32.
  replace (SFeqb (S754_zero (negb sx)) (S754_zero false)) with true
    by (destruct sx; reflexivity).
  replace (SFeqb (S754_zero sx) (S754_zero false)) with true
    by (destruct sx; reflexivity).
  replace (SFeqb (S754_zero (negb sy)) (S754_zero false)) with true
    by (destruct sy; reflexivity).
  replace (SFeqb (S754_zero sy) (S754_zero false)) with true
    by (destruct sy; reflexivity).
  rewrite (@wall_test _ _ Nx N1), (@wall_test _ _ N2 Nx), (@wall_test _ _ Ny N3),
    (@wall_test _ _ N4 Ny).
  destruct (SFleb (rt_x_min (atci st)) x0); cbn [negb andb]; [|reflexivity].
  destruct (SFleb x0 (rt_x_max (atci st))); cbn [negb andb]; [|reflexivity].
  destruct (SFleb (rt_y_min (atci st)) y0); cbn [negb andb]; [|reflexivity].
  destruct (SFleb y0 (rt_y_max (atci st))); cbn [negb andb]; reflexivity.
Qed.

End SinglePrecisionIntersection.

(** ** Rounding to nearest *)

Unset Implicit Arguments.

Section Binary32Nearest.
Local Open Scope Z_scope.

Lemma shr_1_s (mrs : shr_record) : shr_s (shr_1 mrs) = shr_r mrs || shr_s mrs.
Proof. destruct mrs as [[|[p|p|]|[p|p|]] r s]; reflexivity. Qed.

Lemma low_bits_split (N k : Z) :
  0 <= N -> 1 <= k ->
  N mod 2 ^ k = N mod 2 ^ (k - 1) + 2 ^ (k - 1) * (if Z.odd (N / 2 ^ (k - 1)) then 1 else 0).
Proof.
  intros HN Hk.
  assert (HP : 0 < 2 ^ (k - 1)) by (apply Z.pow_pos_nonneg; lia).
  assert (E2 : 2 ^ k = 2 * 2 ^ (k - 1)).
  { replace k with (1 + (k - 1)) at 1 by lia. rewrite Z.pow_add_r by lia. reflexivity. }
  assert (Hdiv := Z.div_mod N (2 ^ (k - 1)) ltac:(lia)).
  assert (Hmod := Z.mod_pos_bound N (2 ^ (k - 1)) HP).
  set (K := N / 2 ^ (k - 1)) in *. set (a := N mod 2 ^ (k - 1)) in *.
  assert (HK := Z.div_mod K 2 ltac:(lia)).
  assert (HKm := Z.mod_pos_bound K 2 ltac:(lia)).
  assert (Hodd : (if Z.odd K then 1 else 0) = K mod 2).
  { rewrite Zmod_odd. reflexivity. }
  rewrite Hodd. symmetry.
  set (P := 2 ^ (k - 1)) in *. set (b := K mod 2) in *.
  apply (Z.mod_unique_pos N (2 ^ k) (K / 2)); rewrite E2; nia.
Qed.

Lemma holds_shifted_step (N k : Z) (mrs : shr_record) :
  0 <= N -> 1 <= k -> holds_shifted N k mrs -> holds_shifted N (k + 1) (shr_1 mrs).
Proof.
  intros HN Hk (Em & Er & Es).
  assert (HP : 0 < 2 ^ k) by (apply Z.pow_pos_nonneg; lia).
  assert (Hm : 0 <= shr_m mrs) by (rewrite Em; apply Z.div_pos; lia).
  destruct (shr_1_m mrs Hm) as [E1 _].
  unfold holds_shifted. replace (k + 1 - 1) with k by lia.
  split; [|split].
  - rewrite E1, Em, Z.div_div by lia. f_equal.
    rewrite Z.pow_add_r by lia. reflexivity.
  - rewrite shr_1_r by exact Hm. rewrite Em. reflexivity.
  - rewrite shr_1_s, Er, Es. rewrite (low_bits_split N k HN Hk).
    assert (HP1 : 0 < 2 ^ (k - 1)) by (apply Z.pow_pos_nonneg; lia).
    assert (Hmod := Z.mod_pos_bound N (2 ^ (k - 1)) HP1).
    destruct (Z.odd (N / 2 ^ (k - 1))); cbn [orb].
    + symmetry. apply negb_true_iff. apply Z.eqb_neq. lia.
    + rewrite Z.mul_0_r, Z.add_0_r. reflexivity.
Qed.

Lemma holds_shifted_iter (p : positive) : forall N k mrs,
  0 <= N -> 1 <= k -> holds_shifted N k mrs ->
  holds_shifted N (k + Zpos p) (iter_pos shr_1 p mrs).
Proof.
  induction p as [p IH|p IH|]; intros N k mrs HN Hk Hh; cbn [iter_pos].
  - replace (k + Zpos p~1) with (k + 1 + Zpos p + Zpos p) by lia.
    apply IH; [lia|lia|]. apply IH; [lia|lia|].
    apply holds_shifted_step; assumption.
  - replace (k + Zpos p~0) with (k + Zpos p + Zpos p) by lia.
    apply IH; [lia|lia|]. apply IH; assumption.
  - apply holds_shifted_step; assumption.
Qed.

(** Shifting an exact mantissa and rounding: above the half-way point the
    result is the truncated mantissa plus one. *)
Lemma shr_fexp_round_up (m e : Z) :
  0 <= m ->
  let n := Z.max 0 (fexp32 (Zdigits2 m + e) - e) in
  2 ^ n < 2 * (m mod 2 ^ n) ->
  let mrs := fst (shr_fexp 24 128 m e loc_Exact) in
  round_nearest_even (shr_m mrs) (loc_of_shr_record mrs) = m / 2 ^ n + 1.
Proof.
  intros Hm n Hgt. cbv zeta.
  unfold shr_fexp, shr. rewrite fexp32_eq. fold (fexp32 (Zdigits2 m + e) - e).
  unfold n in *. clear n.
  destruct (fexp32 (Zdigits2 m + e) - e) as [|p|p] eqn:E; cbn [fst shr_record_of_loc].
  - exfalso. cbn in Hgt. rewrite Z.mod_1_r in Hgt. lia.
  - replace (Z.max 0 (Zpos p)) with (Zpos p) in * by lia.
    assert (H0 : holds_shifted (2 * m) 1 (Build_shr_record m false false)).
    { unfold holds_shifted. cbn [shr_m shr_r shr_s].
      replace (1 - 1) with 0 by lia. change (2 ^ 0) with 1. change (2 ^ 1) with 2.
      rewrite Z.div_1_r, Z.mod_1_r.
      split; [|split; [|reflexivity]].
      - symmetry. rewrite Z.mul_comm. apply Z.div_mul. lia.
      - rewrite Z.odd_mul. reflexivity. }
    destruct (holds_shifted_iter p (2 * m) 1 _ ltac:(lia) ltac:(lia) H0) as (Em & Er & Es).
    replace (1 + Zpos p - 1) with (Zpos p) in Er, Es by lia.
    assert (HP : 0 < 2 ^ Zpos p) by (apply Z.pow_pos_nonneg; lia).
    assert (Hdiv := Z.div_mod m (2 ^ Zpos p) ltac:(lia)).
    assert (Hmod := Z.mod_pos_bound m (2 ^ Zpos p) HP).
    set (K := m / 2 ^ Zpos p) in *. set (a := m mod 2 ^ Zpos p) in *.
    assert (Hq : 2 * m / 2 ^ Zpos p = 2 * K + 1).
    { symmetry. set (P := 2 ^ Zpos p) in *.
      apply (Z.div_unique_pos (2 * m) P (2 * K + 1) (2 * a - P)); nia. }
    assert (Hr : (2 * m) mod 2 ^ Zpos p = 2 * a - 2 ^ Zpos p).
    { symmetry. set (P := 2 ^ Zpos p) in *.
      apply (Z.mod_unique_pos (2 * m) P (2 * K + 1)); nia. }
    assert (Hm' : 2 * m / 2 ^ (1 + Zpos p) = K).
    { rewrite Z.pow_add_r by lia. change (2 ^ 1) with 2.
      rewrite <- Z.div_div by lia. rewrite (Z.mul_comm 2 m), Z.div_mul by lia.
      reflexivity. }
    rewrite Hq in Er. rewrite Hr in Es. rewrite Hm' in Em.
    assert (Er' : shr_r (iter_pos shr_1 p (Build_shr_record m false false)) = true).
    { rewrite Er. rewrite Z.odd_add, Z.odd_mul. reflexivity. }
    assert (Es' : shr_s (iter_pos shr_1 p (Build_shr_record m false false)) = true).
    { rewrite Es. apply negb_true_iff. apply Z.eqb_neq. lia. }
    destruct (iter_pos shr_1 p (Build_shr_record m false false)) as [m' r s].
    cbn [shr_m shr_r shr_s] in *. rewrite Er', Es', Em. reflexivity.
  - exfalso. cbn in Hgt. rewrite Z.mod_1_r in Hgt. lia.
Qed.

(** [binary_round_aux] on an exact input: which way the first rounding goes. *)
Lemma binary_round_aux_directed (sx : bool) (mx ex : Z) :
  0 <= mx ->
  let n1 := Z.max 0 (fexp32 (Zdigits2 mx + ex) - ex) in
  let m' := mx / 2 ^ n1 in
  let e' := ex + n1 in
  exists m1, m' <= m1 <= m' + 1 /\
    (2 * (mx mod 2 ^ n1) < 2 ^ n1 -> m1 = m') /\
    (2 ^ n1 < 2 * (mx mod 2 ^ n1) -> m1 = m' + 1) /\
    let n2 := Z.max 0 (fexp32 (Zdigits2 m1 + e') - e') in
    binary_round_aux 24 128 sx mx ex loc_Exact = finish32 sx (m1 / 2 ^ n2) (e' + n2).
Proof.
  intros Hm n1 m' e'.
  unfold binary_round_aux.
  destruct (shr_fexp_spec mx ex loc_Exact Hm) as [E1 E2]. fold n1 in E1, E2.
  pose proof (shr_fexp_round_down mx ex Hm) as Hdown. cbv zeta in Hdown. fold n1 in Hdown.
  pose proof (shr_fexp_round_up mx ex Hm) as Hup. cbv zeta in Hup. fold n1 in Hup.
  destruct (shr_fexp 24 128 mx ex loc_Exact) as [mrs1 e1].
  cbn [fst snd] in E1, E2, Hdown, Hup.
  set (m1 := round_nearest_even (shr_m mrs1) (loc_of_shr_record mrs1)) in *.
  assert (R := round_nearest_even_range (shr_m mrs1) (loc_of_shr_record mrs1)).
  fold m1 in R. rewrite E1 in R. fold m' in R.
  assert (Hm' : 0 <= m').
  { unfold m'. apply Z.div_pos; [lia|]. apply Z.pow_pos_nonneg; lia. }
  exists m1. split; [exact R|]. split; [exact Hdown|]. split; [exact Hup|]. cbv zeta.
  destruct (shr_fexp_spec m1 e1 loc_Exact ltac:(lia)) as [F1 F2].
  destruct (shr_fexp 24 128 m1 e1 loc_Exact) as [mrs2 e2]. cbn [fst snd] in F1, F2.
  subst e1. fold e' in F1, F2. rewrite F1, F2.
  unfold finish32. reflexivity.
Qed.

(** Rounding an exact positive mantissa: the result is [m1 * 2^E] for the
    truncated mantissa [m'] or its successor, whichever is nearer. *)
Lemma binary_round_aux_nearest (sx : bool) (mx ex : Z) :
  0 < mx -> ex <= fexp32 (Zdigits2 mx + ex) ->
  let E := fexp32 (Zdigits2 mx + ex) in
  let m' := mx / 2 ^ (E - ex) in
  let rem := mx mod 2 ^ (E - ex) in
  let r := binary_round_aux 24 128 sx mx ex loc_Exact in
  (r = S754_infinity sx /\ 128 <= Zdigits2 mx + ex) \/
  (num32 r = true /\ sign_of r = sx /\
   exists m1, Vabs r = m1 * 2 ^ (E + 149) /\ m' <= m1 <= m' + 1 /\
     (2 * rem < 2 ^ (E - ex) -> m1 = m') /\
     (2 ^ (E - ex) < 2 * rem -> m1 = m' + 1)).
Proof.
  intros Hmx Hex E m' rem r.
  assert (HE : -149 <= E) by (unfold E, fexp32; lia).
  destruct (binary_round_aux_directed sx mx ex ltac:(lia)) as (m1 & Hm1 & Hdn & Hup & Hr).
  cbv zeta in Hr, Hdn, Hup.
  assert (Hn1 : Z.max 0 (fexp32 (Zdigits2 mx + ex) - ex) = E - ex) by (unfold E; lia).
  rewrite Hn1 in Hm1, Hr, Hdn, Hup.
  replace (ex + (E - ex)) with E in Hr by lia.
  fold m' in Hm1, Hdn, Hup. fold rem in Hdn, Hup. fold r in Hr.
  assert (Hpow : 0 < 2 ^ (E - ex)) by (apply pow2_pos; lia).
  assert (Hm' : 0 <= m') by (unfold m'; apply Z.div_pos; lia).
  assert (Hcan : 0 < m' -> fexp32 (Zdigits2 m' + E) = E).
  { intros Hp. destruct (Z_lt_le_dec (E - ex) (Zdigits2 mx)) as [Hlt|Hge].
    - unfold m'. rewrite Zdigits2_div_pow2 by lia.
      replace (Zdigits2 mx - (E - ex) + E) with (Zdigits2 mx + ex) by lia. reflexivity.
    - unfold m' in Hp. rewrite div_pow2_zero in Hp by lia. lia. }
  assert (Hzero : m' = 0 -> E = -149).
  { intros Hz. destruct (Z_lt_le_dec (E - ex) (Zdigits2 mx)) as [Hlt|Hge].
    - assert (Hd : Zdigits2 m' = Zdigits2 mx - (E - ex))
        by (unfold m'; apply Zdigits2_div_pow2; lia).
      rewrite Hz in Hd. change (Zdigits2 0) with 0 in Hd. lia.
    - unfold E in *. unfold fexp32 in *. lia. }
  destruct (canonical_after_round m' m1 E Hm' HE Hcan Hzero Hm1) as (Hval & Hn2 & Hcan2).
  set (n2 := Z.max 0 (fexp32 (Zdigits2 m1 + E) - E)) in *.
  set (m2 := m1 / 2 ^ n2) in *.
  assert (Hn2' : 0 <= n2) by (unfold n2; lia).
  assert (Hm2 : 0 <= m2) by (unfold m2; apply Z.div_pos; [lia | apply pow2_pos; lia]).
  assert (Hscale : m2 * 2 ^ (E + n2 + 149) = m1 * 2 ^ (E + 149)).
  { replace (E + n2 + 149) with (n2 + (E + 149)) by lia.
    rewrite Z.pow_add_r by lia. rewrite Z.mul_assoc, Hval. reflexivity. }
  assert (HpE : 0 < 2 ^ (E + 149)) by (apply pow2_pos; lia).
  destruct (finish32_cases sx m2 (E + n2) Hm2) as [(Hz & Hf) | [(Hp & Hle & Hf) | (Hp & Hgt & Hf)]].
  - right. rewrite Hr, Hf. cbn [num32 valid_binary is_fin andb sign_of Vabs].
    split; [reflexivity|]. split; [reflexivity|].
    assert (m1 = 0) by (rewrite Hz in Hval; lia).
    exists m1. repeat split; auto; lia.
  - right. rewrite Hr, Hf.
    assert (H1 : 0 < m1) by (assert (0 < 2 ^ n2) by (apply pow2_pos; lia); nia).
    destruct (Hcan2 H1) as (_ & Hc).
    split.
    + unfold num32. cbn [is_fin]. rewrite andb_true_r.
      apply valid_finite_iff. split; [|exact Hle].
      rewrite digits_to_pos by lia. exact Hc.
    + split; [reflexivity|]. cbn [Vabs].
      rewrite Z2Pos.id by lia. rewrite Hscale.
      exists m1. repeat split; auto; lia.
  - left. split; [rewrite Hr, Hf; reflexivity|].
    assert (H1 : 0 < m1) by (assert (0 < 2 ^ n2) by (apply pow2_pos; lia); nia).
    unfold E in *. unfold fexp32 in *. lia.
Qed.

Lemma binary_round_nearest (sx : bool) (mx : positive) (ex : Z) :
  -149 <= ex ->
  let X := Zpos mx * 2 ^ (ex + 149) in
  let r := binary_round 24 128 sx mx ex in
  (r = S754_infinity sx /\ 277 <= Zdigits2 X) \/
  (num32 r = true /\ sign_of r = sx /\ nearest_to X (Vabs r)).
Proof.
  intros Hex X. cbv zeta.
  unfold binary_round. rewrite fexp32_eq.
  change (Zpos (digits2_pos mx)) with (Zdigits2 (Zpos mx)).
  set (E := fexp32 (Zdigits2 (Zpos mx) + ex)) in *.
  destruct (shl_align_spec mx ex E) as [Hez Hmz].
  destruct (shl_align mx ex E) as [mz ez]. cbn [fst snd] in Hez, Hmz.
  assert (HE : -149 <= E) by (unfold E, fexp32; lia).
  assert (Hsh : 0 <= ex - ez) by lia.
  assert (Hdz : Zdigits2 (Zpos mz) + ez = Zdigits2 (Zpos mx) + ex).
  { rewrite Hmz, <- Hez. rewrite Zdigits2_mul_pow2 by lia. lia. }
  assert (Hpre : ez <= fexp32 (Zdigits2 (Zpos mz) + ez)) by (rewrite Hdz; fold E; lia).
  assert (HX : X = Zpos mz * 2 ^ (ez + 149)).
  { unfold X. rewrite Hmz, <- Hez, <- Z.mul_assoc, <- Z.pow_add_r by lia.
    f_equal. f_equal. lia. }
  assert (HdX : Zdigits2 X = Zdigits2 (Zpos mx) + ex + 149).
  { unfold X. rewrite Zdigits2_mul_pow2 by lia. lia. }
  destruct (binary_round_aux_nearest sx (Zpos mz) ez ltac:(lia) Hpre)
    as [[Hinf Hbig] | (Hnum & Hsign & m1 & Hv & Hm1 & Hdn & Hup)].
  - left. split; [exact Hinf|]. lia.
  - right. split; [exact Hnum|]. split; [exact Hsign|].
    rewrite Hdz in Hv, Hm1, Hdn, Hup. fold E in Hv, Hm1, Hdn, Hup.
    set (m' := Zpos mz / 2 ^ (E - ez)) in *.
    set (rem := Zpos mz mod 2 ^ (E - ez)) in *.
    assert (Hp1 : 0 < 2 ^ (E - ez)) by (apply pow2_pos; lia).
    assert (Hp2 : 0 < 2 ^ (ez + 149)) by (apply pow2_pos; lia).
    assert (Hsplit : 2 ^ (E + 149) = 2 ^ (E - ez) * 2 ^ (ez + 149)).
    { rewrite <- Z.pow_add_r by lia. f_equal. lia. }
    assert (Hdiv := Z.div_mod (Zpos mz) (2 ^ (E - ez)) ltac:(lia)).
    assert (Hmod := Z.mod_pos_bound (Zpos mz) (2 ^ (E - ez)) Hp1).
    fold m' in Hdiv. fold rem in Hdiv, Hmod.
    assert (Hulp : ulp_of X = 2 ^ (E + 149)).
    { unfold ulp_of. f_equal. rewrite HdX. unfold E, fexp32. lia. }
    unfold nearest_to. rewrite Hulp, Hv. split.
    + exists m1. reflexivity.
    + rewrite HX, Hsplit.
      set (A := 2 ^ (E - ez)) in *. set (B := 2 ^ (ez + 149)) in *.
      destruct (Z_lt_le_dec (2 * rem) A) as [Hlo | Hge].
      * rewrite (Hdn Hlo). rewrite Z.abs_neq by nia. nia.
      * destruct (Z_lt_le_dec A (2 * rem)) as [Hhi | Heq].
        -- rewrite (Hup Hhi). rewrite Z.abs_eq by nia. nia.
        -- assert (E2 : 2 * rem = A) by lia.
           destruct (Z.eq_dec m1 m') as [->|Hne].
           ++ rewrite Z.abs_neq by nia. nia.
           ++ assert (m1 = m' + 1) by lia. subst m1.
              rewrite Z.abs_eq by nia. nia.
Qed.

Lemma nearest_to_opp (X r : Z) : nearest_to X r -> nearest_to (- X) (- r).
Proof.
  intros [Hd Hh]. unfold nearest_to. rewrite ulp_of_opp. split.
  - apply Z.divide_opp_r. exact Hd.
  - replace (- r - - X) with (- (r - X)) by lia. rewrite Z.abs_opp. exact Hh.
Qed.

Lemma binary_normalize_nearest (z ez : Z) :
  -149 <= ez ->
  let X := z * 2 ^ (ez + 149) in
  let r := binary_normalize 24 128 z ez false in
  (is_inf r = true /\ 277 <= Zdigits2 X) \/
  (num32 r = true /\ nearest_to X (V r)).
Proof.
  intros Hez X r. subst r.
  assert (Hp : 0 < 2 ^ (ez + 149)) by (apply pow2_pos; lia).
  destruct z as [|m|m]; cbn [binary_normalize].
  - right. split; [reflexivity|]. unfold X, nearest_to. cbn. split.
    + apply Z.divide_0_r.
    + pose proof (ulp_of_pos 0). lia.
  - destruct (binary_round_nearest false m ez Hez) as [[Hinf Hbig] | (Hnum & Hsign & Hb)].
    + left. rewrite Hinf. split; [reflexivity | exact Hbig].
    + right. split; [exact Hnum|]. unfold V. rewrite Hsign. cbn [cond_Zopp]. exact Hb.
  - destruct (binary_round_nearest true m ez Hez) as [[Hinf Hbig] | (Hnum & Hsign & Hb)].
    + left. rewrite Hinf. split; [reflexivity|].
      unfold X. replace (Z.neg m * 2 ^ (ez + 149)) with (- (Zpos m * 2 ^ (ez + 149))) by lia.
      rewrite Zdigits2_opp. exact Hbig.
    + right. split; [exact Hnum|]. unfold V. rewrite Hsign. cbn [cond_Zopp].
      unfold X. replace (Z.neg m * 2 ^ (ez + 149)) with (- (Zpos m * 2 ^ (ez + 149))) by lia.
      apply nearest_to_opp. exact Hb.
Qed.

(** A binary32 number lies on the grid around itself. *)
Lemma num32_on_grid (r : spec_float) : num32 r = true -> nearest_to (V r) (V r).
Proof.
  intros Hr. unfold nearest_to. rewrite Z.sub_diag. split.
  2:{ pose proof (ulp_of_pos (V r)). cbn. lia. }
  destruct r as [s|s| |s m e]; try discriminate.
  - rewrite V_zero. apply Z.divide_0_r.
  - pose proof (num32_finite _ _ _ Hr) as Hv.
    destruct (valid_exp s m e Hv) as [He _].
    apply valid_finite_iff in Hv. destruct Hv as [Hc _].
    change (Zpos (digits2_pos m)) with (Zdigits2 (Zpos m)) in Hc.
    assert (Hd : Zdigits2 (V (S754_finite s m e)) = Zdigits2 (Zpos m) + e + 149).
    { unfold V. cbn [sign_of Vabs].
      destruct s; cbn [cond_Zopp]; rewrite ?Zdigits2_opp;
        rewrite Zdigits2_mul_pow2 by lia; lia. }
    unfold ulp_of. rewrite Hd.
    replace (Z.max (Zdigits2 (Zpos m) + e + 149 - 24) 0) with (e + 149)
      by (unfold fexp32 in Hc; lia).
    unfold V. cbn [sign_of Vabs].
    destruct s; cbn [cond_Zopp].
    + apply Z.divide_opp_r. exists (Zpos m). reflexivity.
    + exists (Zpos m). reflexivity.
Qed.

(** A difference of two numbers is rounded to nearest. *)
Theorem SFsub_nearest (x y : spec_float) :
  num32 x = true -> num32 y = true ->
  let D := V x - V y in
  let r := SFsub 24 128 x y in
  (is_inf r = true /\ 277 <= Zdigits2 D) \/
  (num32 r = true /\ nearest_to D (V r)).
Proof.
  intros Hx Hy D r. subst r.
  assert (Hexact : forall r, num32 r = true -> V r = D ->
            (is_inf r = true /\ 277 <= Zdigits2 D) \/ (num32 r = true /\ nearest_to D (V r))).
  { intros r Hn Hv. right. split; [exact Hn|]. rewrite <- Hv. apply num32_on_grid. exact Hn. }
  destruct x as [sx|sx| |sx mx ex], y as [sy|sy| |sy my ey]; try discriminate.
  - apply Hexact.
    + destruct sx, sy; reflexivity.
    + unfold D. rewrite !V_zero. destruct sx, sy; reflexivity.
  - cbn [SFsub]. apply Hexact.
    + exact Hy.
    + unfold D. rewrite V_zero, V_opp_finite. lia.
  - cbn [SFsub]. apply Hexact; [exact Hx|].
    unfold D. rewrite V_zero. lia.
  - destruct (valid_exp sx mx ex (num32_finite _ _ _ Hx)) as [Hex _].
    destruct (valid_exp sy my ey (num32_finite _ _ _ Hy)) as [Hey _].
    cbn [SFsub].
    set (ez := Z.min ex ey).
    assert (HD : (cond_Zopp sx (Zpos (fst (shl_align mx ex ez))) -
                  cond_Zopp sy (Zpos (fst (shl_align my ey ez)))) * 2 ^ (ez + 149) = D).
    { rewrite Z.mul_sub_distr_r.
      rewrite !aligned_value by (unfold ez; lia). reflexivity. }
    pose proof (binary_normalize_nearest
      (cond_Zopp sx (Zpos (fst (shl_align mx ex ez))) -
       cond_Zopp sy (Zpos (fst (shl_align my ey ez)))) ez ltac:(unfold ez; lia)) as Hn.
    cbv zeta in Hn. rewrite HD in Hn. exact Hn.
Qed.

(** *** Rounding to nearest keeps the order *)

Lemma Zdigits2_mono (X Y : Z) : 0 < X -> X <= Y -> Zdigits2 X <= Zdigits2 Y.
Proof.
  intros HX HXY.
  destruct (Zdigits2_bounds X HX) as [LX _].
  destruct (Zdigits2_bounds Y ltac:(lia)) as [_ UY].
  destruct (Z_lt_le_dec (Zdigits2 Y) (Zdigits2 X)) as [Hlt|]; [|lia].
  assert (2 ^ Zdigits2 Y <= 2 ^ (Zdigits2 X - 1)).
  { apply Z.pow_le_mono_r; [lia|]. lia. }
  lia.
Qed.

Lemma nearest_to_mono (X Y r s : Z) :
  0 < X -> X < Y -> nearest_to X r -> nearest_to Y s -> r <= s.
Proof.
  intros HX HXY [[a Ha] Hr] [[b Hb] Hs].
  pose proof (Zdigits2_mono X Y HX ltac:(lia)) as Hd.
  pose proof (Zdigits2_pos X HX) as PX.
  destruct (Zdigits2_bounds X HX) as [LX UX].
  destruct (Zdigits2_bounds Y ltac:(lia)) as [LY UY].
  unfold ulp_of in *.
  set (dX := Zdigits2 X) in *. set (dY := Zdigits2 Y) in *.
  set (gX := Z.max (dX - 24) 0) in *. set (gY := Z.max (dY - 24) 0) in *.
  assert (PgX : 0 < 2 ^ gX) by (apply pow2_pos; unfold gX; lia).
  assert (PgY : 0 < 2 ^ gY) by (apply pow2_pos; unfold gY; lia).
  assert (Hr' : - 2 ^ gX <= 2 * (r - X) <= 2 ^ gX) by lia.
  assert (Hs' : - 2 ^ gY <= 2 * (s - Y) <= 2 ^ gY) by lia.
  clear Hr Hs.
  destruct (Z.eq_dec dX dY) as [Ed|Hne].
  - assert (Eg : gX = gY) by (unfold gX, gY; lia). rewrite Eg in *.
    set (G := 2 ^ gY) in *. subst r s.
    destruct (Z_lt_le_dec b a) as [Hba|]; [|nia].
    exfalso. nia.
  - assert (Hlt : dX <= dY - 1) by lia.
    (* [2^dX] lies on the grid of [X] and [2^(dY-1)] on the grid of [Y] *)
    assert (E1 : 2 ^ dX = 2 ^ (dX - gX) * 2 ^ gX).
    { rewrite <- Z.pow_add_r by (unfold gX; lia). f_equal. lia. }
    assert (E2 : 2 ^ (dY - 1) = 2 ^ (dY - 1 - gY) * 2 ^ gY).
    { rewrite <- Z.pow_add_r by (unfold gY; lia). f_equal. lia. }
    assert (Hmid : 2 ^ dX <= 2 ^ (dY - 1)) by (apply Z.pow_le_mono_r; lia).
    assert (Hr1 : r <= 2 ^ dX).
    { rewrite E1. subst r. set (c := 2 ^ (dX - gX)) in *. set (G := 2 ^ gX) in *.
      destruct (Z_lt_le_dec c a) as [Hca|]; [|nia]. exfalso. nia. }
    assert (Hs1 : 2 ^ (dY - 1) <= s).
    { rewrite E2. subst s. set (c := 2 ^ (dY - 1 - gY)) in *. set (G := 2 ^ gY) in *.
      destruct (Z_lt_le_dec b c) as [Hbc|]; [|nia]. exfalso. nia. }
    lia.
Qed.

End Binary32Nearest.

Section Binary32Monotone.
Local Open Scope Z_scope.

Lemma binary_round_opp (s : bool) (m : positive) (e : Z) :
  binary_round 24 128 (negb s) m e = SFopp (binary_round 24 128 s m e).
Proof.
  unfold binary_round.
  destruct (shl_align m e (fexp 24 128 (Zpos (digits2_pos m) + e))) as [mz ez].
  unfold binary_round_aux.
  destruct (shr_fexp 24 128 (Zpos mz) ez loc_Exact) as [mrs1 e1].
  destruct (shr_fexp 24 128 (round_nearest_even (shr_m mrs1) (loc_of_shr_record mrs1))
              e1 loc_Exact) as [mrs2 e2].
  destruct (shr_m mrs2); [reflexivity | | reflexivity].
  destruct (e2 <=? 128 - 24); reflexivity.
Qed.

Lemma binary_normalize_opp (z e : Z) :
  z <> 0 ->
  binary_normalize 24 128 (- z) e false = SFopp (binary_normalize 24 128 z e false).
Proof.
  intros Hz. destruct z as [|m|m]; [contradiction| |]; cbn [Z.opp binary_normalize].
  - apply (binary_round_opp false).
  - apply (binary_round_opp true).
Qed.

(** Exchanging the operands of a difference changes its sign and nothing else. *)
Lemma SFsub_antisym (a b : spec_float) :
  num32 a = true -> num32 b = true -> V a <> V b ->
  SFsub 24 128 a b = SFopp (SFsub 24 128 b a).
Proof.
  intros Na Nb Hne.
  destruct a as [sa|sa| |sa ma ea], b as [sb|sb| |sb mb eb]; try discriminate.
  - rewrite !V_zero in Hne. contradiction.
  - reflexivity.
  - cbn. destruct sa; reflexivity.
  - destruct (valid_exp sa ma ea (num32_finite _ _ _ Na)) as [Hea _].
    destruct (valid_exp sb mb eb (num32_finite _ _ _ Nb)) as [Heb _].
    cbn [SFsub]. rewrite (Z.min_comm eb ea). set (ez := Z.min ea eb).
    set (za := cond_Zopp sa (Zpos (fst (shl_align ma ea ez)))).
    set (zb := cond_Zopp sb (Zpos (fst (shl_align mb eb ez)))).
    assert (Ha : za * 2 ^ (ez + 149) = V (S754_finite sa ma ea))
      by (apply aligned_value; unfold ez; lia).
    assert (Hb : zb * 2 ^ (ez + 149) = V (S754_finite sb mb eb))
      by (apply aligned_value; unfold ez; lia).
    replace (za - zb) with (- (zb - za)) by lia.
    apply binary_normalize_opp. intros E0.
    apply Hne. rewrite <- Ha, <- Hb. f_equal. lia.
Qed.

Lemma SFdiv_opp_opp (s1 s2 : bool) (m1 m2 : positive) (e1 e2 : Z) :
  SFdiv 24 128 (SFopp (S754_finite s1 m1 e1)) (SFopp (S754_finite s2 m2 e2))
  = SFdiv 24 128 (S754_finite s1 m1 e1) (S754_finite s2 m2 e2).
Proof. cbn [SFopp SFdiv]. destruct s1, s2; reflexivity. Qed.

(** Two binary32 numbers with the same value other than zero are the same datum. *)
Lemma num32_V_inj (a b : spec_float) :
  num32 a = true -> num32 b = true -> V a = V b -> V a <> 0 -> a = b.
Proof.
  intros Na Nb HV Hnz.
  destruct a as [sa|sa| |sa ma ea]; try discriminate; [rewrite V_zero in Hnz; lia|].
  destruct b as [sb|sb| |sb mb eb]; try discriminate; [rewrite V_zero in HV; lia|].
  pose proof (num32_finite _ _ _ Na) as Va. pose proof (num32_finite _ _ _ Nb) as Vb.
  destruct (valid_exp _ _ _ Va) as [Hea _]. destruct (valid_exp _ _ _ Vb) as [Heb _].
  assert (Pa : 0 < Zpos ma * 2 ^ (ea + 149))
    by (apply Z.mul_pos_pos; [lia | apply pow2_pos; lia]).
  assert (Pb : 0 < Zpos mb * 2 ^ (eb + 149))
    by (apply Z.mul_pos_pos; [lia | apply pow2_pos; lia]).
  unfold V in HV. cbn [sign_of Vabs] in HV.
  assert (Es : sa = sb) by (destruct sa, sb; cbn [cond_Zopp] in HV; auto; lia).
  subst sb.
  assert (Ev : Zpos ma * 2 ^ (ea + 149) = Zpos mb * 2 ^ (eb + 149))
    by (destruct sa; cbn [cond_Zopp] in HV; lia).
  assert (Ee : ea = eb).
  { destruct (Z.lt_trichotomy ea eb) as [Hlt | [E | Hgt]]; [|exact E|].
    - pose proof (canonical_exp_lt sa sa ma mb ea eb Va Vb Hlt). lia.
    - pose proof (canonical_exp_lt sa sa mb ma eb ea Vb Va Hgt). lia. }
  subst eb.
  assert (Pp : 0 < 2 ^ (ea + 149)) by (apply pow2_pos; lia).
  assert (Em : Zpos ma = Zpos mb) by nia.
  injection Em as ->. reflexivity.
Qed.

Lemma num32_not_inf (r : spec_float) : num32 r = true -> is_inf r = false.
Proof. destruct r; try discriminate; reflexivity. Qed.

(** A larger minuend gives a difference at least as large. *)
Lemma SFsub_mono_l (a a' c : spec_float) :
  num32 a = true -> num32 a' = true -> num32 c = true ->
  V c < V a -> V a <= V a' ->
  Z.abs (V a' - V c) < overflow_threshold ->
  num32 (SFsub 24 128 a c) = true /\ num32 (SFsub 24 128 a' c) = true /\
  V (SFsub 24 128 a c) <= V (SFsub 24 128 a' c).
Proof.
  intros Na Na' Nc Hca Haa Hsmall.
  assert (F1 : num32 (SFsub 24 128 a c) = true) by (apply SFsub_finite; auto; lia).
  assert (F2 : num32 (SFsub 24 128 a' c) = true) by (apply SFsub_finite; auto).
  split; [exact F1|]. split; [exact F2|].
  destruct (Z.eq_dec (V a) (V a')) as [E | Hne].
  - destruct (Z.eq_dec (V a) 0) as [E0 | Hnz].
    + assert (E0' : V a' = 0) by lia.
      destruct (V_pos_shape (SFopp c)) as (m & e & Ec).
      { rewrite V_opp. lia. }
      destruct c as [sc|sc| |sc mc ec]; try discriminate.
      destruct a as [sa|sa| |sa ma ea]; try discriminate.
      2:{ pose proof (Vabs_finite_pos sa ma ea
                        (proj1 (proj1 (valid_exp _ _ _ (num32_finite _ _ _ Na))))) as P.
          unfold V in E0. cbn [sign_of] in E0. destruct sa; cbn [cond_Zopp] in E0; lia. }
      destruct a' as [sa'|sa'| |sa' ma' ea']; try discriminate.
      2:{ pose proof (Vabs_finite_pos sa' ma' ea'
                        (proj1 (proj1 (valid_exp _ _ _ (num32_finite _ _ _ Na'))))) as P.
          unfold V in E0'. cbn [sign_of] in E0'. destruct sa'; cbn [cond_Zopp] in E0'; lia. }
      cbn [SFsub]. lia.
    + rewrite (num32_V_inj a a' Na Na' E Hnz). lia.
  - destruct (SFsub_nearest a c Na Nc) as [[Hinf _] | [_ H1]];
      [rewrite (num32_not_inf _ F1) in Hinf; discriminate|].
    destruct (SFsub_nearest a' c Na' Nc) as [[Hinf _] | [_ H2]];
      [rewrite (num32_not_inf _ F2) in Hinf; discriminate|].
    apply (nearest_to_mono (V a - V c) (V a' - V c)); auto; lia.
Qed.

(** A smaller subtrahend gives a difference at least as large. *)
Lemma SFsub_mono_r (c b b' : spec_float) :
  num32 c = true -> num32 b = true -> num32 b' = true ->
  V b < V c -> V b' <= V b ->
  Z.abs (V c - V b') < overflow_threshold ->
  num32 (SFsub 24 128 c b) = true /\ num32 (SFsub 24 128 c b') = true /\
  V (SFsub 24 128 c b) <= V (SFsub 24 128 c b').
Proof.
  intros Nc Nb Nb' Hbc Hbb Hsmall.
  assert (F1 : num32 (SFsub 24 128 c b) = true) by (apply SFsub_finite; auto; lia).
  assert (F2 : num32 (SFsub 24 128 c b') = true) by (apply SFsub_finite; auto).
  split; [exact F1|]. split; [exact F2|].
  destruct (Z.eq_dec (V b) (V b')) as [E | Hne].
  - destruct (Z.eq_dec (V b) 0) as [E0 | Hnz].
    + assert (E0' : V b' = 0) by lia.
      destruct (V_pos_shape c) as (m & e & ->); [lia|].
      destruct b as [sb|sb| |sb mb eb]; try discriminate.
      2:{ pose proof (Vabs_finite_pos sb mb eb
                        (proj1 (proj1 (valid_exp _ _ _ (num32_finite _ _ _ Nb))))) as P.
          unfold V in E0. cbn [sign_of] in E0. destruct sb; cbn [cond_Zopp] in E0; lia. }
      destruct b' as [sb'|sb'| |sb' mb' eb']; try discriminate.
      2:{ pose proof (Vabs_finite_pos sb' mb' eb'
                        (proj1 (proj1 (valid_exp _ _ _ (num32_finite _ _ _ Nb'))))) as P.
          unfold V in E0'. cbn [sign_of] in E0'. destruct sb'; cbn [cond_Zopp] in E0'; lia. }
      cbn [SFsub]. lia.
    + rewrite (num32_V_inj b b' Nb Nb' E Hnz). lia.
  - destruct (SFsub_nearest c b Nc Nb) as [[Hinf _] | [_ H1]];
      [rewrite (num32_not_inf _ F1) in Hinf; discriminate|].
    destruct (SFsub_nearest c b' Nc Nb') as [[Hinf _] | [_ H2]];
      [rewrite (num32_not_inf _ F2) in Hinf; discriminate|].
    apply (nearest_to_mono (V c - V b) (V c - V b')); auto; lia.
Qed.

End Binary32Monotone.

Section Binary32Quotient.
Local Open Scope Z_scope.

Lemma V_fone : V (Binary32.of_Z 1) = 2 ^ 149.
Proof. reflexivity. Qed.

(** The quotient of a positive number by a positive number that is not larger
    is at least one. *)
Lemma SFdiv_at_least_one (mq mp : positive) (eq ep : Z) :
  valid_binary 24 128 (S754_finite false mq eq) = true ->
  valid_binary 24 128 (S754_finite false mp ep) = true ->
  Zpos mp * 2 ^ (ep + 149) <= Zpos mq * 2 ^ (eq + 149) ->
  SFleb (Binary32.of_Z 1)
    (SFdiv 24 128 (S754_finite false mq eq) (S754_finite false mp ep)) = true.
Proof.
  intros Vq Vp Hle.
  destruct (valid_exp _ _ _ Vq) as [Heq Hdq]. destruct (valid_exp _ _ _ Vp) as [Hep Hdp].
  cbn [SFdiv]. destruct (div_core_spec mq mp eq ep) as (l & ->).
  change (xorb false false) with false.
  set (d1 := Zdigits2 (Zpos mq)) in *. set (d2 := Zdigits2 (Zpos mp)) in *.
  set (delta := d1 + eq - (d2 + ep)) in *.
  set (e' := Z.min (fexp32 delta) (eq - ep)).
  set (s := eq - ep - e').
  assert (Hd1 : 0 < d1) by (apply Zdigits2_pos; lia).
  assert (Hd2 : 0 < d2) by (apply Zdigits2_pos; lia).
  destruct (Zdigits2_bounds (Zpos mq) ltac:(lia)) as [L1 U1]. fold d1 in L1, U1.
  destruct (Zdigits2_bounds (Zpos mp) ltac:(lia)) as [L2 U2]. fold d2 in L2, U2.
  assert (Pq : 0 < 2 ^ (eq + 149)) by (apply pow2_pos; lia).
  assert (Pp : 0 < 2 ^ (ep + 149)) by (apply pow2_pos; lia).
  (* the dividend has at least as many digits as the divisor *)
  assert (Hdelta : 0 <= delta).
  { destruct (Z_lt_le_dec delta 0) as [Hneg|]; [exfalso|assumption].
    assert (2 ^ (d1 + (eq + 149)) <= 2 ^ (d2 - 1 + (ep + 149)))
      by (apply Z.pow_le_mono_r; unfold delta in Hneg; lia).
    rewrite (Z.pow_add_r 2 d1 (eq + 149)) in H by lia.
    rewrite (Z.pow_add_r 2 (d2 - 1) (ep + 149)) in H by lia.
    assert (Zpos mq * 2 ^ (eq + 149) < 2 ^ d1 * 2 ^ (eq + 149))
      by (apply Z.mul_lt_mono_pos_r; lia).
    assert (2 ^ (d2 - 1) * 2 ^ (ep + 149) <= Zpos mp * 2 ^ (ep + 149))
      by (apply Z.mul_le_mono_nonneg_r; lia).
    lia. }
  assert (Hs : 0 <= s) by (unfold s, e'; lia).
  assert (Hfe : fexp32 delta = delta - 24) by (unfold fexp32; lia).
  set (k := d1 - 1 + s - d2).
  assert (Hk : 0 <= k) by (unfold k, s, e', delta in *; lia).
  assert (Ps : 0 < 2 ^ s) by (apply pow2_pos; lia).
  assert (Pk : 0 < 2 ^ k) by (apply pow2_pos; lia).
  set (q := Zpos mq * 2 ^ s / Zpos mp) in *.
  assert (Hq : 2 ^ k <= q).
  { apply Z.div_le_lower_bound; [lia|].
    assert (E : 2 ^ (d1 - 1) * 2 ^ s = 2 ^ d2 * 2 ^ k).
    { rewrite <- !Z.pow_add_r by lia. f_equal. unfold k. lia. }
    nia. }
  assert (Hq0 : 0 < q) by lia.
  assert (Hdq' : k + 1 <= Zdigits2 q).
  { destruct (Zdigits2_bounds q Hq0) as [_ Uq].
    destruct (Z_lt_le_dec (Zdigits2 q) (k + 1)) as [Hlt|]; [|lia].
    assert (2 ^ Zdigits2 q <= 2 ^ k)
      by (apply Z.pow_le_mono_r; [lia | pose proof (Zdigits2_nonneg q); lia]).
    lia. }
  (* the quotient is at least one: [q * 2^e' >= 1] *)
  assert (Hone : 1 <= Zdigits2 q + e').
  { destruct (Z_lt_le_dec 0 e') as [|He']; [lia|].
    assert (Hlow : 2 ^ (- e') <= q).
    { apply Z.div_le_lower_bound; [lia|].
      assert (E1 : 2 ^ s * 2 ^ (ep + 149) = 2 ^ (eq + 149) * 2 ^ (- e')).
      { rewrite <- !Z.pow_add_r by lia. f_equal. unfold s. lia. }
      assert (P : 0 < 2 ^ (- e')) by (apply pow2_pos; lia).
      nia. }
    destruct (Zdigits2_bounds q Hq0) as [_ Uq].
    destruct (Z_lt_le_dec (Zdigits2 q + e') 1) as [Hlt|]; [|lia].
    assert (2 ^ Zdigits2 q <= 2 ^ (- e'))
      by (apply Z.pow_le_mono_r; [lia | lia]).
    lia. }
  set (d := Zdigits2 q) in *.
  assert (Hpre : e' <= fexp32 (d + e')).
  { unfold e' in *. unfold fexp32 in *. unfold k, s in *. lia. }
  destruct (binary_round_aux_value false q e' l Hq0 Hpre)
    as [[-> _] | (Hnum & Hsign & Hlo & _)]; [reflexivity|].
  fold d in Hlo.
  assert (HE : fexp32 (d + e') = d + e' - 24) by (unfold fexp32; lia).
  rewrite HE in Hlo.
  replace (d + e' - 24 - e') with (d - 24) in Hlo by lia.
  assert (Hn : 0 <= d - 24 < d) by (rewrite HE in Hpre; lia).
  assert (Hdm : Zdigits2 (q / 2 ^ (d - 24)) = 24).
  { rewrite Zdigits2_div_pow2 by (auto; lia). fold d. lia. }
  assert (Hm0 : 0 < q / 2 ^ (d - 24)) by (apply div_pow2_pos; auto).
  destruct (Zdigits2_bounds _ Hm0) as [Lm _]. rewrite Hdm in Lm.
  change (2 ^ (24 - 1)) with (2 ^ 23) in Lm.
  set (r := binary_round_aux 24 128 false q e' l) in *.
  assert (N1 : num32 (Binary32.of_Z 1) = true) by reflexivity.
  apply (leb_value _ _ N1 Hnum). rewrite V_fone.
  unfold V. rewrite Hsign. cbn [cond_Zopp].
  assert (Hpow : 2 ^ 149 <= 2 ^ 23 * 2 ^ (d + e' - 24 + 149)).
  { rewrite <- Z.pow_add_r by lia. apply Z.pow_le_mono_r; lia. }
  assert (0 < 2 ^ (d + e' - 24 + 149)) by (apply pow2_pos; lia).
  nia.
Qed.

End Binary32Quotient.

Set Implicit Arguments.

(** ** Moves that stay beyond one wall *)

Section Binary32Barring.
Local Open Scope Z_scope.

Lemma positive_number_shape (r : spec_float) :
  num32 r = true -> nonzero_as false r -> exists m e, r = S754_finite false m e.
Proof. intros Hn [-> | (m & e & ->)]; [discriminate | eauto]. Qed.

Lemma V_finite_false (m : positive) (e : Z) :
  V (S754_finite false m e) = Zpos m * 2 ^ (e + 149).
Proof. reflexivity. Qed.

(** The quotient of two differences, both taken against the direction of the
    move, when the distance to the wall is at least the length of the move. *)
Lemma quotient_beyond_end (P Q : spec_float) :
  num32 P = true -> num32 Q = true -> nonzero_as false P -> V P <= V Q ->
  saturating_edge (SFopp P, SFopp Q).
Proof.
  intros NP NQ HP Hle.
  destruct (positive_number_shape NP HP) as (mp & ep & ->).
  assert (PP : 0 < V (S754_finite false mp ep)).
  { rewrite V_finite_false. apply Z.mul_pos_pos; [lia|].
    apply pow2_pos. destruct (valid_exp _ _ _ (num32_finite _ _ _ NP)); lia. }
  destruct (V_pos_shape Q ltac:(lia)) as (mq & eq & ->).
  split; cbn [fst snd].
  - reflexivity.
  - rewrite SFdiv_opp_opp. apply SFdiv_at_least_one.
    + apply num32_finite; exact NQ.
    + apply num32_finite; exact NP.
    + rewrite !V_finite_false in Hle. exact Hle.
Qed.

Lemma abs_swap (a b : Z) : Z.abs (a - b) = Z.abs (b - a).
Proof. lia. Qed.

(** Both ends on or beyond the lower wall of one axis. *)
Lemma beyond_low_wall (lo c t : spec_float) :
  within settings_limit lo = true -> num32 c = true -> num32 t = true ->
  SFleb c lo = true -> SFleb t lo = true ->
  SFltb c lo = true \/ SFltb t lo = true ->
  barring_edge (SFopp (SFsub 24 128 t c), SFsub 24 128 c lo).
Proof.
  intros Wlo Nc Nt Hc Ht Hstrict.
  destruct (within_spec settings_limit lo eq_refl Wlo) as [Nlo _].
  pose proof (num32_valid _ Nc) as Vc. pose proof (num32_valid _ Nt) as Vt.
  pose proof (num32_valid _ Nlo) as Vlo.
  assert (Lc : V c <= V lo) by (apply (leb_value _ _ Nc Nlo); exact Hc).
  assert (Lt : V t <= V lo) by (apply (leb_value _ _ Nt Nlo); exact Ht).
  assert (Ls : V c < V lo \/ V t < V lo).
  { destruct Hstrict as [E | E]; [left; apply (ltb_value _ _ Nc Nlo) | right; apply (ltb_value _ _ Nt Nlo)];
      exact E. }
  destruct (Z.lt_trichotomy (V t) (V c)) as [Hlt | [Heq | Hgt]].
  - left. assert (Htc : SFltb t c = true) by (apply (ltb_value _ _ Nt Nc); exact Hlt).
    exact (proj1 (@leaving_low_wall lo c t Wlo Vc Vt Hc Htc)).
  - right; left. split; cbn [fst snd].
    + destruct (SFsub_equal t c Nt Nc) as [s ->].
      { apply (eqb_value _ _ Nt Nc). exact Heq. }
      destruct s; reflexivity.
    + assert (Hlo : SFltb c lo = true) by (apply (ltb_value _ _ Nc Nlo); lia).
      destruct (SFsub_strict_sign c lo Vc Vlo Hlo) as [[-> | (m & e & ->)] _]; reflexivity.
  - right; right.
    assert (Hsmall : Z.abs (V lo - V c) < overflow_threshold).
    { rewrite abs_swap. apply (@wall_distance_small c lo lo); auto. }
    destruct (SFsub_mono_l t lo c Nt Nlo Nc Hgt Lt Hsmall) as (NP & NQ & Hle).
    assert (Hct : SFltb c t = true) by (apply (ltb_value _ _ Nc Nt); exact Hgt).
    destruct (SFsub_strict_sign c t Vc Vt Hct) as [_ HP].
    rewrite (SFsub_antisym c lo Nc Nlo ltac:(lia)).
    apply quotient_beyond_end; assumption.
Qed.

(** Both ends on or beyond the upper wall of one axis. *)
Lemma beyond_high_wall (hi c t : spec_float) :
  within settings_limit hi = true -> num32 c = true -> num32 t = true ->
  SFleb hi c = true -> SFleb hi t = true ->
  SFltb hi c = true \/ SFltb hi t = true ->
  barring_edge (SFsub 24 128 t c, SFsub 24 128 hi c).
Proof.
  intros Whi Nc Nt Hc Ht Hstrict.
  destruct (within_spec settings_limit hi eq_refl Whi) as [Nhi _].
  pose proof (num32_valid _ Nc) as Vc. pose proof (num32_valid _ Nt) as Vt.
  pose proof (num32_valid _ Nhi) as Vhi.
  assert (Lc : V hi <= V c) by (apply (leb_value _ _ Nhi Nc); exact Hc).
  assert (Lt : V hi <= V t) by (apply (leb_value _ _ Nhi Nt); exact Ht).
  assert (Ls : V hi < V c \/ V hi < V t).
  { destruct Hstrict as [E | E]; [left; apply (ltb_value _ _ Nhi Nc) | right; apply (ltb_value _ _ Nhi Nt)];
      exact E. }
  destruct (Z.lt_trichotomy (V c) (V t)) as [Hlt | [Heq | Hgt]].
  - left. assert (Hct : SFltb c t = true) by (apply (ltb_value _ _ Nc Nt); exact Hlt).
    exact (proj1 (@leaving_high_wall hi c t Whi Vc Vt Hc Hct)).
  - right; left. split; cbn [fst snd].
    + destruct (SFsub_equal t c Nt Nc) as [s ->].
      { apply (eqb_value _ _ Nt Nc). lia. }
      destruct s; reflexivity.
    + assert (Hhi : SFltb hi c = true) by (apply (ltb_value _ _ Nhi Nc); lia).
      destruct (SFsub_strict_sign hi c Vhi Vc Hhi) as [[-> | (m & e & ->)] _]; reflexivity.
  - right; right.
    assert (Hsmall : Z.abs (V c - V hi) < overflow_threshold).
    { rewrite abs_swap. apply (@wall_distance_small hi c hi); auto. }
    destruct (SFsub_mono_r c t hi Nc Nt Nhi Hgt Lt Hsmall) as (NP & NQ & Hle).
    assert (Htc : SFltb t c = true) by (apply (ltb_value _ _ Nt Nc); exact Hgt).
    destruct (SFsub_strict_sign t c Vt Vc Htc) as [_ HP].
    rewrite (SFsub_antisym t c Nt Nc ltac:(lia)).
    rewrite (SFsub_antisym hi c Nhi Nc ltac:(lia)).
    apply quotient_beyond_end; assumption.
Qed.

End Binary32Barring.

Section SinglePrecisionOutside.
Context {H : Host}.
Local Existing Instance binary32.
Local Open Scope Z_scope.

Lemma raise_at_least_one (t0 t : spec_float) :
  SFleb fone t0 = true -> SFleb fone (if SFltb t0 t then t else t0) = true.
Proof.
  intros H0. destruct (SFltb t0 t) eqn:E; [|exact H0].
  apply leb_trans with (y := t0); [exact H0 | apply b32_ltb_leb; exact E].
Qed.

Lemma raise_to_at_least_one (t0 t : spec_float) :
  nonneg32 t0 = true -> SFleb fone t = true ->
  SFleb fone (if SFltb t0 t then t else t0) = true.
Proof.
  intros H0 Ht. destruct (SFltb t0 t) eqn:E; [exact Ht|].
  destruct (leb_not_nan _ _ Ht) as [_ Nt].
  apply leb_trans with (y := t); [exact Ht|].
  apply not_ltb_leb; auto. apply nonneg32_not_nan; exact H0.
Qed.

(** Once the entry parameter is at one or above, the loop can only end with an
    empty interval. *)
Lemma clip_loop_closed_at_one_b32 (pq : list (spec_float * spec_float)) :
  forall t0 t1, SFleb fone t0 = true -> SFleb t1 fone = true ->
  clip_loop (A := binary32) pq t0 t1 = None \/
  exists a b, clip_loop (A := binary32) pq t0 t1 = Some (a, b) /\
              SFleb fone a = true /\ SFleb b fone = true.
Proof.
  induction pq as [|[p q] rest IH]; intros t0 t1 H0 H1.
  - right. exists t0, t1. auto.
  - cbn [clip_loop]. cbn [feq flt fdiv binary32].
    unfold Binary32.prec, Binary32.emax. rewrite fzero_b32.
    destruct (SFeqb p (S754_zero false)).
    + destruct (SFltb q (S754_zero false)); [left; reflexivity | apply IH; auto].
    + destruct (SFltb p (S754_zero false)).
      * destruct (SFltb t1 (SFdiv 24 128 q p)); [left; reflexivity|].
        apply IH; [apply raise_at_least_one; exact H0 | exact H1].
      * destruct (SFltb (SFdiv 24 128 q p) t0); [left; reflexivity|].
        apply IH; [exact H0 | apply lower_at_most_one; exact H1].
Qed.

Lemma negative_not_zero (p : spec_float) :
  SFltb p (S754_zero false) = true -> SFeqb p (S754_zero false) = false.
Proof. destruct p as [[]|[]| |[] ? ?]; try discriminate; reflexivity. Qed.

(** A saturating edge anywhere among the edges empties the interval. *)
Lemma clip_loop_saturating_edge_b32 (pq : list (spec_float * spec_float)) :
  Exists saturating_edge pq ->
  forall t0 t1, nonneg32 t0 = true -> SFleb t1 fone = true ->
  clip_loop (A := binary32) pq t0 t1 = None \/
  exists a b, clip_loop (A := binary32) pq t0 t1 = Some (a, b) /\
              SFleb fone a = true /\ SFleb b fone = true.
Proof.
  induction 1 as [[p q] rest (Hp & Hq) | [p q] rest Hex IH]; intros t0 t1 H0 H1.
  - cbn [fst snd] in Hp, Hq.
    cbn [clip_loop]. cbn [feq flt fdiv binary32].
    unfold Binary32.prec, Binary32.emax. rewrite fzero_b32.
    rewrite (negative_not_zero p Hp), Hp.
    destruct (SFltb t1 (SFdiv 24 128 q p)); [left; reflexivity|].
    apply clip_loop_closed_at_one_b32; [|exact H1].
    apply raise_to_at_least_one; assumption.
  - cbn [clip_loop]. cbn [feq flt fdiv binary32].
    unfold Binary32.prec, Binary32.emax. rewrite fzero_b32.
    destruct (SFeqb p (S754_zero false)).
    + destruct (SFltb q (S754_zero false)); [left; reflexivity | apply IH; auto].
    + destruct (SFltb p (S754_zero false)).
      * destruct (SFltb t1 (SFdiv 24 128 q p)); [left; reflexivity|].
        apply IH; [apply raise_nonneg; exact H0 | exact H1].
      * destruct (SFltb (SFdiv 24 128 q p) t0); [left; reflexivity|].
        apply IH; [exact H0 | apply lower_at_most_one; exact H1].
Qed.

Lemma Exists_barring (pq : list (spec_float * spec_float)) :
  Exists barring_edge pq ->
  Exists closing_edge pq \/ Exists parallel_outside_edge pq \/ Exists saturating_edge pq.
Proof.
  induction 1 as [e rest [Hc | [Hp | Hs]] | e rest Hex [IH | [IH | IH]]].
  - left. apply Exists_cons_hd. exact Hc.
  - right; left. apply Exists_cons_hd. exact Hp.
  - right; right. apply Exists_cons_hd. exact Hs.
  - left. apply Exists_cons_tl. exact IH.
  - right; left. apply Exists_cons_tl. exact IH.
  - right; right. apply Exists_cons_tl. exact IH.
Qed.

(** A barring edge among the four: the move is not reported. *)
Lemma barring_edge_no_intersection (st : statics) (x0 y0 x1 y1 : spec_float) :
  Exists barring_edge (clip_edges (atci st) x0 y0 x1 y1) ->
  line_intersects_keepout st x0 y0 x1 y1 = false.
Proof.
  intros Hex. destruct (Exists_barring Hex) as [Hc | [Hp | Hs]].
  - apply closing_edge_no_intersection. exact Hc.
  - unfold line_intersects_keepout.
    rewrite (clip_loop_parallel_outside_b32 Hp). reflexivity.
  - unfold line_intersects_keepout.
    destruct (clip_loop_saturating_edge_b32 Hs (@fzero binary32) (@fone binary32)
                eq_refl eq_refl)
      as [-> | (a & b & -> & Ha & Hb)]; [reflexivity|].
    cbn [flt binary32]. apply leb_not_ltb.
    apply leb_trans with (y := fone); assumption.
Qed.

(** Both ends on or beyond one wall: one of the four edges bars the move. *)
Lemma beyond_one_wall_barring (a : atci_rt_t) (x0 y0 x1 y1 : spec_float) :
  zone_in_settings_range a = true ->
  num32 x0 = true -> num32 y0 = true -> num32 x1 = true -> num32 y1 = true ->
  beyond_one_wall a x0 y0 x1 y1 = true ->
  Exists barring_edge (clip_edges a x0 y0 x1 y1).
Proof.
  intros Hz Nx0 Ny0 Nx1 Ny1 Hb.
  unfold zone_in_settings_range in Hz.
  apply andb_true_iff in Hz. destruct Hz as [Hz Z4].
  apply andb_true_iff in Hz. destruct Hz as [Hz Z3].
  apply andb_true_iff in Hz. destruct Hz as [Z1 Z2].
  unfold beyond_one_wall in Hb. cbn [fle flt binary32] in Hb.
  unfold clip_edges. cbn [fsub fneg binary32]. unfold Binary32.prec, Binary32.emax.
  apply orb_true_iff in Hb. destruct Hb as [Hb | W4].
  1: apply orb_true_iff in Hb; destruct Hb as [Hb | W3].
  1: apply orb_true_iff in Hb; destruct Hb as [W1 | W2].
  - apply andb_true_iff in W1. destruct W1 as [W1 Hs].
    apply andb_true_iff in W1. destruct W1 as [Hc Ht].
    apply orb_true_iff in Hs.
    apply Exists_cons_hd. apply beyond_low_wall; assumption.
  - apply andb_true_iff in W2. destruct W2 as [W2 Hs].
    apply andb_true_iff in W2. destruct W2 as [Hc Ht].
    apply orb_true_iff in Hs.
    apply Exists_cons_tl, Exists_cons_hd. apply beyond_high_wall; assumption.
  - apply andb_true_iff in W3. destruct W3 as [W3 Hs].
    apply andb_true_iff in W3. destruct W3 as [Hc Ht].
    apply orb_true_iff in Hs.
    apply Exists_cons_tl, Exists_cons_tl, Exists_cons_hd.
    apply beyond_low_wall; assumption.
  - apply andb_true_iff in W4. destruct W4 as [W4 Hs].
    apply andb_true_iff in W4. destruct W4 as [Hc Ht].
    apply orb_true_iff in Hs.
    apply Exists_cons_tl, Exists_cons_tl, Exists_cons_tl, Exists_cons_hd.
    apply beyond_high_wall; assumption.
Qed.

(** C4 (intersection test), amended: in binary32, the test returns true only when
    the loop ends with an interval [t0 < t1] inside [0, 1]; a move both of whose
    ends lie on or beyond the same boundary line, one of them strictly beyond it,
    is not reported, and this covers a move that ends on a boundary line coming
    from outside; but a move of length zero is reported exactly when its point is
    in the zone, boundary lines included.  The bounds lie in the settings range
    and the four coordinates are binary32 numbers. *)
Theorem intersection_requires_positive_overlap (st : statics) (x0 y0 x1 y1 : num) :
  zone_in_settings_range (atci st) = true ->
  num32 x0 = true -> num32 y0 = true -> num32 x1 = true -> num32 y1 = true ->
  (line_intersects_keepout st x0 y0 x1 y1 = true ->
   exists t0 t1,
     clip_loop (clip_edges (atci st) x0 y0 x1 y1) fzero fone = Some (t0, t1) /\
     fle fzero t0 = true /\ flt t0 t1 = true /\ fle t1 fone = true)
  /\
  (beyond_one_wall (atci st) x0 y0 x1 y1 = true ->
   line_intersects_keepout st x0 y0 x1 y1 = false)
  /\
  line_intersects_keepout st x0 y0 x0 y0 = technically_inside_at (atci st) x0 y0.
Proof.
  intros Hz Nx0 Ny0 Nx1 Ny1. split; [|split].
  - unfold line_intersects_keepout.
    destruct (clip_loop _ _ _) as [[t0 t1]|] eqn:Hrun; [|discriminate].
    intros Hlt. exists t0, t1. split; [reflexivity|].
    destruct (clip_loop_result_b32 _ _ _ _ _ Hrun) as (H0 & _ & H1 & _).
    split; [|split; [exact Hlt | exact H1]].
    cbn [fle binary32]. rewrite fzero_b32.
    destruct t0 as [[]|[]| |[] ? ?]; try discriminate; reflexivity.
  - intros Hb. apply barring_edge_no_intersection.
    apply beyond_one_wall_barring; assumption.
  - apply zero_length_move_b32; assumption.
Qed.

End SinglePrecisionOutside.

(** ** The clipped point *)

Section SinglePrecisionClipping.
Context {H : Host}.
Local Existing Instance binary32.
Local Open Scope Z_scope.

(** What a successful clip returns. *)
Lemma clipped_point_shape_b32 (st : statics) (start end_ buf out : list num) :
  (2 <= N_AXIS)%nat -> length end_ = N_AXIS -> length buf = N_AXIS ->
  calculate_clipped_point st start end_ buf = (true, out) ->
  let x0 := axis start X_AXIS in
  let y0 := axis start Y_AXIS in
  let x1 := axis end_ X_AXIS in
  let y1 := axis end_ Y_AXIS in
  let edges := clip_edges (atci st) x0 y0 x1 y1 in
  exists t0 t1,
    clip_loop edges fzero fone = Some (t0, t1) /\
    flt fzero t0 = true /\ fle t0 fone = true /\
    (exists p q, In (p, q) edges /\ flt p fzero = true /\ t0 = fdiv q p) /\
    axis out X_AXIS = fadd x0 (fmul t0 (fsub x1 x0)) /\
    axis out Y_AXIS = fadd y0 (fmul t0 (fsub y1 y0)) /\
    forall i, i <> X_AXIS -> i <> Y_AXIS -> axis out i = axis end_ i.
Proof.
  intros HN He Hb Hcp. cbv zeta.
  assert (Hother := fun i => @clipped_point_other_axes _ _ st start end_ buf out i Hcp He Hb).
  unfold calculate_clipped_point in Hcp.
  destruct (clip_loop _ _ _) as [[t0 t1]|] eqn:Hrun; [|discriminate].
  destruct (flt fzero t0) eqn:Hpos; [|discriminate].
  injection Hcp as Hout.
  destruct (clip_loop_result_b32 _ _ _ _ _ Hrun) as (_ & Hle & _ & Hsrc).
  exists t0, t1. split; [reflexivity|]. split; [exact Hpos|]. split; [exact Hle|].
  split; [exact (Hsrc Hpos)|].
  split; [|split; [|exact Hother]].
  - subst out. unfold axis at 1.
    rewrite nth_store_other by (unfold X_AXIS, Y_AXIS; lia).
    rewrite nth_store_same; [reflexivity|].
    rewrite memcpy_whole, He by auto. unfold X_AXIS; lia.
  - subst out. unfold axis at 1. rewrite nth_store_same; [reflexivity|].
    rewrite store_length, memcpy_whole, He by auto. unfold Y_AXIS; lia.
Qed.


End SinglePrecisionClipping.

(** ** The two entry points *)

Section SinglePrecisionAgreement.
Context {H : Host}.
Local Existing Instance binary32.
Local Open Scope Z_scope.

(** X19 (the two entry points agree), in binary32: with enforcement active, when
    the check path and the apply path are given the same start and the same
    destination, the plugin steps in on one exactly when it steps in on the other.
    Either the check path lets the move through to the previous handler and the
    previous apply handler receives it unchanged; or the check path rejects it
    with one warning and the apply path, with one warning, leaves the current
    position as it is and replaces the target: by the current position on every
    axis (the move is blocked), or by the clipped point (the move is clamped),
    whose X and Y are the rounded [start + t0 * (destination - start)] for the
    entry parameter [0 < t0 <= 1] of the clipping loop and whose other axes are
    the destination's.  The bounds lie in the settings range, the start is
    binary32 data and the destination is not infinite. *)
Theorem check_and_apply_agree (hk : hooks) (st : statics)
    (target current_position : list num) (axes : axes_signals_t)
    (is_cartesian : bool) (envelope : work_envelope_t) :
  is_keepout_active st = true ->
  zone_in_settings_range (atci st) = true ->
  (2 <= N_AXIS)%nat -> length target = N_AXIS -> length current_position = N_AXIS ->
  let x0 := axis current_position X_AXIS in
  let y0 := axis current_position Y_AXIS in
  let xt := axis target X_AXIS in
  let yt := axis target Y_AXIS in
  valid_binary 24 128 x0 = true -> valid_binary 24 128 y0 = true ->
  not_infinite xt = true -> not_infinite yt = true ->
  let chk := travel_limits_check hk st (Some current_position) target axes
               is_cartesian envelope in
  let app := keepout_apply_travel_limits hk st target current_position envelope in
  (chk = (chain_check hk target axes is_cartesian envelope, []) /\
   app = (chain_apply hk target current_position envelope, []))
  \/
  (fst chk = false /\ (exists m, snd chk = [warning m]) /\
   (exists m, snd app = [warning m]) /\
   snd (fst app) = current_position /\
   (fst (fst app) = current_position \/
    exists t0 t1,
      clip_loop (clip_edges (atci st) x0 y0 xt yt) fzero fone = Some (t0, t1) /\
      flt fzero t0 = true /\ fle t0 fone = true /\
      axis (fst (fst app)) X_AXIS = fadd x0 (fmul t0 (fsub xt x0)) /\
      axis (fst (fst app)) Y_AXIS = fadd y0 (fmul t0 (fsub yt y0)) /\
      forall i, i <> X_AXIS -> i <> Y_AXIS -> axis (fst (fst app)) i = axis target i)).
Proof.
  intros Hact Hz HN Ht Hc x0 y0 xt yt Vx Vy Wx Wy. cbv zeta.
  unfold zone_in_settings_range in Hz.
  apply andb_true_iff in Hz. destruct Hz as [Hz Z4].
  apply andb_true_iff in Hz. destruct Hz as [Hz Z3].
  apply andb_true_iff in Hz. destruct Hz as [Z1 Z2].
  assert (Hclip : forall msg : effect,
    let '(ok, clipped_target) :=
      calculate_clipped_point st current_position target (repeat fzero N_AXIS) in
    let app := if ok
               then ((memcpy target clipped_target N_AXIS, current_position), [msg])
               else ((memcpy target current_position N_AXIS, current_position), [msg]) in
    snd app = [msg] /\ snd (fst app) = current_position /\
    (fst (fst app) = current_position \/
     exists t0 t1,
       clip_loop (clip_edges (atci st) x0 y0 xt yt) fzero fone = Some (t0, t1) /\
       flt fzero t0 = true /\ fle t0 fone = true /\
       axis (fst (fst app)) X_AXIS = fadd x0 (fmul t0 (fsub xt x0)) /\
       axis (fst (fst app)) Y_AXIS = fadd y0 (fmul t0 (fsub yt y0)) /\
       forall i, i <> X_AXIS -> i <> Y_AXIS -> axis (fst (fst app)) i = axis target i)).
  { intros msg.
    destruct (calculate_clipped_point st current_position target (repeat fzero N_AXIS))
      as [[|] out] eqn:Hcp; cbn [fst snd].
    - split; [reflexivity|]. split; [reflexivity|]. right.
      assert (Hlen : length out = N_AXIS).
      { apply (clipped_point_length _ _ _ _ Hcp); [exact Ht | apply repeat_length]. }
      rewrite memcpy_whole by auto.
      destruct (@clipped_point_shape_b32 _ st current_position target _ out HN Ht
                  (repeat_length _ _) Hcp)
        as (t0 & t1 & Hrun & Hpos & Hle & _ & HX & HY & Hother).
      exists t0, t1. repeat split; auto.
    - split; [reflexivity|]. split; [reflexivity|]. left.
      apply memcpy_whole; auto. }
  unfold travel_limits_check, keepout_apply_travel_limits, warning.
  rewrite Hact. cbn [negb]. fold x0 y0 xt yt.
  destruct (deep_inside_at (atci st) x0 y0) eqn:Hd.
  - right.
    rewrite (@deep_inside_start_intersects_b32 st _ _ _ _ Z1 Z2 Z3 Z4 Vx Vy Wx Wy Hd).
    cbn [fst snd]. rewrite memcpy_whole by auto.
    destruct (deep_inside_at (atci st) xt yt); cbn; eauto 10.
  - destruct (deep_inside_at (atci st) xt yt).
    + right. cbn [orb].
      destruct (technically_inside_at (atci st) x0 y0).
      * specialize (Hclip (Report_message MSG_INSIDE_ZONE Message_Warning)).
        destruct (calculate_clipped_point _ _ _ _) as [ok out].
        destruct Hclip as (E1 & E2 & E3).
        split; [reflexivity|]. split; [cbn [snd]; eauto|]. split; [rewrite E1; eauto|].
        split; [exact E2 | exact E3].
      * specialize (Hclip (Report_message MSG_BLOCKED_AT_WALL Message_Warning)).
        destruct (calculate_clipped_point _ _ _ _) as [ok out].
        destruct Hclip as (E1 & E2 & E3).
        split; [reflexivity|]. split; [cbn [snd]; eauto|]. split; [rewrite E1; eauto|].
        split; [exact E2 | exact E3].
    + cbn [orb].
      destruct (line_intersects_keepout st x0 y0 xt yt); [right|left; auto].
      destruct (technically_inside_at (atci st) x0 y0).
      * specialize (Hclip (Report_message MSG_INSIDE_ZONE Message_Warning)).
        destruct (calculate_clipped_point _ _ _ _) as [ok out].
        destruct Hclip as (E1 & E2 & E3).
        split; [reflexivity|]. split; [cbn [snd]; eauto|]. split; [rewrite E1; eauto|].
        split; [exact E2 | exact E3].
      * specialize (Hclip (Report_message MSG_BLOCKED_AT_WALL Message_Warning)).
        destruct (calculate_clipped_point _ _ _ _) as [ok out].
        destruct Hclip as (E1 & E2 & E3).
        split; [reflexivity|]. split; [cbn [snd]; eauto|]. split; [rewrite E1; eauto|].
        split; [exact E2 | exact E3].
Qed.

End SinglePrecisionAgreement.

Section SinglePrecisionBeyondWall.
Context {H : Host}.
Local Existing Instance binary32.
Local Open Scope Z_scope.

(** A point on or beyond one of the walls is not deep inside. *)
Lemma beyond_wall_not_deep (a : atci_rt_t) (x y : spec_float) :
  zone_in_settings_range a = true -> num32 x = true -> num32 y = true ->
  SFleb x (rt_x_min a) = true \/ SFleb (rt_x_max a) x = true \/
  SFleb y (rt_y_min a) = true \/ SFleb (rt_y_max a) y = true ->
  deep_inside_at a x y = false.
Proof.
  intros Hz Nx Ny Hout.
  destruct (deep_inside_at a x y) eqn:Hd; [exfalso|reflexivity].
  destruct (@deep_inside_values a x y Hz (num32_valid _ Nx) (num32_valid _ Ny) Hd)
    as ((_ & X1 & X2) & (_ & Y1 & Y2)).
  unfold zone_in_settings_range in Hz.
  apply andb_true_iff in Hz. destruct Hz as [Hz Z4].
  apply andb_true_iff in Hz. destruct Hz as [Hz Z3].
  apply andb_true_iff in Hz. destruct Hz as [Z1 Z2].
  destruct (within_spec settings_limit _ eq_refl Z1) as [N1 _].
  destruct (within_spec settings_limit _ eq_refl Z2) as [N2 _].
  destruct (within_spec settings_limit _ eq_refl Z3) as [N3 _].
  destruct (within_spec settings_limit _ eq_refl Z4) as [N4 _].
  destruct Hout as [E | [E | [E | E]]].
  - apply (leb_value _ _ Nx N1) in E. lia.
  - apply (leb_value _ _ N2 Nx) in E. lia.
  - apply (leb_value _ _ Ny N3) in E. lia.
  - apply (leb_value _ _ N4 Ny) in E. lia.
Qed.

(** X16 (a move that stays out is left alone), in binary32: when both ends of a
    move lie on or beyond the same boundary line, seen from the zone, and at
    least one of them strictly beyond it, the check path returns what the previous
    handler returns and the apply path hands the arrays on, with no message: the
    move is neither rejected nor altered.  This covers a move along the outside
    of the zone, a move towards a wall that stops short of it, and one that ends
    on the wall.  The bounds lie in the settings range; the four coordinates are
    binary32 numbers. *)
Theorem move_beyond_one_wall_is_untouched (hk : hooks) (st : statics)
    (target current_position : list num) (axes : axes_signals_t)
    (is_cartesian : bool) (envelope : work_envelope_t) :
  let x0 := axis current_position X_AXIS in
  let y0 := axis current_position Y_AXIS in
  let xt := axis target X_AXIS in
  let yt := axis target Y_AXIS in
  zone_in_settings_range (atci st) = true ->
  num32 x0 = true -> num32 y0 = true -> num32 xt = true -> num32 yt = true ->
  beyond_one_wall (atci st) x0 y0 xt yt = true ->
  travel_limits_check hk st (Some current_position) target axes is_cartesian envelope
  = (chain_check hk target axes is_cartesian envelope, []) /\
  keepout_apply_travel_limits hk st target current_position envelope
  = (chain_apply hk target current_position envelope, []).
Proof.
  intros x0 y0 xt yt Hz Nx0 Ny0 Nxt Nyt Hb.
  assert (Hi : line_intersects_keepout st x0 y0 xt yt = false).
  { apply barring_edge_no_intersection. apply beyond_one_wall_barring; assumption. }
  assert (Hends :
    (SFleb x0 (rt_x_min (atci st)) = true \/ SFleb (rt_x_max (atci st)) x0 = true \/
     SFleb y0 (rt_y_min (atci st)) = true \/ SFleb (rt_y_max (atci st)) y0 = true) /\
    (SFleb xt (rt_x_min (atci st)) = true \/ SFleb (rt_x_max (atci st)) xt = true \/
     SFleb yt (rt_y_min (atci st)) = true \/ SFleb (rt_y_max (atci st)) yt = true)).
  { unfold beyond_one_wall in Hb. cbn [fle flt binary32] in Hb.
    apply orb_true_iff in Hb. destruct Hb as [Hb | W].
    1: apply orb_true_iff in Hb; destruct Hb as [Hb | W].
    1: apply orb_true_iff in Hb; destruct Hb as [W | W].
    all: apply andb_true_iff in W; destruct W as [W _];
      apply andb_true_iff in W; destruct W as [Hc Ht]; auto 6. }
  destruct Hends as [Hs Ht].
  pose proof (@beyond_wall_not_deep (atci st) x0 y0 Hz Nx0 Ny0 Hs) as Ds.
  pose proof (@beyond_wall_not_deep (atci st) xt yt Hz Nxt Nyt Ht) as Dt.
  unfold travel_limits_check, keepout_apply_travel_limits.
  destruct (is_keepout_active st); cbn [negb]; [|split; reflexivity].
  fold x0 y0 xt yt. rewrite Ds, Dt, Hi. split; reflexivity.
Qed.

End SinglePrecisionBeyondWall.

(** * Concrete instances of the properties above *)

(** The plugin enabled with both monitors on, switched off by [M960 P0], then two
    polls that read the rack input high, as recorded. *)
Lemma steady_polls_keep_state_witness :
  let st := fst (mcode_execute (A := binary32) (H := grblhal_3axis) no_hooks
                   (booted 7) 0%Z (m960_block 0)) in
  let cs : list (@call binary32 grblhal_3axis) :=
    [On_poll true true true true None;
     On_poll true false true true (Some (vec3 30 30 0))] in
  forallb (steady_poll (last_pin_state (atci st))) cs = true /\
  enabled (atci (run no_hooks st cs)) = false /\
  source (atci (run no_hooks st cs)) = SOURCE_COMMAND.
Proof.
  cbv zeta.
  destruct (@steady_polls_keep_state binary32 grblhal_3axis no_hooks
              [On_poll true true true true None;
               On_poll true false true true (Some (vec3 30 30 0))]
              (fst (mcode_execute (A := binary32) (H := grblhal_3axis) no_hooks
                      (booted 7) 0%Z (m960_block 0))) eq_refl) as (Ea & _).
  split; [reflexivity|]. rewrite Ea. split; reflexivity.
Defined.

(** Flags byte 6: both monitors on, the plugin itself off. *)
Lemma runtime_calls_cannot_enable_plugin_witness :
  let cs : list (@call binary32 grblhal_3axis) :=
    [On_mcode_execute 0%Z (m960_block 1); On_poll false true true true None;
     @On_tool_selected binary32 grblhal_3axis 1%Z; @On_tool_changed binary32 grblhal_3axis false 1%Z; On_save] in
  plugin_enabled (A := binary32) (config (booted 6)) = false /\
  enabled (atci (run (A := binary32) (H := grblhal_3axis) no_hooks (booted 6) cs)) = true /\
  is_keepout_active (run (A := binary32) (H := grblhal_3axis) no_hooks (booted 6) cs) = false.
Proof.
  cbv zeta.
  destruct (@runtime_calls_cannot_enable_plugin binary32 grblhal_3axis no_hooks
              [On_mcode_execute 0%Z (m960_block 1); On_poll false true true true None;
               @On_tool_selected binary32 grblhal_3axis 1%Z; @On_tool_changed binary32 grblhal_3axis false 1%Z; On_save]
              (booted 6) None (vec3 0 0 0) (vec3 0 0 0) 0%Z true tt eq_refl eq_refl)
    as (_ & Hi & _).
  split; [reflexivity|]. split; [reflexivity | exact Hi].
Defined.

Lemma bounds_stay_normalised_witness :
  normalised (A := binary32) (booted 1) /\
  normalised (run (A := binary32) (H := grblhal_3axis) no_hooks (booted 1)
                [On_mcode_execute 0%Z (m960_block 0); On_save]).
Proof.
  assert (Hn : normalised (A := binary32) (booted 1)) by (repeat split; reflexivity).
  split; [exact Hn|].
  apply (proj1 (@bounds_stay_normalised binary32 grblhal_3axis no_hooks
                  [On_mcode_execute 0%Z (m960_block 0); On_save])).
  exact Hn.
Defined.

Lemma mcode_dispatch_witness :
  mcode_check (A := binary32) (H := grblhal_3axis) no_hooks 960 = UserMCode_Normal /\
  mcode_check (A := binary32) (H := grblhal_3axis) no_hooks 3 = UserMCode_Unsupported /\
  mcode_execute (A := binary32) (H := grblhal_3axis) no_hooks (booted 1) 0%Z
    {| user_mcode := 3; words_p := true; values_p := of_int 1 |} = (booted 1, []).
Proof.
  destruct (@mcode_dispatch binary32 grblhal_3axis no_hooks no_hooks (booted 1) 0%Z 3%Z
              (m960_block 1)) as [H960 _].
  destruct (@mcode_dispatch binary32 grblhal_3axis no_hooks no_hooks (booted 1) 0%Z 3%Z
              {| user_mcode := 3; words_p := true; values_p := of_int 1 |})
    as [_ Hother].
  destruct (H960 eq_refl) as (Hc & _).
  destruct (Hother ltac:(lia) ltac:(cbn; lia)) as (Hc3 & _ & Hx).
  split; [exact Hc|]. split; [exact Hc3 | exact Hx].
Defined.

Lemma m960_switches_enforcement_witness :
  is_keepout_active
    (fst (mcode_execute (A := binary32) (H := grblhal_3axis) no_hooks (booted 1) 0%Z
            (m960_block 0))) = false /\
  is_keepout_active
    (fst (mcode_execute (A := binary32) (H := grblhal_3axis) no_hooks (booted 1) 0%Z
            (m960_block 1))) = true.
Proof.
  split.
  - apply (proj1 (@m960_switches_enforcement binary32 grblhal_3axis no_hooks (booted 1)
                    0%Z (m960_block 0) None (vec3 0 0 0) (vec3 0 0 0) 0%Z true tt
                    eq_refl ltac:(cbn; lia) eq_refl)).
  - apply (proj1 (@m960_switches_enforcement binary32 grblhal_3axis no_hooks (booted 1)
                    0%Z (m960_block 1) None (vec3 0 0 0) (vec3 0 0 0) 0%Z true tt
                    eq_refl ltac:(cbn; lia) eq_refl)).
Defined.

Lemma check_path_only_restricts_witness :
  is_keepout_active (A := binary32) (booted 1) = true /\
  deep_inside_at (A := binary32) (atci (booted 1)) (of_int 30) (of_int 30) = true /\
  fst (travel_limits_check (A := binary32) (H := grblhal_3axis) no_hooks (booted 1)
         (Some (vec3 0 0 0)) (vec3 30 30 0) 0%Z true tt) = false.
Proof.
  split; [reflexivity|]. split; [reflexivity|].
  apply (proj2 (proj2 (@check_path_only_restricts binary32 grblhal_3axis no_hooks
                         (booted 1) (Some (vec3 0 0 0)) (vec3 30 30 0) 0%Z true tt)));
    reflexivity.
Defined.

(** Start (10, 30), on the boundary line of the zone 10..50 x 10..50. *)
Lemma message_follows_start_witness :
  is_keepout_active (A := binary32) (booted 1) = true /\
  technically_inside_at (A := binary32) (atci (booted 1)) (of_int 10) (of_int 30) = true /\
  (snd (travel_limits_check (A := binary32) (H := grblhal_3axis) no_hooks (booted 1)
          (Some (vec3 10 30 0)) (vec3 30 30 0) 0%Z true tt) = [] \/
   snd (travel_limits_check (A := binary32) (H := grblhal_3axis) no_hooks (booted 1)
          (Some (vec3 10 30 0)) (vec3 30 30 0) 0%Z true tt)
   = [warning MSG_INSIDE_ZONE]).
Proof.
  split; [reflexivity|]. split; [reflexivity|].
  apply (proj1 (@message_follows_start binary32 grblhal_3axis no_hooks (booted 1)
                  (Some (vec3 10 30 0)) (vec3 30 30 0) (vec3 10 30 0) 0%Z true tt
                  eq_refl)).
  reflexivity.
Defined.

Lemma realtime_flags_fit_witness :
  length (repeat NUL 16) = 16%nat /\
  (1 <= String.length (c_string (realtime_flags (A := binary32) (polled_inside)
                                   (repeat NUL 16))) <= 7)%nat.
Proof.
  split; [reflexivity|].
  apply (@realtime_flags_fit binary32 polled_inside (repeat NUL 16) eq_refl).
Defined.

(** Start (10, 30), on the boundary line, destination (30, 30). *)
Lemma inside_start_is_never_clipped_witness :
  technically_inside_at (A := binary32) (atci (booted 1)) (of_int 10) (of_int 30) = true /\
  calculate_clipped_point (A := binary32) (H := grblhal_3axis) (booted 1)
    (vec3 10 30 0) (vec3 30 30 5) (vec3 0 0 0) = (false, vec3 0 0 0).
Proof.
  split; [reflexivity|].
  apply (proj1 (@inside_start_is_never_clipped grblhal_3axis no_hooks (booted 1)
                  (vec3 30 30 5) (vec3 10 30 0) (vec3 0 0 0) tt
                  eq_refl eq_refl eq_refl eq_refl eq_refl eq_refl eq_refl)).
Defined.

Lemma deep_inside_is_technically_inside_witness :
  zone_in_settings_range (atci (booted 1)) = true /\
  deep_inside_at (A := binary32) (atci (booted 1)) (of_int 30) (of_int 30) = true /\
  inside_keepout_zone
    (fst (poll_rack_sensor (A := binary32) (booted 1)
            true true true true (Some (vec3 30 30 0)))) = true.
Proof.
  split; [reflexivity|]. split; [reflexivity|].
  apply (proj2 (@deep_inside_is_technically_inside (booted 1)
                  true true true true (vec3 30 30 0) eq_refl eq_refl eq_refl eq_refl)).
Defined.

Lemma restore_switches_enforcement_off_witness :
  let cs : list (@call binary32 grblhal_3axis) :=
    [On_mcode_execute 0%Z (m960_block 1); On_poll false true true true None] in
  is_keepout_active (A := binary32) (booted 7) = true /\
  is_keepout_active
    (run (A := binary32) (H := grblhal_3axis) no_hooks
       (fst (atci_restore (booted 7))) cs) = false.
Proof.
  cbv zeta. split; [reflexivity|].
  destruct (@restore_switches_enforcement_off binary32 grblhal_3axis no_hooks (booted 7)
              [On_mcode_execute 0%Z (m960_block 1); On_poll false true true true None]
              None (vec3 0 0 0) (vec3 0 0 0) 0%Z true tt eq_refl) as (_ & _ & Hi & _).
  exact Hi.
Defined.

(** Start (10, 30), on the boundary line [x = x_min], destination (5, 30). *)
Lemma move_away_from_zone_is_allowed_witness :
  zone_in_settings_range (atci (booted 1)) = true /\
  moves_away (atci (booted 1)) (Binary32.of_Z 10) (Binary32.of_Z 30)
    (Binary32.of_Z 5) (Binary32.of_Z 30) = true /\
  travel_limits_check (A := binary32) (H := grblhal_3axis) no_hooks (booted 1)
    (Some (vec3 10 30 0)) (vec3 5 30 0) 0%Z true tt = (true, []).
Proof.
  split; [reflexivity|]. split; [reflexivity|].
  apply (@move_away_from_zone_is_allowed grblhal_3axis no_hooks (booted 1)
           (vec3 5 30 0) (vec3 10 30 0) 0%Z true tt
           eq_refl eq_refl eq_refl eq_refl eq_refl eq_refl).
Defined.

(** Zone 10..50 x 10..50.  The move from (0, 30) to (10, 30) ends on the wall
    [x = 10] coming from outside and is not reported; the move of length zero at
    (10, 30) is reported, as the technical test there says. *)
Lemma intersection_requires_positive_overlap_witness :
  zone_in_settings_range (atci (booted 1)) = true /\
  beyond_one_wall (atci (booted 1)) (Binary32.of_Z 0) (Binary32.of_Z 30)
    (Binary32.of_Z 10) (Binary32.of_Z 30) = true /\
  line_intersects_keepout (A := binary32) (booted 1) (Binary32.of_Z 0) (Binary32.of_Z 30)
    (Binary32.of_Z 10) (Binary32.of_Z 30) = false /\
  line_intersects_keepout (A := binary32) (booted 1) (Binary32.of_Z 10)
    (Binary32.of_Z 30) (Binary32.of_Z 10) (Binary32.of_Z 30)
  = technically_inside_at (A := binary32) (atci (booted 1)) (Binary32.of_Z 10)
      (Binary32.of_Z 30).
Proof.
  split; [reflexivity|]. split; [reflexivity|]. split.
  - apply (proj1 (proj2 (@intersection_requires_positive_overlap (booted 1)
                           (Binary32.of_Z 0) (Binary32.of_Z 30)
                           (Binary32.of_Z 10) (Binary32.of_Z 30)
                           eq_refl eq_refl eq_refl eq_refl eq_refl))).
    reflexivity.
  - apply (proj2 (proj2 (@intersection_requires_positive_overlap (booted 1)
                           (Binary32.of_Z 10) (Binary32.of_Z 30)
                           (Binary32.of_Z 10) (Binary32.of_Z 30)
                           eq_refl eq_refl eq_refl eq_refl eq_refl))).
Defined.


(** Zone 10..50 x 10..50, a jog from (0, 0) towards (30, 30): rejected by the
    check path and clamped by the apply path. *)
Lemma check_and_apply_agree_witness :
  is_keepout_active (A := binary32) (booted 1) = true /\
  zone_in_settings_range (atci (booted 1)) = true /\
  not_infinite (Binary32.of_Z 30) = true /\
  (travel_limits_check (A := binary32) (H := grblhal_3axis) no_hooks (booted 1)
     (Some (vec3 0 0 0)) (vec3 30 30 5) 0%Z true tt = (true, []) \/
   (fst (travel_limits_check (A := binary32) (H := grblhal_3axis) no_hooks (booted 1)
           (Some (vec3 0 0 0)) (vec3 30 30 5) 0%Z true tt) = false /\
    snd (fst (keepout_apply_travel_limits (A := binary32) (H := grblhal_3axis)
                no_hooks (booted 1) (vec3 30 30 5) (vec3 0 0 0) tt)) = vec3 0 0 0)).
Proof.
  do 3 (split; [reflexivity|]).
  destruct (@check_and_apply_agree grblhal_3axis no_hooks (booted 1) (vec3 30 30 5)
              (vec3 0 0 0) 0%Z true tt eq_refl eq_refl ltac:(cbn; lia) eq_refl eq_refl
              eq_refl eq_refl eq_refl eq_refl)
    as [[Hc _] | (Hc & _ & _ & Hp & _)].
  - left. exact Hc.
  - right. split; [exact Hc | exact Hp].
Defined.

(** Zone 10..50 x 10..50, a jog along the outside of the wall [x = 10], from
    (5, 0) to (8, 60). *)
Lemma move_beyond_one_wall_is_untouched_witness :
  zone_in_settings_range (atci (booted 1)) = true /\
  beyond_one_wall (atci (booted 1)) (Binary32.of_Z 5) (Binary32.of_Z 0)
    (Binary32.of_Z 8) (Binary32.of_Z 60) = true /\
  travel_limits_check (A := binary32) (H := grblhal_3axis) no_hooks (booted 1)
    (Some (vec3 5 0 0)) (vec3 8 60 0) 0%Z true tt = (true, []).
Proof.
  split; [reflexivity|]. split; [reflexivity|].
  apply (@move_beyond_one_wall_is_untouched grblhal_3axis no_hooks (booted 1)
           (vec3 8 60 0) (vec3 5 0 0) 0%Z true tt
           eq_refl eq_refl eq_refl eq_refl eq_refl eq_refl).
Defined.
